(** * uclbrt-node: the request-signing pipeline of [src/uclbrt.ts]

    A shallow embedding of the [Uclbrt] client class: its signers, the
    canonical encoder, the time normaliser, the link encryptor, the response
    validation of [curlPost] and every public operation, followed by the
    properties of the specification that they satisfy or break.

    Conventions.
    - A JavaScript string is a [string] whose characters are UTF-16 code
      units below 256; [utf8] gives the bytes that [Buffer.from] and
      [hash.update] see.
    - A JavaScript number is an integer [Z]; floating point is not modelled.
    - Everything the class reads from its surroundings (clock, random
      source, time-zone data, public key, remote server) is a field of
      [world].
    - Objects are allocated in a store and passed by reference; a call is
      a computation in the monad [M], which threads the store and the log
      of the requests sent, and returns a value or throws.
    - The debug output of [log] is left out. *)

From Stdlib Require Import ZArith List String Ascii Bool Lia Arith.
From Stdlib Require Import Sorting.Sorted Sorting.Permutation.
Import ListNotations.
Local Open Scope string_scope.
Local Open Scope Z_scope.

(* ================================================================== *)
(** ** Code units, bytes and text helpers                              *)
(* ================================================================== *)

Module Text.

Definition code (a : ascii) : Z := Z.of_N (N_of_ascii a).
Definition chr (z : Z) : ascii := ascii_of_N (Z.to_N z).

Fixpoint codes (s : string) : list Z :=
  match s with
  | EmptyString => []
  | String a r => code a :: codes r
  end.

(** UTF-8 encoding of a string of code units below 256. *)
Definition utf8_unit (c : Z) : list Z :=
  if c <? 128 then [c] else [192 + c / 64; 128 + c mod 64].

Definition utf8 (s : string) : list Z := flat_map utf8_unit (codes s).

Definition hex_digit (upper : bool) (d : Z) : ascii :=
  if d <? 10 then chr (48 + d)
  else chr ((if upper then 55 else 87) + d).

Definition hex_byte (upper : bool) (b : Z) : string :=
  String (hex_digit upper (b / 16)) (String (hex_digit upper (b mod 16)) EmptyString).

(** [digest('hex')]: two lowercase hexadecimal digits per byte. *)
Definition hex (bs : list Z) : string := String.concat "" (map (hex_byte false) bs).

(** [String.prototype.toUpperCase] on ASCII letters (it is only ever applied
    to a hexadecimal digest). *)
Definition upper_unit (a : ascii) : ascii :=
  let c := code a in if (97 <=? c) && (c <=? 122) then chr (c - 32) else a.

Fixpoint toUpperCase (s : string) : string :=
  match s with
  | EmptyString => EmptyString
  | String a r => String (upper_unit a) (toUpperCase r)
  end.

Fixpoint filter_units (keep : ascii -> bool) (s : string) : string :=
  match s with
  | EmptyString => EmptyString
  | String a r => if keep a then String a (filter_units keep r) else filter_units keep r
  end.

Fixpoint all_units (p : ascii -> bool) (s : string) : bool :=
  match s with
  | EmptyString => true
  | String a r => p a && all_units p r
  end.

Definition is_digit (a : ascii) : bool := (48 <=? code a) && (code a <=? 57).

(** [String.prototype.slice(start, end)] with the relative (negative) index
    rule of ECMAScript. *)
Definition rel_index (len i : Z) : Z :=
  if i <? 0 then Z.max (len + i) 0 else Z.min i len.

Definition slice (s : string) (b e : Z) : string :=
  let len := Z.of_nat (String.length s) in
  let from := rel_index len b in
  let to := rel_index len e in
  substring (Z.to_nat from) (Z.to_nat (Z.max (to - from) 0)) s.

(** Decimal rendering of a non-negative number, most significant digit
    first; [fuel] bounds the number of digits. *)
Fixpoint digits_fuel (fuel : nat) (n : Z) (acc : string) : string :=
  match fuel with
  | O => acc
  | S f =>
      let acc' := String (chr (48 + n mod 10)) acc in
      if n <? 10 then acc' else digits_fuel f (n / 10) acc'
  end.

Definition decimal (n : Z) : string :=
  if n <? 0 then String "-" (digits_fuel (S (Z.to_nat (Z.log2 (- n)))) (- n) "")
  else digits_fuel (S (Z.to_nat (Z.log2 n))) n "".

(** [width] decimal digits of [n], zero padded ([n] is reduced modulo
    [10^width] digit by digit, which is the identity in range). *)
Fixpoint pad (width : nat) (n : Z) : string :=
  match width with
  | O => ""
  | S w => pad w (n / 10) ++ String (chr (48 + n mod 10)) ""
  end.

(** The number a text of decimal digits denotes. *)
Definition digits_value (s : string) : Z :=
  fold_left (fun acc c => 10 * acc + (c - 48)) (codes s) 0.

Definition number_of (s : string) : option Z :=
  if all_units is_digit s then Some (digits_value s) else None.

(** An array index: the canonical decimal text of an integer from 0 to
    2^32 - 2. *)
Definition is_array_index (k : string) : bool :=
  match k with
  | EmptyString => false
  | String a r =>
      all_units is_digit k
      && ((k =? "0")%string || negb (code a =? 48))
      && (digits_value k <? 4294967295)
  end.

(** [Array.prototype.join]. *)
Definition join (sep : string) (l : list string) : string := String.concat sep l.

(** [s] occurs in [t] as a contiguous substring. *)
Definition occurs_in (s t : string) : Prop := exists pre post, t = pre ++ s ++ post.

End Text.

(* ================================================================== *)
(** ** The digests and encodings of Node's [crypto], [Buffer] and
       [querystring] modules                                            *)
(* ================================================================== *)

Module Digest.

Definition w32 (x : Z) : Z := x mod 4294967296.
Definition rotl32 (x n : Z) : Z :=
  w32 (Z.lor (Z.shiftl x n) (Z.shiftr x (32 - n))).
Definition not32 (x : Z) : Z := Z.lxor x 4294967295.

Fixpoint chunks (fuel n : nat) (l : list Z) : list (list Z) :=
  match fuel with
  | O => []
  | S f =>
      match l with
      | [] => []
      | _ => firstn n l :: chunks f n (skipn n l)
      end
  end.

Definition le_bytes (n : nat) (x : Z) : list Z :=
  map (fun i => (x / 2 ^ (8 * Z.of_nat i)) mod 256) (seq 0 n).
Definition be_bytes (n : nat) (x : Z) : list Z := rev (le_bytes n x).

Definition le_word (bs : list Z) : Z :=
  fold_right (fun b acc => b + 256 * acc) 0 bs.
Definition be_word (bs : list Z) : Z :=
  fold_left (fun acc b => 256 * acc + b) bs 0.

(** Merkle-Damgard padding shared by MD5 and SHA-1: a 0x80 byte, zeros up
    to 56 modulo 64, then the bit length on eight bytes. *)
Definition pad_message (len_bytes : Z -> list Z) (msg : list Z) : list Z :=
  let n := Z.of_nat (List.length msg) in
  let zeros := Z.to_nat ((55 - n) mod 64) in
  msg ++ [128] ++ repeat 0 zeros ++ len_bytes ((8 * n) mod 2 ^ 64).

(** *** MD5 (RFC 1321) *)

Definition md5_K : list Z :=
  [ 3614090360; 3905402710; 606105819; 3250441966; 4118548399; 1200080426;
    2821735955; 4249261313; 1770035416; 2336552879; 4294925233; 2304563134;
    1804603682; 4254626195; 2792965006; 1236535329; 4129170786; 3225465664;
    643717713; 3921069994; 3593408605; 38016083; 3634488961; 3889429448;
    568446438; 3275163606; 4107603335; 1163531501; 2850285829; 4243563512;
    1735328473; 2368359562; 4294588738; 2272392833; 1839030562; 4259657740;
    2763975236; 1272893353; 4139469664; 3200236656; 681279174; 3936430074;
    3572445317; 76029189; 3654602809; 3873151461; 530742520; 3299628645;
    4096336452; 1126891415; 2878612391; 4237533241; 1700485571; 2399980690;
    4293915773; 2240044497; 1873313359; 4264355552; 2734768916; 1309151649;
    4149444226; 3174756917; 718787259; 3951481745 ].

Definition md5_S : list Z :=
  [ 7; 12; 17; 22; 7; 12; 17; 22; 7; 12; 17; 22; 7; 12; 17; 22;
    5; 9; 14; 20; 5; 9; 14; 20; 5; 9; 14; 20; 5; 9; 14; 20;
    4; 11; 16; 23; 4; 11; 16; 23; 4; 11; 16; 23; 4; 11; 16; 23;
    6; 10; 15; 21; 6; 10; 15; 21; 6; 10; 15; 21; 6; 10; 15; 21 ].

Definition md5_state : Type := (Z * Z * Z * Z)%type.

Definition md5_init : md5_state := (1732584193, 4023233417, 2562383102, 271733878).

Definition md5_step (m : list Z) (st : md5_state) (i : nat) : md5_state :=
  let '(a, b, c, d) := st in
  let zi := Z.of_nat i in
  let '(f, g) :=
    match (i / 16)%nat with
    | 0%nat => (Z.lor (Z.land b c) (Z.land (not32 b) d), zi)
    | 1%nat => (Z.lor (Z.land d b) (Z.land (not32 d) c), (5 * zi + 1) mod 16)
    | 2%nat => (Z.lxor (Z.lxor b c) d, (3 * zi + 5) mod 16)
    | _ => (Z.lxor c (Z.lor b (not32 d)), (7 * zi) mod 16)
    end in
  let x := w32 (f + a + nth i md5_K 0 + nth (Z.to_nat g) m 0) in
  (d, w32 (b + rotl32 x (nth i md5_S 0)), b, c).

Definition md5_block (st : md5_state) (block : list Z) : md5_state :=
  let m := map le_word (chunks 16 4 block) in
  let '(a0, b0, c0, d0) := st in
  let '(a, b, c, d) := fold_left (md5_step m) (seq 0 64) st in
  (w32 (a0 + a), w32 (b0 + b), w32 (c0 + c), w32 (d0 + d)).

Definition md5 (msg : list Z) : list Z :=
  let padded := pad_message (le_bytes 8) msg in
  let '(a, b, c, d) :=
    fold_left md5_block (chunks (List.length padded) 64 padded) md5_init in
  le_bytes 4 a ++ le_bytes 4 b ++ le_bytes 4 c ++ le_bytes 4 d.

(** *** SHA-1 (FIPS 180-4) *)

Definition sha1_state : Type := (Z * Z * Z * Z * Z)%type.

Definition sha1_init : sha1_state :=
  (1732584193, 4023233417, 2562383102, 271733878, 3285377520).

(** The message schedule, most recent word first. *)
Definition sha1_extend (w : list Z) (_ : nat) : list Z :=
  rotl32 (Z.lxor (Z.lxor (nth 2 w 0) (nth 7 w 0))
                 (Z.lxor (nth 13 w 0) (nth 15 w 0))) 1 :: w.

Definition sha1_schedule (block : list Z) : list Z :=
  rev (fold_left sha1_extend (seq 16 64) (rev (map be_word (chunks 16 4 block)))).

Definition sha1_step (w : list Z) (st : sha1_state) (i : nat) : sha1_state :=
  let '(a, b, c, d, e) := st in
  let '(f, k) :=
    match (i / 20)%nat with
    | 0%nat => (Z.lor (Z.land b c) (Z.land (not32 b) d), 1518500249)
    | 1%nat => (Z.lxor (Z.lxor b c) d, 1859775393)
    | 2%nat => (Z.lor (Z.lor (Z.land b c) (Z.land b d)) (Z.land c d), 2400959708)
    | _ => (Z.lxor (Z.lxor b c) d, 3395469782)
    end in
  (w32 (rotl32 a 5 + f + e + k + nth i w 0), a, rotl32 b 30, c, d).

Definition sha1_block (st : sha1_state) (block : list Z) : sha1_state :=
  let w := sha1_schedule block in
  let '(a0, b0, c0, d0, e0) := st in
  let '(a, b, c, d, e) := fold_left (sha1_step w) (seq 0 80) st in
  (w32 (a0 + a), w32 (b0 + b), w32 (c0 + c), w32 (d0 + d), w32 (e0 + e)).

Definition sha1 (msg : list Z) : list Z :=
  let padded := pad_message (be_bytes 8) msg in
  let '(a, b, c, d, e) :=
    fold_left sha1_block (chunks (List.length padded) 64 padded) sha1_init in
  be_bytes 4 a ++ be_bytes 4 b ++ be_bytes 4 c ++ be_bytes 4 d ++ be_bytes 4 e.

(** *** Base64 ([Buffer.prototype.toString('base64')]) *)

Definition b64_unit (i : Z) : ascii :=
  if i <? 26 then Text.chr (65 + i)
  else if i <? 52 then Text.chr (97 + (i - 26))
  else if i <? 62 then Text.chr (48 + (i - 52))
  else if i =? 62 then "+"%char else "/"%char.

Fixpoint base64_fuel (fuel : nat) (bs : list Z) : string :=
  match fuel with
  | O => ""
  | S f =>
      match bs with
      | [] => ""
      | [a] =>
          String (b64_unit (a / 4)) (String (b64_unit ((a mod 4) * 16)) "==")
      | [a; b] =>
          String (b64_unit (a / 4))
            (String (b64_unit ((a mod 4) * 16 + b / 16))
               (String (b64_unit ((b mod 16) * 4)) "="))
      | a :: b :: c :: r =>
          String (b64_unit (a / 4))
            (String (b64_unit ((a mod 4) * 16 + b / 16))
               (String (b64_unit ((b mod 16) * 4 + c / 64))
                  (String (b64_unit (c mod 64)) (base64_fuel f r))))
      end
  end.

Definition base64 (bs : list Z) : string := base64_fuel (S (List.length bs)) bs.

(** *** Percent-encoding: [encodeURIComponent] and [querystring.escape]
    leave the same characters alone (letters, digits and [-_.!~*'()]) and
    write every other character as the [%XX] of its UTF-8 bytes. *)

Definition unreserved (a : ascii) : bool :=
  let c := Text.code a in
  ((65 <=? c) && (c <=? 90)) || ((97 <=? c) && (c <=? 122)) ||
  ((48 <=? c) && (c <=? 57)) ||
  existsb (Z.eqb c) [45; 95; 46; 33; 126; 42; 39; 40; 41].

Definition percent_unit (a : ascii) : string :=
  if unreserved a then String a ""
  else String.concat ""
         (map (fun b => String "%" (Text.hex_byte true b)) (Text.utf8_unit (Text.code a))).

Fixpoint percent_encode (s : string) : string :=
  match s with
  | EmptyString => ""
  | String a r => percent_unit a ++ percent_encode r
  end.

Definition encodeURIComponent : string -> string := percent_encode.
Definition qs_escape : string -> string := percent_encode.

End Digest.


(* ================================================================== *)
(** ** JavaScript values and objects                                   *)
(* ================================================================== *)

Module JS.

(** Decoded JSON replies and the scalars stored in a field mapping. *)
#[warnings="-register-all"]
Inductive value : Type :=
  | VUndef
  | VNull
  | VBool (b : bool)
  | VNum (n : Z)
  | VStr (s : string)
  | VObj (fields : list (string * value))
  | VArr (items : list value).

(** An object: its own properties, in the order in which [Object.keys]
    and [Object.values] enumerate them. *)
Definition obj : Type := list (string * value).

(** [ToBoolean]. *)
Definition truthy (v : value) : bool :=
  match v with
  | VUndef | VNull => false
  | VBool b => b
  | VNum n => negb (n =? 0)
  | VStr s => negb (s =? "")%string
  | VObj _ | VArr _ => true
  end.

(** [ToString]; an array joins its elements with a comma, writing
    [undefined] and [null] elements as nothing. *)
Fixpoint to_str (v : value) : string :=
  match v with
  | VUndef => "undefined"
  | VNull => "null"
  | VBool true => "true"
  | VBool false => "false"
  | VNum n => Text.decimal n
  | VStr s => s
  | VObj _ => "[object Object]"
  | VArr items =>
      let elem x := match x with VUndef | VNull => "" | _ => to_str x end in
      (fix go (l : list value) : string :=
         match l with
         | [] => ""
         | [x] => elem x
         | x :: r => elem x ++ "," ++ go r
         end) items
  end.

(** The text [Array.prototype.join] contributes for one element. *)
Definition join_item (v : value) : string :=
  match v with
  | VUndef | VNull => ""
  | _ => to_str v
  end.

(** The [message] of [new Error(v)]. *)
Definition error_message (v : value) : string :=
  match v with
  | VUndef => ""
  | _ => to_str v
  end.

(** [v === 200]. *)
Definition strict_eq_num (v : value) (n : Z) : bool :=
  match v with
  | VNum m => m =? n
  | _ => false
  end.

(** [v == n] for a number: a string counts by its decimal digits (other
    spellings of numbers are not modelled), a boolean as 0 or 1. *)
Definition loose_eq_num (v : value) (n : Z) : bool :=
  match v with
  | VNum m => m =? n
  | VStr s => negb (s =? "")%string && Text.all_units Text.is_digit s
              && (Text.digits_value s =? n)
  | VBool b => (if b then 1 else 0) =? n
  | _ => false
  end.

(** [v == s] for a string [s] that is not the text of a number (the only
    use is [s = 'success']), so that numbers and booleans never equal it. *)
Definition loose_eq_word (v : value) (s : string) : bool :=
  match v with
  | VStr x => (x =? s)%string
  | VObj _ | VArr _ => (to_str v =? s)%string
  | _ => false
  end.

Fixpoint lookup (o : obj) (k : string) : option value :=
  match o with
  | [] => None
  | (k', v) :: r => if (k' =? k)%string then Some v else lookup r k
  end.

(** [o[k]]. *)
Definition get (o : obj) (k : string) : value :=
  match lookup o k with
  | Some v => v
  | None => VUndef
  end.

(** [k in o]. *)
Definition has (o : obj) (k : string) : bool :=
  match lookup o k with
  | Some _ => true
  | None => false
  end.

(** The value of an existing property changes where it stands. *)
Fixpoint overwrite (o : obj) (k : string) (v : value) : obj :=
  match o with
  | [] => []
  | (k', v') :: r =>
      if (k' =? k)%string then (k', v) :: r else (k', v') :: overwrite r k v
  end.

(** A new array index goes after the smaller array indices. *)
Fixpoint insert_index (o : obj) (k : string) (v : value) : obj :=
  match o with
  | [] => [(k, v)]
  | (k', v') :: r =>
      if Text.is_array_index k' && (Text.digits_value k' <? Text.digits_value k)
      then (k', v') :: insert_index r k v
      else (k, v) :: o
  end.

(** [o[k] = v].  The list is kept in the order in which [Object.keys] and
    [Object.values] enumerate the properties: array indices first, in
    ascending order, then the other keys in the order of their creation.
    An existing property keeps its place. *)
Definition set (o : obj) (k : string) (v : value) : obj :=
  if has o k then overwrite o k v
  else if Text.is_array_index k then insert_index o k v
  else (o ++ [(k, v)])%list.

Definition keys (o : obj) : list string := map fst o.
Definition values (o : obj) : list value := map snd o.

(** The object an object literal [{k1: v1, ...}] evaluates to. *)
Definition literal (fields : list (string * value)) : obj :=
  fold_left (fun o kv => set o (fst kv) (snd kv)) fields [].

(** [Array.prototype.sort()] on strings: ascending by code units.  The
    result of sorting pairwise distinct keys does not depend on the
    algorithm; insertion sort computes it. *)
Fixpoint sort_insert (k : string) (l : list string) : list string :=
  match l with
  | [] => [k]
  | x :: r => if String.leb k x then k :: l else x :: sort_insert k r
  end.

Definition sort (l : list string) : list string := fold_right sort_insert [] l.

(** [querystring.stringify]: [stringifyPrimitive] of a value, then one
    escaped [key=value] pair per property (one per element for an array),
    joined with [&]. *)
Definition stringifyPrimitive (v : value) : string :=
  match v with
  | VStr s => s
  | VNum n => Text.decimal n
  | VBool true => "true"
  | VBool false => "false"
  | _ => ""
  end.

Definition qs_field (kv : string * value) : list string :=
  let ks := Digest.qs_escape (fst kv) ++ "=" in
  match snd kv with
  | VArr items => map (fun x => ks ++ Digest.qs_escape (stringifyPrimitive x)) items
  | v => [ks ++ Digest.qs_escape (stringifyPrimitive v)]
  end.

Definition qs_stringify (o : obj) : string :=
  Text.join "&" (flat_map qs_field o).

End JS.

(* ================================================================== *)
(** ** [Date]: time values and the proleptic Gregorian calendar        *)
(* ================================================================== *)

Module Calendar.

Definition msPerDay : Z := 86400000.
Definition msPerMinute : Z := 60000.

Record civil : Type := mkCivil {
  year : Z; month : Z; day : Z; hour : Z; minute : Z; second : Z; milli : Z
}.

(** Day number (days since 1970-01-01) of a calendar date; [month] counts
    from 1 and [day] may overflow the month, as in [MakeDay]. *)
Definition days_from_civil (y m d : Z) : Z :=
  let y' := if m <=? 2 then y - 1 else y in
  let era := y' / 400 in
  let yoe := y' - era * 400 in
  let mp := (m + 9) mod 12 in
  let doy := (153 * mp + 2) / 5 + d - 1 in
  let doe := yoe * 365 + yoe / 4 - yoe / 100 + doy in
  era * 146097 + doe - 719468.

(** The inverse: year, month (from 1) and day of the month of a day number. *)
Definition civil_from_days (z : Z) : Z * Z * Z :=
  let z' := z + 719468 in
  let era := z' / 146097 in
  let doe := z' - era * 146097 in
  let yoe := (doe - doe / 1460 + doe / 36524 - doe / 146096) / 365 in
  let doy := doe - (365 * yoe + yoe / 4 - yoe / 100) in
  let mp := (5 * doy + 2) / 153 in
  let d := doy - (153 * mp + 2) / 5 + 1 in
  let m := if mp <? 10 then mp + 3 else mp - 9 in
  let y := yoe + era * 400 in
  (if m <=? 2 then y + 1 else y, m, d).

(** The UTC fields of a time value (milliseconds since the epoch). *)
Definition civil_of_time (t : Z) : civil :=
  let '(y, m, d) := civil_from_days (t / msPerDay) in
  let r := t mod msPerDay in
  mkCivil y m d (r / 3600000) ((r / 60000) mod 60) ((r / 1000) mod 60) (r mod 1000).

(** [MakeDate(MakeDay(y, m, d), MakeTime(h, mi, s, ms))]. *)
Definition time_of_civil (c : civil) : Z :=
  days_from_civil (year c) (month c) (day c) * msPerDay
  + hour c * 3600000 + minute c * 60000 + second c * 1000 + milli c.

(** A [Date] object holds a time value, or none when it is an Invalid Date;
    time values are clipped to +-8.64e15 ms. *)
Definition date : Type := option Z.

Definition time_clip (t : Z) : date :=
  if Z.abs t <=? 8640000000000000 then Some t else None.

(** [Date.prototype.toISOString] of a valid time value:
    [YYYY-MM-DDTHH:mm:ss.sssZ], the year on six signed digits outside
    0..9999. *)
Definition iso_year (y : Z) : string :=
  if (0 <=? y) && (y <=? 9999) then Text.pad 4 y
  else String (if y <? 0 then "-"%char else "+"%char) (Text.pad 6 (Z.abs y)).

Definition toISOString (t : Z) : string :=
  let c := civil_of_time t in
  iso_year (year c) ++ "-" ++ Text.pad 2 (month c) ++ "-" ++ Text.pad 2 (day c)
  ++ "T" ++ Text.pad 2 (hour c) ++ ":" ++ Text.pad 2 (minute c) ++ ":"
  ++ Text.pad 2 (second c) ++ "." ++ Text.pad 3 (milli c) ++ "Z".

(** [.replace(/-|:|T/g, '')]. *)
Definition strip_separators (s : string) : string :=
  Text.filter_units
    (fun a => negb (existsb (Ascii.eqb a) ["-"; ":"; "T"]%char)) s.

(** Reading of a date-time text of the shape [YYYY-MM-DD HH:mm:ss] the way
    V8 reads it: the fields must be digits, month 1..12, day 1..31, hour
    0..23 (or 24:00:00), minute and second 0..59; the day may run past the
    end of the month.  Any other text is an Invalid Date. *)
Definition parse_fields (s : string) : option civil :=
  if negb (Nat.eqb (String.length s) 19) then None
  else if negb ((substring 4 1 s =? "-") && (substring 7 1 s =? "-")
                && (substring 10 1 s =? " ") && (substring 13 1 s =? ":")
                && (substring 16 1 s =? ":"))%string then None
  else
    match Text.number_of (substring 0 4 s), Text.number_of (substring 5 2 s),
          Text.number_of (substring 8 2 s), Text.number_of (substring 11 2 s),
          Text.number_of (substring 14 2 s), Text.number_of (substring 17 2 s) with
    | Some y, Some m, Some d, Some h, Some mi, Some sec =>
        if (1 <=? m) && (m <=? 12) && (1 <=? d) && (d <=? 31)
           && (((h <=? 23) && (mi <=? 59) && (sec <=? 59))
               || ((h =? 24) && (mi =? 0) && (sec =? 0)))
        then Some (mkCivil y m d h mi sec 0)
        else None
    | _, _, _, _, _, _ => None
    end.

End Calendar.

(* ================================================================== *)
(** ** The surroundings of the client, and the effects of a call       *)
(* ================================================================== *)

Module Env.

Import JS.

Inductive ContentType : Type :=
  | FormUrlencoded   (* 'application/x-www-form-urlencoded' *)
  | ApplicationJson. (* 'application/json' *)

Definition content_type_name (ct : ContentType) : string :=
  match ct with
  | FormUrlencoded => "application/x-www-form-urlencoded"
  | ApplicationJson => "application/json"
  end.

(** What axios puts on the wire: the object itself (serialised as JSON by
    axios) or the text [qs.stringify] made of it. *)
Inductive payload : Type :=
  | JsonBody (o : obj)
  | FormBody (text : string).

(** One POST handed to axios.  [data] is the object [curlPost] received,
    as it was at that moment. *)
Record request : Type := mkRequest {
  url : string;
  headers : list (string * string);
  data : obj;
  body : payload
}.

(** What comes back: no reply at all, or an HTTP status with the decoded
    body. *)
Inductive http_outcome : Type :=
  | NetworkFailure (reason : string)
  | HttpResponse (status : Z) (reply : value).

(** The throw statement an error comes from.  The class only ever throws
    [Error] objects told apart by their message; the names are those the
    specification gives to the sites.
    - [ConfigurationError]: the constructor, the setters, [checkCommunityNo];
    - [MissingArgument]: ['mobile cannot be empty.'];
    - [FormatError]: ['time format error.'];
    - [TransportError]: axios rejected, or the HTTP status is not 200;
    - [ServerError]: the reply's [status] is not 200;
    - [UnexpectedResponseError]: the expected field of the reply is missing;
    - [EncryptionError]: ['failed to generate link.'];
    - [TypeError], [RangeError], [SystemError]: raised by the runtime
      (property of [undefined], invalid time value or zone, missing file). *)
Inductive error_site : Type :=
  | ConfigurationError
  | MissingArgument
  | FormatError
  | TransportError
  | ServerError
  | UnexpectedResponseError
  | EncryptionError
  | TypeError
  | RangeError
  | SystemError.

Record error : Type := mkError { site : error_site; message : string }.

Inductive result (A : Type) : Type :=
  | Ok (a : A)
  | Throw (e : error).
Arguments Ok {A} a.
Arguments Throw {A} e.

Record world : Type := mkWorld {
  (** [Date.now()], milliseconds since the epoch. *)
  now : Z;
  (** [Math.floor(Math.random() * 100000000)]. *)
  random : Z;
  (** Minutes east of UTC of the time zone the process runs in, and of
      each named zone the runtime knows (zones are taken at a fixed
      offset, as Asia/Shanghai is). *)
  local_offset : Z;
  zone_offset : string -> option Z;
  (** [Intl.DateTimeFormat().resolvedOptions().timeZone]. *)
  resolved_zone : string;
  (** [new URL(s).hostname], or nothing when [new URL] throws. *)
  url_hostname : string -> option string;
  (** The contents of [resources/public.pem], when it can be read. *)
  public_pem : option string;
  (** [crypto.publicEncrypt(crypto.createPublicKey(key), bytes)], or
      nothing when either throws. *)
  rsa_encrypt : string -> list Z -> option (list Z);
  (** The remote service. *)
  server : request -> http_outcome
}.

(** Objects live in a store and are passed by reference; [sent] is the log
    of the requests issued so far, oldest first. *)
Definition ref : Type := nat.

Record state : Type := mkState {
  heap : list obj;
  sent : list request
}.

Definition empty_state : state := mkState [] [].

Definition M (A : Type) : Type := world -> state -> result A * state.

Definition ret {A} (a : A) : M A := fun _ s => (Ok a, s).

Definition bind {A B} (m : M A) (k : A -> M B) : M B :=
  fun w s =>
    match m w s with
    | (Ok a, s') => k a w s'
    | (Throw e, s') => (Throw e, s')
    end.

Definition throw {A} (k : error_site) (msg : string) : M A :=
  fun _ s => (Throw (mkError k msg), s).

(** [try { m } catch (error) { handler error }]. *)
Definition try_catch {A} (m : M A) (handler : error -> M A) : M A :=
  fun w s =>
    match m w s with
    | (Ok a, s') => (Ok a, s')
    | (Throw e, s') => handler e w s'
    end.

Definition ask : M world := fun w s => (Ok w, s).

Definition new_object (fields : list (string * value)) : M ref :=
  fun _ s =>
    (Ok (List.length (heap s)), mkState (heap s ++ [literal fields]) (sent s)).

Definition read_object (r : ref) : M obj :=
  fun _ s => (Ok (nth r (heap s) []), s).

Fixpoint update {A} (l : list A) (i : nat) (x : A) : list A :=
  match l, i with
  | [], _ => []
  | _ :: r, O => x :: r
  | y :: r, S j => y :: update r j x
  end.

(** [r[k] = v]. *)
Definition set_prop (r : ref) (k : string) (v : value) : M unit :=
  fun _ s =>
    (Ok tt, mkState (update (heap s) r (set (nth r (heap s) []) k v)) (sent s)).

(** [axios(config)]: the request goes out and the server answers. *)
Definition post (rq : request) : M http_outcome :=
  fun w s => (Ok (server w rq), mkState (heap s) (sent s ++ [rq])).

(** [v.k] on a value: a [TypeError] on [undefined] and [null], the field
    on an object, [undefined] otherwise. *)
Definition get_field (v : value) (k : string) : M value :=
  match v with
  | VUndef => throw TypeError ("Cannot read properties of undefined (reading '" ++ k ++ "')")
  | VNull => throw TypeError ("Cannot read properties of null (reading '" ++ k ++ "')")
  | VObj fields => ret (get fields k)
  | _ => ret VUndef
  end.

End Env.

Declare Scope js_scope.
Delimit Scope js_scope with js.
Notation "x <- m ;; k" := (Env.bind m (fun x => k))
  (at level 61, m at next level, right associativity) : js_scope.
Notation "m ;; k" := (Env.bind m (fun _ => k))
  (at level 61, right associativity) : js_scope.

(* ================================================================== *)
(** ** The [Uclbrt] class                                              *)
(* ================================================================== *)

Module Uclbrt.

Import JS Env.
Local Open Scope js_scope.

Definition LIB_VERSION : string := "1.0.7".

(** The fields of the interface [UserConfig]; an optional field that the
    caller leaves out is [None]. *)
Record UserConfig : Type := mkUserConfig {
  cfg_accountSid : string;
  cfg_authToken : string;
  cfg_apiHost : option string;
  cfg_cardHost : option string;
  cfg_debug : option bool
}.

(** The fields of the class.  [communityNo] is declared without a value:
    it is [undefined] ([None]) until it is assigned. *)
Record client : Type := mkClient {
  accountSid : string;
  authToken : string;
  apiHost : string;
  cardHost : string;
  debug : bool;
  communityTimezone : string;
  communityNo : option Z;
  localTimezone : string;
  publicKey : string
}.

Definition or_default (given : option string) (default : string) : string :=
  match given with
  | Some s => s
  | None => default
  end.

(** [s || d]. *)
Definition or_else (s d : string) : string := if (s =? "")%string then d else s.

Definition err {A} (k : error_site) (msg : string) : result A :=
  Throw (mkError k msg).

(** [new URL(s)] followed by the test of its [hostname]. *)
Definition check_host (w : world) (s what : string) : result unit :=
  match url_hostname w s with
  | None => err TypeError "Invalid URL"
  | Some h =>
      if (h =? "")%string then err ConfigurationError (what ++ " is not a valid domain.")
      else Ok tt
  end.

Definition constructor (w : world) (config : UserConfig) : result client :=
  let merged_apiHost := or_default (cfg_apiHost config) "https://api.uclbrt.com/" in
  let merged_cardHost := or_default (cfg_cardHost config) "http://cz.uclbrt.com/" in
  if (cfg_accountSid config =? "")%string
  then err ConfigurationError "accountSid cannot be empty."
  else if (cfg_authToken config =? "")%string
  then err ConfigurationError "authToken cannot be empty."
  else
    match check_host w merged_apiHost "apiHost" with
    | Throw e => Throw e
    | Ok _ =>
        match check_host w merged_cardHost "cardHost" with
        | Throw e => Throw e
        | Ok _ =>
            match public_pem w with
            | None => err SystemError "ENOENT: no such file or directory"
            | Some pem =>
                Ok {| accountSid := cfg_accountSid config;
                      authToken := cfg_authToken config;
                      apiHost := or_else merged_apiHost "https://api.uclbrt.com/";
                      cardHost := or_else merged_cardHost "http://cz.uclbrt.com/";
                      debug := match cfg_debug config with Some b => b | None => false end;
                      communityTimezone := "Asia/Shanghai";
                      communityNo := None;
                      localTimezone := resolved_zone w;
                      publicKey := pem |}
            end
        end
    end.

Definition with_communityNo (c : client) (n : option Z) : client :=
  {| accountSid := accountSid c; authToken := authToken c; apiHost := apiHost c;
     cardHost := cardHost c; debug := debug c;
     communityTimezone := communityTimezone c; communityNo := n;
     localTimezone := localTimezone c; publicKey := publicKey c |}.

Definition with_communityTimezone (c : client) (tz : string) : client :=
  {| accountSid := accountSid c; authToken := authToken c; apiHost := apiHost c;
     cardHost := cardHost c; debug := debug c;
     communityTimezone := tz; communityNo := communityNo c;
     localTimezone := localTimezone c; publicKey := publicKey c |}.

Definition with_localTimezone (c : client) (tz : string) : client :=
  {| accountSid := accountSid c; authToken := authToken c; apiHost := apiHost c;
     cardHost := cardHost c; debug := debug c;
     communityTimezone := communityTimezone c; communityNo := communityNo c;
     localTimezone := tz; publicKey := publicKey c |}.

Definition setCommunityNo (c : client) (n : Z) : result client :=
  if n =? 0 then err ConfigurationError "communityNo cannot be empty."
  else Ok (with_communityNo c (Some n)).

Definition setCommunityTimezone (c : client) (tz : string) : result client :=
  if (tz =? "")%string then err ConfigurationError "communityTimezone cannot be empty."
  else Ok (with_communityTimezone c tz).

Definition setLocalTimezone (c : client) (tz : string) : result client :=
  if (tz =? "")%string then err ConfigurationError "localTimezone cannot be empty."
  else Ok (with_localTimezone c tz).

(** *** Canonical encoder *)

Definition objectToQuery (data : obj) : string :=
  let keys := sort (keys data) in
  let sortedData := map (fun key => key ++ "=" ++ to_str (get data key)) keys in
  Text.join "&" sortedData.

(** *** Signature engine *)

Definition getSig (c : client) (batch : string) : string :=
  Text.toUpperCase
    (Text.hex (Digest.md5 (Text.utf8 (accountSid c ++ authToken c ++ batch)))).

Definition getSig2 (c : client) (data : ref) : M string :=
  o <- read_object data ;;
  let imploded := Text.join "" (map join_item (values o)) in
  ret (Text.hex (Digest.md5 (Text.utf8 (imploded ++ authToken c)))).

Definition getSig3 (c : client) (data : ref) : M string :=
  set_prop data "authToken" (VStr (authToken c)) ;;
  o <- read_object data ;;
  let query := objectToQuery o in
  ret (Text.hex (Digest.sha1 (Text.utf8 query))).

Definition getAuth (c : client) (batch : string) : string :=
  Digest.base64 (Text.utf8 (accountSid c ++ ":" ++ batch)).

(** *** Payload encryptor *)

Definition publicEncrypt (c : client) (text : string) : M string :=
  w <- ask ;;
  match rsa_encrypt w (publicKey c) (Text.utf8 text) with
  | Some encrypted => ret (Digest.base64 encrypted)
  | None => throw EncryptionError "error:public encryption failed"
  end.

(** *** Time normaliser *)

Definition is_line_terminator (a : ascii) : bool :=
  (Text.code a =? 10) || (Text.code a =? 13).

(** [timeStr.match(/.{2}/g)]: the successive non-overlapping pairs of
    characters other than line terminators, scanning from the left and
    moving one character on where no pair starts.  Below 256 the line
    terminators are LF and CR. *)
Fixpoint match_pairs (s : string) : list string :=
  match s with
  | String a ((String b r) as tl) =>
      if is_line_terminator a || is_line_terminator b then match_pairs tl
      else String a (String b "") :: match_pairs r
  | _ => []
  end.

(** [new Date(text)] for a text without zone: local time of the process. *)
Definition Date_local (w : world) (text : string) : Calendar.date :=
  match Calendar.parse_fields text with
  | Some f =>
      Calendar.time_clip (Calendar.time_of_civil f - local_offset w * Calendar.msPerMinute)
  | None => None
  end.

(** [new Date(dt.toLocaleString('en-US', { timeZone: tz }))]: the wall
    clock of [dt] in zone [tz], to the second, read back as a local time of
    the process.  An unknown zone is a [RangeError]; an Invalid Date prints
    as ["Invalid Date"], which reads back as an Invalid Date. *)
Definition Date_relocated (tz : string) (dt : Calendar.date) : M Calendar.date :=
  w <- ask ;;
  match zone_offset w tz with
  | None => throw RangeError ("Invalid time zone specified: " ++ tz)
  | Some off =>
      match dt with
      | None => ret None
      | Some t =>
          let wall := Calendar.civil_of_time (t + off * Calendar.msPerMinute) in
          let shown := Calendar.mkCivil (Calendar.year wall) (Calendar.month wall)
                         (Calendar.day wall) (Calendar.hour wall)
                         (Calendar.minute wall) (Calendar.second wall) 0 in
          ret (Calendar.time_clip
                 (Calendar.time_of_civil shown - local_offset w * Calendar.msPerMinute))
      end
  end.

Definition Date_toISOString (dt : Calendar.date) : M string :=
  match dt with
  | Some t => ret (Calendar.toISOString t)
  | None => throw RangeError "Invalid time value"
  end.

Definition toCommunityTime (c : client) (timeStr : string) : M string :=
  if (timeStr =? "")%string then ret ""
  else if (communityTimezone c =? localTimezone c)%string then ret timeStr
  else
    let t := match_pairs timeStr in
    if negb (Nat.eqb (List.length t) 5) then throw FormatError "time format error."
    else
      w <- ask ;;
      let dt := Date_local w ("20" ++ nth 0 t "" ++ "-" ++ nth 1 t "" ++ "-" ++ nth 2 t ""
                              ++ " " ++ nth 3 t "" ++ ":" ++ nth 4 t "" ++ ":00") in
      dt2 <- Date_relocated (communityTimezone c) dt ;;
      iso <- Date_toISOString dt2 ;;
      ret (Text.slice (Calendar.strip_separators iso) 2 12).

(** *** Preconditions *)

Definition checkCommunityNo (c : client) : M unit :=
  match communityNo c with
  | Some n => if n =? 0 then throw ConfigurationError "communityNo cannot be empty." else ret tt
  | None => throw ConfigurationError "communityNo cannot be empty."
  end.

(** [this.communityNo.toString()]. *)
Definition communityNo_toString (c : client) : M string :=
  match communityNo c with
  | Some n => ret (Text.decimal n)
  | None => throw TypeError "Cannot read properties of undefined (reading 'toString')"
  end.

(** [new Date().toISOString().replace(/-|:|T/g, '').slice(0, 14)]. *)
Definition new_batch : M string :=
  w <- ask ;;
  ret (Text.slice (Calendar.strip_separators (Calendar.toISOString (now w))) 0 14).

(** [Math.floor(Date.now() / 1000)]. *)
Definition unix_seconds : M Z := w <- ask ;; ret (now w / 1000).

(** *** Transport and response validation *)

(** [axios(config)] with its default [validateStatus]: a status outside
    200..299 and a network failure reject; the rejection carries the reply
    ([error.response.data]) if there was one, and a message. *)
Inductive axios_result : Type :=
  | Resolved (status : Z) (reply : value)
  | Rejected (response_data : option value) (msg : string).

Definition axios (rq : request) : M axios_result :=
  out <- post rq ;;
  match out with
  | NetworkFailure reason => ret (Rejected None reason)
  | HttpResponse status reply =>
      if (200 <=? status) && (status <? 300) then ret (Resolved status reply)
      else ret (Rejected (Some reply)
                  ("Request failed with status code " ++ Text.decimal status))
  end.

(** The [catch] clause of [curlPost] on a rejection of axios:
    [throw new Error(error.response?.data || error.message)]. *)
Definition rethrow {A} (k : error_site) (response_data : option value) (msg : string) : M A :=
  match response_data with
  | Some d => if truthy d then throw k (error_message d) else throw k msg
  | None => throw k msg
  end.

(** [v.k] on a value that is neither [undefined] nor [null]. *)
Definition prop (v : value) (k : string) : value :=
  match v with
  | VObj fields => get fields k
  | _ => VUndef
  end.

(** The [config] object of [curlPost]: headers, and the body in the
    encoding of the content type. *)
Definition axios_config (url auth : string) (o : obj) (contentType : ContentType) : request :=
  let headers :=
    ([("Accept", "application/json");
      ("Content-Type", content_type_name contentType);
      ("User-Agent", ("uclbrt-nodejs/" ++ LIB_VERSION)%string)]
     ++ (if (auth =? "")%string then [] else [("Authorization", auth)]))%list in
  mkRequest url headers o
    (match contentType with
     | ApplicationJson => JsonBody o
     | FormUrlencoded => FormBody (qs_stringify o)
     end).

(** [curlPost].  The [catch] clause also receives the errors the [try]
    block throws itself; they carry no [response], so it throws their
    message again.  The calls of [log] are left out (debug output has no
    part in what is returned, thrown or sent), and so is the test of
    [crypto.createHash], which Node always provides. *)
Definition curlPost (c : client) (url auth : string) (data : ref)
  (contentType : ContentType) : M value :=
  o <- read_object data ;;
  let config := axios_config url auth o contentType in
  try_catch
    (response <- axios config ;;
     match response with
     | Rejected response_data msg => rethrow TransportError response_data msg
     | Resolved status result =>
         if negb (status =? 200) then throw TransportError (error_message result)
         else if negb (truthy result) || negb (strict_eq_num (prop result "status") 200)
         then (info <- get_field result "info" ;; throw ServerError (error_message info))
         else ret result
     end)
    (fun error => throw (site error) (message error)).

(** *** Operations *)

(** The check that closes most operations: the field must be truthy. *)
Definition expect_field (result : value) (field msg : string) : M value :=
  v <- get_field result field ;;
  if negb (truthy v) then throw UnexpectedResponseError msg else ret v.

(** [if (!result.info || result.info != 'success') throw ...]. *)
Definition expect_success (result : value) : M unit :=
  info <- get_field result "info" ;;
  if negb (truthy info) || negb (loose_eq_word info "success")
  then throw UnexpectedResponseError "server returns an unexpected value."
  else ret tt.

Definition cardNo_missing : string :=
  "the cardNo is not found in the return result of the server.".
Definition baseImg_missing : string :=
  "the baseImg is not found in the return result of the server.".
Definition bleStr_missing : string :=
  "the bleStr is not found in the return result of the server.".
Definition cipher_missing : string :=
  "the cipher is not found in the return result of the server.".
Definition unexpected_value : string := "server returns an unexpected value.".

Definition create (c : client)
  (mobile areaCode roomNo floorNo buildNo startTime endTime : string)
  (sendSms cardType times opentype : Z) : M value :=
  checkCommunityNo c ;;
  batch <- new_batch ;;
  let sig := getSig c batch in
  let url := (apiHost c ++ "?c=Qrcode&a=getLink&sig=" ++ sig)%string in
  let auth := getAuth c batch in
  communityNo' <- communityNo_toString c ;;
  startTime' <- toCommunityTime c startTime ;;
  endTime' <- toCommunityTime c endTime ;;
  data <- new_object
    [("mobile", VStr mobile); ("areaCode", VStr areaCode); ("roomNo", VStr roomNo);
     ("floorNo", VStr floorNo); ("buildNo", VStr buildNo);
     ("communityNo", VStr communityNo'); ("startTime", VStr startTime');
     ("endTime", VStr endTime'); ("sendSms", VNum sendSms);
     ("cardType", VNum cardType); ("times", VNum times); ("opentype", VNum opentype)] ;;
  result <- curlPost c url auth data ApplicationJson ;;
  expect_field result "cardNo" cardNo_missing.

Definition createRoomKey (c : client)
  (mobile areaCode roomNo floorNo buildNo startTime endTime : string)
  (sendSms times : Z) : M value :=
  create c mobile areaCode roomNo floorNo buildNo startTime endTime sendSms 0 times 0.

Definition createFloorKey (c : client)
  (mobile areaCode floorNo buildNo startTime endTime : string) (sendSms : Z) : M value :=
  create c mobile areaCode "" floorNo buildNo startTime endTime sendSms 1 0 0.

Definition createBuildingKey (c : client)
  (mobile areaCode buildNo startTime endTime : string) (sendSms : Z) : M value :=
  create c mobile areaCode "" "" buildNo startTime endTime sendSms 2 0 0.

Definition createRoomLostKey (c : client)
  (mobile areaCode roomNo floorNo buildNo startTime endTime : string) : M value :=
  checkCommunityNo c ;;
  batch <- new_batch ;;
  let sig := getSig c batch in
  let url := (apiHost c ++ "?c=Qrcode&a=getLink&sig=" ++ sig)%string in
  let auth := getAuth c batch in
  communityNo' <- communityNo_toString c ;;
  startTime' <- toCommunityTime c startTime ;;
  endTime' <- toCommunityTime c endTime ;;
  data <- new_object
    [("mobile", VStr mobile); ("areaCode", VStr areaCode); ("roomNo", VStr roomNo);
     ("floorNo", VStr floorNo); ("buildNo", VStr buildNo);
     ("communityNo", VStr communityNo'); ("startTime", VStr startTime');
     ("endTime", VStr endTime'); ("cardType", VNum 0); ("times", VNum 0);
     ("isLost", VNum 1)] ;;
  result <- curlPost c url auth data ApplicationJson ;;
  expect_field result "cardNo" cardNo_missing.

Definition generateQRPRoomCipher (c : client)
  (mobile areaCode roomNo floorNo buildNo startTime endTime : string)
  (cipherType : Z) : M value :=
  checkCommunityNo c ;;
  batch <- new_batch ;;
  let sig := getSig c batch in
  let url := (apiHost c ++ "?c=Qrcode&a=getLink&sig=" ++ sig)%string in
  let auth := getAuth c batch in
  startTimeFull <- toCommunityTime c startTime ;;
  endTimeFull <- toCommunityTime c endTime ;;
  let startTimeHour := (Text.slice startTimeFull 0 (-2) ++ "00")%string in
  let endTimeHour := (Text.slice endTimeFull 0 (-2) ++ "00")%string in
  communityNo' <- communityNo_toString c ;;
  data <- new_object
    [("mobile", VStr mobile); ("areaCode", VStr areaCode); ("roomNo", VStr roomNo);
     ("floorNo", VStr floorNo); ("buildNo", VStr buildNo);
     ("communityNo", VStr communityNo'); ("startTime", VStr startTimeHour);
     ("endTime", VStr endTimeHour); ("cipherType", VNum cipherType)] ;;
  result <- curlPost c url auth data ApplicationJson ;;
  expect_field result "cardNo" cardNo_missing.

Definition reportCardLost (c : client) (cardNo : string) (wholeRoom : bool) : M value :=
  checkCommunityNo c ;;
  batch <- new_batch ;;
  let sig := getSig c batch in
  let url := (apiHost c ++ "?c=Qrcode&a=reportLost&sig=" ++ sig)%string in
  let auth := getAuth c batch in
  data <- new_object
    [("cardNo", VStr cardNo); ("wholeRoom", VNum (if wholeRoom then 1 else 0))] ;;
  result <- curlPost c url auth data ApplicationJson ;;
  status <- get_field result "status" ;;
  if negb (truthy status) || negb (loose_eq_num status 200)
  then (info <- get_field result "info" ;; throw ServerError (error_message info))
  else ret (VBool true).

Definition getLink (c : client) (mobile areaCode cardNo : string) (cardType : Z) : M value :=
  if (mobile =? "")%string then throw MissingArgument "mobile cannot be empty."
  else
    checkCommunityNo c ;;
    communityNo' <- communityNo_toString c ;;
    time <- unix_seconds ;;
    data <- new_object
      [("id", VStr (accountSid c)); ("token", VStr (authToken c));
       ("communityNo", VStr communityNo'); ("time", VNum time);
       ("mobile", VStr mobile); ("areaCode", VStr areaCode);
       ("cardNo", VStr cardNo); ("cardType", VNum cardType)] ;;
    try_catch
      (o <- read_object data ;;
       let query := objectToQuery o in
       encrypted <- publicEncrypt c query ;;
       let link :=
         (cardHost c ++ "apiLogin/?data=" ++ Digest.encodeURIComponent encrypted)%string in
       ret (VStr link))
      (fun _ => throw EncryptionError "failed to generate link.").

Definition getRoomKeyLink (c : client) (mobile areaCode cardNo : string) : M value :=
  getLink c mobile areaCode cardNo 0.

Definition getFloorKeyLink (c : client) (mobile areaCode cardNo : string) : M value :=
  getLink c mobile areaCode cardNo 1.

Definition getBuildingKeyLink (c : client) (mobile areaCode cardNo : string) : M value :=
  getLink c mobile areaCode cardNo 2.

Definition getShare (c : client) (mobile areaCode roomFlag : string) (cardType : Z)
  (openEndTime : string) (lockType resultType : Z) : M value :=
  checkCommunityNo c ;;
  batch <- new_batch ;;
  let sig := getSig c batch in
  let url := (apiHost c ++ "?c=Qrcode&a=getCard&sig=" ++ sig)%string in
  let auth := getAuth c batch in
  communityNo' <- communityNo_toString c ;;
  openEndTime' <- toCommunityTime c openEndTime ;;
  data <- new_object
    [("mobile", VStr mobile); ("areaCode", VStr areaCode);
     ("communityNo", VStr communityNo'); ("roomFlag", VStr roomFlag);
     ("cardType", VNum cardType); ("lockType", VNum lockType);
     ("resultType", VNum resultType); ("openEndTime", VStr openEndTime')] ;;
  curlPost c url auth data ApplicationJson.

Definition getRoomKeyImage (c : client) (mobile areaCode cardNo openEndTime : string)
  (lockType : Z) : M value :=
  result <- getShare c mobile areaCode cardNo 0 openEndTime lockType 1 ;;
  expect_field result "baseImg" baseImg_missing.

Definition getFloorKeyImage (c : client) (mobile areaCode cardNo openEndTime : string)
  (lockType : Z) : M value :=
  result <- getShare c mobile areaCode cardNo 1 openEndTime lockType 1 ;;
  expect_field result "baseImg" baseImg_missing.

Definition getBuildingKeyImage (c : client) (mobile areaCode cardNo openEndTime : string)
  (lockType : Z) : M value :=
  result <- getShare c mobile areaCode cardNo 2 openEndTime lockType 1 ;;
  expect_field result "baseImg" baseImg_missing.

Definition getRoomKeyString (c : client) (mobile areaCode mac : string) : M value :=
  result <- getShare c mobile areaCode mac 0 "" 0 2 ;;
  expect_field result "bleStr" bleStr_missing.

Definition getQRPRoomCipher (c : client) (mobile areaCode cardNo : string) : M value :=
  result <- getShare c mobile areaCode cardNo 0 "" 0 4 ;;
  expect_field result "cipher" cipher_missing.

Definition cancel (c : client) (cardNo : string) (cardType : Z) : M value :=
  checkCommunityNo c ;;
  batch <- new_batch ;;
  let sig := getSig c batch in
  let url := (apiHost c ++ "?c=Qrcode&a=cancelCard&sig=" ++ sig)%string in
  let auth := getAuth c batch in
  data <- new_object [("cardNo", VStr cardNo); ("cardType", VNum cardType)] ;;
  result <- curlPost c url auth data ApplicationJson ;;
  expect_success result ;;
  ret (VBool true).

Definition cancelRoomKey (c : client) (cardNo : string) : M value := cancel c cardNo 0.
Definition cancelFloorKey (c : client) (cardNo : string) : M value := cancel c cardNo 1.
Definition cancelBuildingKey (c : client) (cardNo : string) : M value := cancel c cardNo 2.

Definition getMacList (c : client) : M value :=
  checkCommunityNo c ;;
  let url := (apiHost c ++ "Home/Qrm/getMacList")%string in
  communityNo' <- communityNo_toString c ;;
  data <- new_object
    [("accountSid", VStr (accountSid c)); ("communityNo", VStr communityNo')] ;;
  sig <- getSig2 c data ;;
  set_prop data "sig" (VStr sig) ;;
  result <- curlPost c url "" data FormUrlencoded ;;
  expect_field result "data" unexpected_value.

(** [crypto.createHash('md5').update(creatorPassword).digest('hex')]. *)
Definition password_digest (creatorPassword : string) : string :=
  Text.hex (Digest.md5 (Text.utf8 creatorPassword)).

Definition makeCard (c : client)
  (issueMac buildNo floorNo roomNo endTime creatorAreaCode creatorMobile
   creatorPassword owner : string) (opentype ownerGender : Z)
  (ownerAreaCode ownerMobile creatorEmail : string) : M value :=
  checkCommunityNo c ;;
  let url := (apiHost c ++ "Home/Qrm/makeRoomCard")%string in
  endTime' <- toCommunityTime c endTime ;;
  communityNo' <- communityNo_toString c ;;
  data <- new_object
    [("issueMac", VStr issueMac); ("endTime", VStr endTime');
     ("accountSid", VStr (accountSid c)); ("communityNo", VStr communityNo');
     ("buildNo", VStr buildNo); ("floorNo", VStr floorNo); ("roomNo", VStr roomNo)] ;;
  sig <- getSig2 c data ;;
  set_prop data "sig" (VStr sig) ;;
  set_prop data "owner" (VStr owner) ;;
  set_prop data "creatorAreaCode" (VStr creatorAreaCode) ;;
  set_prop data "creatorMobile" (VStr creatorMobile) ;;
  set_prop data "creatorPassword" (VStr (password_digest creatorPassword)) ;;
  set_prop data "opentype" (VNum opentype) ;;
  set_prop data "ownerGender" (VNum ownerGender) ;;
  set_prop data "ownerAreaCode" (VStr ownerAreaCode) ;;
  set_prop data "ownerMobile" (VStr ownerMobile) ;;
  set_prop data "creatorEmail" (VStr creatorEmail) ;;
  result <- curlPost c url "" data FormUrlencoded ;;
  expect_success result ;;
  ret (VBool true).

Definition makeLostCard (c : client)
  (issueMac buildNo floorNo roomNo endTime creatorAreaCode creatorMobile
   creatorPassword owner : string) (opentype ownerGender : Z)
  (ownerAreaCode ownerMobile creatorEmail : string) : M value :=
  checkCommunityNo c ;;
  let url := (apiHost c ++ "Home/Qrm/makeRoomCard")%string in
  endTime' <- toCommunityTime c endTime ;;
  communityNo' <- communityNo_toString c ;;
  data <- new_object
    [("issueMac", VStr issueMac); ("endTime", VStr endTime');
     ("accountSid", VStr (accountSid c)); ("communityNo", VStr communityNo');
     ("buildNo", VStr buildNo); ("floorNo", VStr floorNo); ("roomNo", VStr roomNo)] ;;
  sig <- getSig2 c data ;;
  set_prop data "sig" (VStr sig) ;;
  set_prop data "owner" (VStr owner) ;;
  set_prop data "creatorAreaCode" (VStr creatorAreaCode) ;;
  set_prop data "creatorMobile" (VStr creatorMobile) ;;
  set_prop data "creatorPassword" (VStr (password_digest creatorPassword)) ;;
  set_prop data "opentype" (VNum opentype) ;;
  set_prop data "ownerGender" (VNum ownerGender) ;;
  set_prop data "ownerAreaCode" (VStr ownerAreaCode) ;;
  set_prop data "ownerMobile" (VStr ownerMobile) ;;
  set_prop data "creatorEmail" (VStr creatorEmail) ;;
  set_prop data "isLost" (VStr creatorEmail) ;;
  result <- curlPost c url "" data FormUrlencoded ;;
  expect_success result ;;
  ret (VBool true).

Definition readCard (c : client)
  (issueMac creatorAreaCode creatorMobile creatorPassword : string)
  (operateCardType : Z) (creatorEmail : string) : M value :=
  checkCommunityNo c ;;
  let url := (apiHost c ++ "Home/Qrm/readCard")%string in
  communityNo' <- communityNo_toString c ;;
  data <- new_object
    [("accountSid", VStr (accountSid c)); ("communityNo", VStr communityNo');
     ("issueMac", VStr issueMac); ("creatorAreaCode", VStr creatorAreaCode);
     ("creatorMobile", VStr creatorMobile);
     ("creatorPassword", VStr (password_digest creatorPassword))] ;;
  sig <- getSig2 c data ;;
  set_prop data "sig" (VStr sig) ;;
  set_prop data "operateCardType" (VNum operateCardType) ;;
  set_prop data "creatorEmail" (VStr creatorEmail) ;;
  result <- curlPost c url "" data FormUrlencoded ;;
  expect_success result ;;
  ret result.

Definition cancelCard (c : client)
  (issueMac serialNum creatorAreaCode creatorMobile creatorPassword : string)
  (operateCardType : Z) (creatorEmail : string) : M value :=
  checkCommunityNo c ;;
  let url := (apiHost c ++ "Home/Qrm/cancelCard")%string in
  communityNo' <- communityNo_toString c ;;
  data <- new_object
    [("accountSid", VStr (accountSid c)); ("communityNo", VStr communityNo');
     ("issueMac", VStr issueMac); ("serialNum", VStr serialNum);
     ("creatorAreaCode", VStr creatorAreaCode); ("creatorMobile", VStr creatorMobile);
     ("creatorPassword", VStr (password_digest creatorPassword))] ;;
  sig <- getSig2 c data ;;
  set_prop data "sig" (VStr sig) ;;
  set_prop data "operateCardType" (VNum operateCardType) ;;
  set_prop data "creatorEmail" (VStr creatorEmail) ;;
  result <- curlPost c url "" data FormUrlencoded ;;
  expect_success result ;;
  ret result.

Definition getRoomCardInfo (c : client) (cardString : string) : M value :=
  batch <- new_batch ;;
  let sig := getSig c batch in
  let url := (apiHost c ++ "?c=Qrcode&a=getRoomCardInfo&sig=" ++ sig)%string in
  let auth := getAuth c batch in
  communityNo' <- communityNo_toString c ;;
  data <- new_object
    [("communityNo", VStr communityNo'); ("cardString", VStr cardString)] ;;
  result <- curlPost c url auth data ApplicationJson ;;
  expect_success result ;;
  get_field result "data".

Definition getRecordsByRoom (c : client)
  (buildNo floorNo roomNo startDate endDate : string) (recordType holderFrom : Z)
  : M value :=
  timestamp <- unix_seconds ;;
  w <- ask ;;
  communityNo' <- communityNo_toString c ;;
  data <- new_object
    [("accountSid", VStr (accountSid c)); ("timestamp", VNum timestamp);
     ("rand", VNum (random w)); ("communityNo", VStr communityNo');
     ("buildNo", VStr buildNo); ("floorNo", VStr floorNo); ("roomNo", VStr roomNo);
     ("startDate", VStr startDate); ("endDate", VStr endDate);
     ("recordType", VNum recordType); ("holderFrom", VNum holderFrom)] ;;
  sig <- getSig3 c data ;;
  let url := (apiHost c ++ "Home/Records/queryByRoom?sig=" ++ sig)%string in
  result <- curlPost c url "" data FormUrlencoded ;;
  expect_field result "data" unexpected_value.

Definition fetchRoomInfo (c : client) : M value :=
  timestamp <- unix_seconds ;;
  communityNo' <- communityNo_toString c ;;
  data <- new_object
    [("accountSid", VStr (accountSid c)); ("timestamp", VNum timestamp);
     ("communityNo", VStr communityNo')] ;;
  sig <- getSig3 c data ;;
  let url := (apiHost c ++ "Home/Records/fetchRoomInfo?sig=" ++ sig)%string in
  result <- curlPost c url "" data FormUrlencoded ;;
  expect_field result "data" unexpected_value.

Definition getBoxInfo (c : client) : M value :=
  timestamp <- unix_seconds ;;
  communityNo' <- communityNo_toString c ;;
  data <- new_object
    [("accountSid", VStr (accountSid c)); ("timestamp", VNum timestamp);
     ("communityNo", VStr communityNo')] ;;
  sig <- getSig3 c data ;;
  let url := (apiHost c ++ "Home/Records/getBoxInfo?sig=" ++ sig)%string in
  result <- curlPost c url "" data FormUrlencoded ;;
  expect_field result "data" unexpected_value.

(** *** Calls

    One constructor per public asynchronous method, with the arguments of
    the call; [invoke] dispatches to the method. *)
Inductive operation : Type :=
  | Create (mobile areaCode roomNo floorNo buildNo startTime endTime : string)
           (sendSms cardType times opentype : Z)
  | CreateRoomKey (mobile areaCode roomNo floorNo buildNo startTime endTime : string)
                  (sendSms times : Z)
  | CreateFloorKey (mobile areaCode floorNo buildNo startTime endTime : string) (sendSms : Z)
  | CreateBuildingKey (mobile areaCode buildNo startTime endTime : string) (sendSms : Z)
  | CreateRoomLostKey (mobile areaCode roomNo floorNo buildNo startTime endTime : string)
  | GenerateQRPRoomCipher (mobile areaCode roomNo floorNo buildNo startTime endTime : string)
                          (cipherType : Z)
  | ReportCardLost (cardNo : string) (wholeRoom : bool)
  | GetLink (mobile areaCode cardNo : string) (cardType : Z)
  | GetRoomKeyLink (mobile areaCode cardNo : string)
  | GetFloorKeyLink (mobile areaCode cardNo : string)
  | GetBuildingKeyLink (mobile areaCode cardNo : string)
  | GetShare (mobile areaCode roomFlag : string) (cardType : Z) (openEndTime : string)
             (lockType resultType : Z)
  | GetRoomKeyImage (mobile areaCode cardNo openEndTime : string) (lockType : Z)
  | GetFloorKeyImage (mobile areaCode cardNo openEndTime : string) (lockType : Z)
  | GetBuildingKeyImage (mobile areaCode cardNo openEndTime : string) (lockType : Z)
  | GetRoomKeyString (mobile areaCode mac : string)
  | GetQRPRoomCipher (mobile areaCode cardNo : string)
  | Cancel (cardNo : string) (cardType : Z)
  | CancelRoomKey (cardNo : string)
  | CancelFloorKey (cardNo : string)
  | CancelBuildingKey (cardNo : string)
  | GetMacList
  | MakeCard (issueMac buildNo floorNo roomNo endTime creatorAreaCode creatorMobile
              creatorPassword owner : string) (opentype ownerGender : Z)
             (ownerAreaCode ownerMobile creatorEmail : string)
  | MakeLostCard (issueMac buildNo floorNo roomNo endTime creatorAreaCode creatorMobile
                  creatorPassword owner : string) (opentype ownerGender : Z)
                 (ownerAreaCode ownerMobile creatorEmail : string)
  | ReadCard (issueMac creatorAreaCode creatorMobile creatorPassword : string)
             (operateCardType : Z) (creatorEmail : string)
  | CancelCard (issueMac serialNum creatorAreaCode creatorMobile creatorPassword : string)
               (operateCardType : Z) (creatorEmail : string)
  | GetRoomCardInfo (cardString : string)
  | GetRecordsByRoom (buildNo floorNo roomNo startDate endDate : string)
                     (recordType holderFrom : Z)
  | FetchRoomInfo
  | GetBoxInfo.

Definition invoke (c : client) (op : operation) : M value :=
  match op with
  | Create a b r f bl st en sms ct t o => create c a b r f bl st en sms ct t o
  | CreateRoomKey a b r f bl st en sms t => createRoomKey c a b r f bl st en sms t
  | CreateFloorKey a b f bl st en sms => createFloorKey c a b f bl st en sms
  | CreateBuildingKey a b bl st en sms => createBuildingKey c a b bl st en sms
  | CreateRoomLostKey a b r f bl st en => createRoomLostKey c a b r f bl st en
  | GenerateQRPRoomCipher a b r f bl st en ct => generateQRPRoomCipher c a b r f bl st en ct
  | ReportCardLost cardNo wholeRoom => reportCardLost c cardNo wholeRoom
  | GetLink a b cardNo ct => getLink c a b cardNo ct
  | GetRoomKeyLink a b cardNo => getRoomKeyLink c a b cardNo
  | GetFloorKeyLink a b cardNo => getFloorKeyLink c a b cardNo
  | GetBuildingKeyLink a b cardNo => getBuildingKeyLink c a b cardNo
  | GetShare a b flag ct en lt rt => getShare c a b flag ct en lt rt
  | GetRoomKeyImage a b cardNo en lt => getRoomKeyImage c a b cardNo en lt
  | GetFloorKeyImage a b cardNo en lt => getFloorKeyImage c a b cardNo en lt
  | GetBuildingKeyImage a b cardNo en lt => getBuildingKeyImage c a b cardNo en lt
  | GetRoomKeyString a b mac => getRoomKeyString c a b mac
  | GetQRPRoomCipher a b cardNo => getQRPRoomCipher c a b cardNo
  | Cancel cardNo ct => cancel c cardNo ct
  | CancelRoomKey cardNo => cancelRoomKey c cardNo
  | CancelFloorKey cardNo => cancelFloorKey c cardNo
  | CancelBuildingKey cardNo => cancelBuildingKey c cardNo
  | GetMacList => getMacList c
  | MakeCard im bl f r en ca cm cp ow ot og oa om ce =>
      makeCard c im bl f r en ca cm cp ow ot og oa om ce
  | MakeLostCard im bl f r en ca cm cp ow ot og oa om ce =>
      makeLostCard c im bl f r en ca cm cp ow ot og oa om ce
  | ReadCard im ca cm cp oc ce => readCard c im ca cm cp oc ce
  | CancelCard im sn ca cm cp oc ce => cancelCard c im sn ca cm cp oc ce
  | GetRoomCardInfo cardString => getRoomCardInfo c cardString
  | GetRecordsByRoom bl f r sd ed rt hf => getRecordsByRoom c bl f r sd ed rt hf
  | FetchRoomInfo => fetchRoomInfo c
  | GetBoxInfo => getBoxInfo c
  end.

(** A call on its own: what it returns or throws, and the requests it
    issued, in order. *)
Definition run {A} (m : M A) (w : world) : result A * list request :=
  let '(r, s) := m w empty_state in (r, sent s).

Definition outcome {A} (m : M A) (w : world) : result A := fst (run m w).
Definition requests {A} (m : M A) (w : world) : list request := snd (run m w).

End Uclbrt.

(* ================================================================== *)
(** ** Concrete surroundings used by the examples                      *)
(* ================================================================== *)

Module Sample.

Import JS Env Uclbrt.

Definition zones (tz : string) : option Z :=
  if (tz =? "Asia/Shanghai")%string then Some 480
  else if (tz =? "Asia/Tokyo")%string then Some 540
  else if (tz =? "UTC")%string then Some 0
  else None.

Definition hostnames (u : string) : option string :=
  if (u =? "https://api.uclbrt.com/")%string then Some "api.uclbrt.com"
  else if (u =? "http://cz.uclbrt.com/")%string then Some "cz.uclbrt.com"
  else None.

(** A stand-in for the RSA encryption: it answers with fixed bytes. *)
Definition fixed_cipher (_ : string) (_ : list Z) : option (list Z) :=
  Some [1; 2; 3; 250; 251; 252; 253].

(** 2025-01-01T12:00:00Z, on a machine in zone [zone] at [offset] minutes
    east of UTC, talking to the service [srv]. *)
Definition world_of (zone : string) (offset : Z) (srv : request -> http_outcome) : world :=
  {| now := 1735732800000; random := 12345678; local_offset := offset;
     zone_offset := zones; resolved_zone := zone; url_hostname := hostnames;
     public_pem := Some "-----BEGIN PUBLIC KEY-----"; rsa_encrypt := fixed_cipher;
     server := srv |}.

Definition replies (status : Z) (reply : value) : request -> http_outcome :=
  fun _ => HttpResponse status reply.

Definition shanghai (srv : request -> http_outcome) : world := world_of "Asia/Shanghai" 480 srv.
Definition tokyo (srv : request -> http_outcome) : world := world_of "Asia/Tokyo" 540 srv.

Definition config_AT : UserConfig :=
  {| cfg_accountSid := "A"; cfg_authToken := "T"; cfg_apiHost := None;
     cfg_cardHost := None; cfg_debug := None |}.

(** The client [new Uclbrt({accountSid, authToken})] builds in zone [zone]. *)
Definition fresh (accountSid authToken zone : string) : client :=
  {| accountSid := accountSid; authToken := authToken;
     apiHost := "https://api.uclbrt.com/"; cardHost := "http://cz.uclbrt.com/";
     debug := false; communityTimezone := "Asia/Shanghai"; communityNo := None;
     localTimezone := zone; publicKey := "-----BEGIN PUBLIC KEY-----" |}.

Definition client_AT : client := fresh "A" "T" "Asia/Shanghai".
Definition client_AT_set : client := with_communityNo client_AT (Some 123456789).
Definition client_tokyo : client := with_communityNo (fresh "A" "T" "Asia/Tokyo") (Some 123456789).

End Sample.

(* ================================================================== *)
(** ** The vocabulary of the specification                             *)
(* ================================================================== *)

Module Spec.

Import JS Env Uclbrt.

(** The value of a request header. *)
Fixpoint header_of (hs : list (string * string)) (name : string) : option string :=
  match hs with
  | [] => None
  | (k, v) :: r => if (k =? name)%string then Some v else header_of r name
  end.

Definition header (rq : request) (name : string) : option string :=
  header_of (headers rq) name.

(** The error an operation stops with when [communityNo] was never
    assigned. *)
Definition unset_error (op : operation) : error :=
  match op with
  | GetRoomCardInfo _ | GetRecordsByRoom _ _ _ _ _ _ _ | FetchRoomInfo | GetBoxInfo =>
      mkError TypeError "Cannot read properties of undefined (reading 'toString')"
  | GetLink mobile _ _ _ | GetRoomKeyLink mobile _ _ | GetFloorKeyLink mobile _ _
  | GetBuildingKeyLink mobile _ _ =>
      if (mobile =? "")%string then mkError MissingArgument "mobile cannot be empty."
      else mkError ConfigurationError "communityNo cannot be empty."
  | _ => mkError ConfigurationError "communityNo cannot be empty."
  end.

(** The operations the specification lists as requiring the community id. *)
Definition requires_community (op : operation) : Prop :=
  match op with
  | Create _ _ _ _ _ _ _ _ _ _ _ | CreateRoomLostKey _ _ _ _ _ _ _
  | GenerateQRPRoomCipher _ _ _ _ _ _ _ _ | ReportCardLost _ _ | GetLink _ _ _ _
  | GetShare _ _ _ _ _ _ _ | Cancel _ _ | GetMacList
  | MakeCard _ _ _ _ _ _ _ _ _ _ _ _ _ _ | MakeLostCard _ _ _ _ _ _ _ _ _ _ _ _ _ _
  | ReadCard _ _ _ _ _ _ | CancelCard _ _ _ _ _ _ _ | GetRoomCardInfo _
  | GetRecordsByRoom _ _ _ _ _ _ _ | FetchRoomInfo | GetBoxInfo => True
  | _ => False
  end.

(** The batch family: the operations signed with [getSig], and the action
    each names in its URL. *)
Definition batch_action (op : operation) : option string :=
  match op with
  | Create _ _ _ _ _ _ _ _ _ _ _ | CreateRoomKey _ _ _ _ _ _ _ _ _
  | CreateFloorKey _ _ _ _ _ _ _ | CreateBuildingKey _ _ _ _ _ _
  | CreateRoomLostKey _ _ _ _ _ _ _ | GenerateQRPRoomCipher _ _ _ _ _ _ _ _ =>
      Some "getLink"
  | ReportCardLost _ _ => Some "reportLost"
  | GetShare _ _ _ _ _ _ _ | GetRoomKeyImage _ _ _ _ _ | GetFloorKeyImage _ _ _ _ _
  | GetBuildingKeyImage _ _ _ _ _ | GetRoomKeyString _ _ _ | GetQRPRoomCipher _ _ _ =>
      Some "getCard"
  | Cancel _ _ | CancelRoomKey _ | CancelFloorKey _ | CancelBuildingKey _ =>
      Some "cancelCard"
  | GetRoomCardInfo _ => Some "getRoomCardInfo"
  | _ => None
  end.

(** The Records family: the operations signed with [getSig3]. *)
Definition records_family (op : operation) : bool :=
  match op with
  | GetRecordsByRoom _ _ _ _ _ _ _ | FetchRoomInfo | GetBoxInfo => true
  | _ => false
  end.

(** [YYYYMMDDHHmmss] of a time value, in UTC. *)
Definition batch_of (t : Z) : string :=
  let f := Calendar.civil_of_time t in
  Text.pad 4 (Calendar.year f) ++ Text.pad 2 (Calendar.month f)
  ++ Text.pad 2 (Calendar.day f) ++ Text.pad 2 (Calendar.hour f)
  ++ Text.pad 2 (Calendar.minute f) ++ Text.pad 2 (Calendar.second f).

(** The batch id [new_batch] computes from the clock. *)
Definition batch_now (w : world) : string :=
  Text.slice (Calendar.strip_separators (Calendar.toISOString (now w))) 0 14.

(** The message of the error [curlPost] throws for an HTTP status other
    than 200: the reply when axios resolved (2xx) or when the rejected
    reply is truthy, the message of axios otherwise. *)
Definition transport_message (status : Z) (reply : value) : string :=
  if ((200 <=? status) && (status <? 300)) || truthy reply then error_message reply
  else ("Request failed with status code " ++ Text.decimal status)%string.

(** Calendar fields that denote a date and a time of day, with a year of
    four digits. *)
Definition timestamp_fields (f : Calendar.civil) : Prop :=
  0 <= Calendar.year f <= 9999 /\ 1 <= Calendar.month f <= 12
  /\ 1 <= Calendar.day f <= 31 /\ 0 <= Calendar.hour f <= 23
  /\ 0 <= Calendar.minute f <= 59 /\ 0 <= Calendar.second f <= 59.

(** Time values whose UTC year has four digits: 0000-01-01T00:00:00Z up to
    9999-12-31T23:59:59.999Z. *)
Definition four_digit_year (t : Z) : Prop :=
  -62167219200000 <= t < 253402300800000.

(** The calendar fields a compact text [YYMMDDHHmm] denotes, in the years
    2000 to 2099. *)
Definition compact_fields (s : string) : option Calendar.civil :=
  match Text.number_of (substring 0 2 s), Text.number_of (substring 2 2 s),
        Text.number_of (substring 4 2 s), Text.number_of (substring 6 2 s),
        Text.number_of (substring 8 2 s) with
  | Some y, Some m, Some d, Some h, Some mi =>
      if Nat.eqb (String.length s) 10 then Some (Calendar.mkCivil (2000 + y) m d h mi 0 0)
      else None
  | _, _, _, _, _ => None
  end.

(** The compact text [YYMMDDHHmm] of calendar fields. *)
Definition compact_of (f : Calendar.civil) : string :=
  Text.pad 2 (Calendar.year f) ++ Text.pad 2 (Calendar.month f)
  ++ Text.pad 2 (Calendar.day f) ++ Text.pad 2 (Calendar.hour f)
  ++ Text.pad 2 (Calendar.minute f).

(** The conversion the specification describes for [toCommunityTime]: the
    compact text is a wall clock in the operator's zone (at [from] minutes
    east of UTC); it is moved to the community's zone (at [to] minutes east
    of UTC) and written compactly again. *)
Definition community_time_spec (from to : Z) (s : string) : option string :=
  match compact_fields s with
  | Some f =>
      let instant := Calendar.time_of_civil f - from * Calendar.msPerMinute in
      Some (compact_of (Calendar.civil_of_time (instant + to * Calendar.msPerMinute)))
  | None => None
  end.

(** The signature [getSig2] gives for the mapping written as the object
    literal [fields]. *)
Definition sig2 (c : client) (fields : obj) (w : world) : result string :=
  outcome (bind (new_object fields) (getSig2 c)) w.

(** Field names: pairwise distinct keys, none of them an array index. *)
Definition plain_keys (o : obj) : Prop :=
  NoDup (keys o) /\ Forall (fun k => Text.is_array_index k = false) (keys o).

(** The order of keys: by code units, as [Array.prototype.sort] has it. *)
Definition key_le (a b : string) : Prop := String.leb a b = true.
Definition key_lt (a b : string) : Prop := String.ltb a b = true.

(** A text without line terminators, the characters [.] does not match. *)
Definition single_line (s : string) : bool :=
  Text.all_units (fun a => negb (is_line_terminator a)) s.

(** The value of a [sig] field computed by [getSig2] over the texts
    [parts], in that order. *)
Definition signed_text (c : client) (parts : list string) : value :=
  VStr (Text.hex (Digest.md5 (Text.utf8 (Text.join "" parts ++ authToken c)))).

(** The [sig] field of each request of a call. *)
Definition sigs (rqs : list request) : list value :=
  map (fun rq => get (data rq) "sig") rqs.

(** Where an outcome failed, if it did. *)
Definition failure_site {A} (r : result A) : option error_site :=
  match r with
  | Ok _ => None
  | Throw e => Some (site e)
  end.

(** The characters of base64 text. *)
Definition base64_unit (a : ascii) : bool :=
  let c := Text.code a in
  ((65 <=? c) && (c <=? 90)) || ((97 <=? c) && (c <=? 122)) ||
  ((48 <=? c) && (c <=? 57)) || (c =? 43) || (c =? 47) || (c =? 61).

(** A list of bytes. *)
Definition bytes (l : list Z) : Prop := Forall (fun b => 0 <= b < 256) l.

(** The canonical encoding of the mapping [getLink] encrypts. *)
Definition link_query (c : client) (n time : Z) (mobile areaCode cardNo : string)
  (cardType : Z) : string :=
  ("areaCode=" ++ areaCode ++ "&cardNo=" ++ cardNo ++ "&cardType=" ++ Text.decimal cardType
   ++ "&communityNo=" ++ Text.decimal n ++ "&id=" ++ accountSid c ++ "&mobile=" ++ mobile
   ++ "&time=" ++ Text.decimal time ++ "&token=" ++ authToken c)%string.

(** The characters of URL-encoded base64 text. *)
Definition cipher_unit (a : ascii) : bool :=
  let c := Text.code a in
  ((65 <=? c) && (c <=? 90)) || ((97 <=? c) && (c <=? 122)) ||
  ((48 <=? c) && (c <=? 57)) || (c =? 37).

End Spec.

(* ================================================================== *)
(** ** Further vocabulary: what a request looks like, family by family  *)
(* ================================================================== *)

Module Wire.

Import JS Env Uclbrt.

(** The auth text and the content type [curlPost] is called with: the
    operations of the batch family pass [getAuth] of their batch and post
    JSON, the others pass [''] and post a form. *)
Definition auth_of (c : client) (w : world) (op : operation) : string :=
  match Spec.batch_action op with
  | Some _ => getAuth c (Spec.batch_now w)
  | None => ""
  end.

Definition content_type_of (op : operation) : ContentType :=
  match Spec.batch_action op with
  | Some _ => ApplicationJson
  | None => FormUrlencoded
  end.

(** The operations that build a link and never call [curlPost]. *)
Definition link_operation (op : operation) : bool :=
  match op with
  | GetLink _ _ _ _ | GetRoomKeyLink _ _ _ | GetFloorKeyLink _ _ _
  | GetBuildingKeyLink _ _ _ => true
  | _ => false
  end.

(** Hexadecimal digits, in lower and in upper case. *)
Definition lower_hex (a : ascii) : bool :=
  let c := Text.code a in
  ((48 <=? c) && (c <=? 57)) || ((97 <=? c) && (c <=? 102)).

Definition upper_hex (a : ascii) : bool :=
  let c := Text.code a in
  ((48 <=? c) && (c <=? 57)) || ((65 <=? c) && (c <=? 70)).

(** The request of [makeRoomCard] with one more property, [isLost]. *)
Definition with_isLost (flag : string) (rq : request) : request :=
  axios_config (url rq) "" (set (data rq) "isLost" (VStr flag)) FormUrlencoded.

(** The object [makeCard] posts, property by property in the order of
    their creation: the seven signed fields, the signature, then the
    fields added after it. *)
Definition card_fields (c : client)
  (issueMac endTime communityNo' buildNo floorNo roomNo creatorAreaCode creatorMobile
   creatorPassword owner : string) (opentype ownerGender : Z)
  (ownerAreaCode ownerMobile creatorEmail : string) : obj :=
  [("issueMac", VStr issueMac); ("endTime", VStr endTime);
   ("accountSid", VStr (accountSid c)); ("communityNo", VStr communityNo');
   ("buildNo", VStr buildNo); ("floorNo", VStr floorNo); ("roomNo", VStr roomNo);
   ("sig", Spec.signed_text c
             [issueMac; endTime; accountSid c; communityNo'; buildNo; floorNo; roomNo]);
   ("owner", VStr owner); ("creatorAreaCode", VStr creatorAreaCode);
   ("creatorMobile", VStr creatorMobile);
   ("creatorPassword", VStr (password_digest creatorPassword));
   ("opentype", VNum opentype); ("ownerGender", VNum ownerGender);
   ("ownerAreaCode", VStr ownerAreaCode); ("ownerMobile", VStr ownerMobile);
   ("creatorEmail", VStr creatorEmail)].

(** The password argument of the operations that take one. *)
Definition card_password (op : operation) : option string :=
  match op with
  | MakeCard _ _ _ _ _ _ _ creatorPassword _ _ _ _ _ _
  | MakeLostCard _ _ _ _ _ _ _ creatorPassword _ _ _ _ _ _
  | ReadCard _ _ _ creatorPassword _ _
  | CancelCard _ _ _ _ creatorPassword _ _ => Some creatorPassword
  | _ => None
  end.

(** The canonical text the Records operations sign. *)
Definition room_info_query (c : client) (n time : Z) : string :=
  ("accountSid=" ++ accountSid c ++ "&authToken=" ++ authToken c
   ++ "&communityNo=" ++ Text.decimal n ++ "&timestamp=" ++ Text.decimal time)%string.

Definition records_query (c : client) (n time rand : Z)
  (buildNo floorNo roomNo startDate endDate : string) (recordType holderFrom : Z) : string :=
  ("accountSid=" ++ accountSid c ++ "&authToken=" ++ authToken c
   ++ "&buildNo=" ++ buildNo ++ "&communityNo=" ++ Text.decimal n
   ++ "&endDate=" ++ endDate ++ "&floorNo=" ++ floorNo
   ++ "&holderFrom=" ++ Text.decimal holderFrom ++ "&rand=" ++ Text.decimal rand
   ++ "&recordType=" ++ Text.decimal recordType ++ "&roomNo=" ++ roomNo
   ++ "&startDate=" ++ startDate ++ "&timestamp=" ++ Text.decimal time)%string.

(** The first time argument an operation hands to [toCommunityTime]. *)
Definition first_time (op : operation) : option string :=
  match op with
  | Create _ _ _ _ _ startTime _ _ _ _ _
  | CreateRoomKey _ _ _ _ _ startTime _ _ _
  | CreateFloorKey _ _ _ _ startTime _ _
  | CreateBuildingKey _ _ _ startTime _ _
  | CreateRoomLostKey _ _ _ _ _ startTime _
  | GenerateQRPRoomCipher _ _ _ _ _ startTime _ _ => Some startTime
  | GetShare _ _ _ _ openEndTime _ _
  | GetRoomKeyImage _ _ _ openEndTime _
  | GetFloorKeyImage _ _ _ openEndTime _
  | GetBuildingKeyImage _ _ _ openEndTime _ => Some openEndTime
  | MakeCard _ _ _ _ endTime _ _ _ _ _ _ _ _ _
  | MakeLostCard _ _ _ _ endTime _ _ _ _ _ _ _ _ _ => Some endTime
  | _ => None
  end.

(** What an operation makes of a reply that [curlPost] has accepted: the
    field it expects, or the confirmation [info == 'success'] followed by
    what it returns then.  The link operations receive no reply. *)
Definition field_or (reply : obj) (field msg : string) : result value :=
  if truthy (get reply field) then Ok (get reply field)
  else Throw (mkError UnexpectedResponseError msg).

Definition success_then (reply : obj) (v : value) : result value :=
  if truthy (get reply "info") && loose_eq_word (get reply "info") "success" then Ok v
  else Throw (mkError UnexpectedResponseError unexpected_value).

Definition answer_of (op : operation) (reply : obj) : option (result value) :=
  match op with
  | Create _ _ _ _ _ _ _ _ _ _ _ | CreateRoomKey _ _ _ _ _ _ _ _ _
  | CreateFloorKey _ _ _ _ _ _ _ | CreateBuildingKey _ _ _ _ _ _
  | CreateRoomLostKey _ _ _ _ _ _ _ | GenerateQRPRoomCipher _ _ _ _ _ _ _ _ =>
      Some (field_or reply "cardNo" cardNo_missing)
  | ReportCardLost _ _ => Some (Ok (VBool true))
  | GetLink _ _ _ _ | GetRoomKeyLink _ _ _ | GetFloorKeyLink _ _ _
  | GetBuildingKeyLink _ _ _ => None
  | GetShare _ _ _ _ _ _ _ => Some (Ok (VObj reply))
  | GetRoomKeyImage _ _ _ _ _ | GetFloorKeyImage _ _ _ _ _
  | GetBuildingKeyImage _ _ _ _ _ => Some (field_or reply "baseImg" baseImg_missing)
  | GetRoomKeyString _ _ _ => Some (field_or reply "bleStr" bleStr_missing)
  | GetQRPRoomCipher _ _ _ => Some (field_or reply "cipher" cipher_missing)
  | Cancel _ _ | CancelRoomKey _ | CancelFloorKey _ | CancelBuildingKey _
  | MakeCard _ _ _ _ _ _ _ _ _ _ _ _ _ _ | MakeLostCard _ _ _ _ _ _ _ _ _ _ _ _ _ _ =>
      Some (success_then reply (VBool true))
  | ReadCard _ _ _ _ _ _ | CancelCard _ _ _ _ _ _ _ => Some (success_then reply (VObj reply))
  | GetRoomCardInfo _ => Some (success_then reply (get reply "data"))
  | GetMacList | GetRecordsByRoom _ _ _ _ _ _ _ | FetchRoomInfo | GetBoxInfo =>
      Some (field_or reply "data" unexpected_value)
  end.

(** The operations whose payload has a [communityNo] property: all but
    [reportCardLost], [cancel] and its presets. *)
Definition sends_community (op : operation) : bool :=
  match op with
  | ReportCardLost _ _ | Cancel _ _ | CancelRoomKey _ | CancelFloorKey _
  | CancelBuildingKey _ => false
  | _ => true
  end.

(** The three errors a link operation can stop with. *)
Definition link_errors : list error :=
  [mkError MissingArgument "mobile cannot be empty.";
   mkError ConfigurationError "communityNo cannot be empty.";
   mkError EncryptionError "failed to generate link."].

(** The throw sites that lie before the call of [curlPost], and those
    inside and after it.  (The TypeError of a property read lies on both
    sides: [communityNo.toString()] before, [result.info] on a [null] reply
    inside.) *)
Definition before_request (k : error_site) : bool :=
  match k with
  | ConfigurationError | MissingArgument | FormatError | RangeError | EncryptionError => true
  | _ => false
  end.

Definition after_request (k : error_site) : bool :=
  match k with
  | TransportError | ServerError | UnexpectedResponseError => true
  | _ => false
  end.

(** How an outcome and the log of a call go together. *)
Definition in_phase (link : bool) (r : result value * state) : Prop :=
  match fst r with
  | Ok _ => List.length (sent (snd r)) = if link then 0%nat else 1%nat
  | Throw e =>
      (before_request (site e) = true -> sent (snd r) = [])
      /\ (after_request (site e) = true -> List.length (sent (snd r)) = 1%nat)
  end.

(** A text of ten decimal digits. *)
Definition ten_digits (s : string) : Prop :=
  String.length s = 10%nat /\ Text.all_units Text.is_digit s = true.

(** A time text [toCommunityTime] rejects whenever it has to convert. *)
Definition too_short (s : string) : Prop :=
  s <> ""%string /\ (String.length s < 10)%nat.

End Wire.

(* ================================================================== *)
(** * Properties                                                       *)
(* ================================================================== *)

(** ** The digests agree with the published test vectors *)

Example md5_empty :
  Text.hex (Digest.md5 (Text.utf8 "")) = "d41d8cd98f00b204e9800998ecf8427e".
Proof. vm_compute. reflexivity. Qed.

Example md5_abc :
  Text.hex (Digest.md5 (Text.utf8 "abc")) = "900150983cd24fb0d6963f7d28e17f72".
Proof. vm_compute. reflexivity. Qed.

Example sha1_abc :
  Text.hex (Digest.sha1 (Text.utf8 "abc")) = "a9993e364706816aba3e25717850c26c9cd0d89d".
Proof. vm_compute. reflexivity. Qed.

Example base64_auth :
  Digest.base64 (Text.utf8 "A:20250101120000") = "QToyMDI1MDEwMTEyMDAwMA==".
Proof. vm_compute. reflexivity. Qed.

(** ** Text *)

Module TextFacts.

Import Text.

Lemma append_assoc (a b c : string) : ((a ++ b) ++ c = a ++ (b ++ c))%string.
Proof. induction a as [|x a IH]; simpl; [reflexivity | now rewrite IH]. Qed.

Lemma append_nil_r (a : string) : (a ++ "" = a)%string.
Proof. induction a as [|x a IH]; simpl; [reflexivity | now rewrite IH]. Qed.

Lemma length_append (a b : string) :
  String.length (a ++ b) = (String.length a + String.length b)%nat.
Proof. induction a as [|x a IH]; simpl; [reflexivity | now rewrite IH]. Qed.

Lemma code_chr (z : Z) : 0 <= z < 256 -> code (chr z) = z.
Proof.
  intros Hz. unfold code, chr. rewrite N_ascii_embedding; lia.
Qed.

Lemma chr_code (a : ascii) : chr (code a) = a.
Proof.
  unfold code, chr. rewrite N2Z.id. apply ascii_N_embedding.
Qed.

Lemma pad_length (w : nat) (n : Z) : String.length (pad w n) = w.
Proof.
  revert n. induction w as [|w IH]; intros n; simpl; [reflexivity|].
  rewrite length_append, IH. simpl. lia.
Qed.

Lemma all_units_append (p : ascii -> bool) (a b : string) :
  all_units p (a ++ b) = all_units p a && all_units p b.
Proof.
  induction a as [|x a IH]; simpl; [reflexivity|].
  now rewrite IH, andb_assoc.
Qed.

Lemma digit_unit (n : Z) : is_digit (chr (48 + n mod 10)) = true.
Proof.
  pose proof (Z.mod_pos_bound n 10 ltac:(lia)) as Hn.
  unfold is_digit. rewrite code_chr by lia.
  apply andb_true_iff; split; apply Z.leb_le; lia.
Qed.

Lemma pad_digits (w : nat) (n : Z) : all_units is_digit (pad w n) = true.
Proof.
  revert n. induction w as [|w IH]; intros n; cbn [pad]; [reflexivity|].
  rewrite all_units_append, IH. cbn [all_units andb]. now rewrite digit_unit.
Qed.

Lemma filter_units_append (keep : ascii -> bool) (a b : string) :
  filter_units keep (a ++ b) = (filter_units keep a ++ filter_units keep b)%string.
Proof.
  induction a as [|x a IH]; simpl; [reflexivity|].
  destruct (keep x); simpl; now rewrite IH.
Qed.

Lemma filter_units_all (keep p : ascii -> bool) (s : string) :
  (forall a, p a = true -> keep a = true) ->
  all_units p s = true -> filter_units keep s = s.
Proof.
  intros Himp. induction s as [|x s IH]; simpl; [reflexivity|].
  intros H. apply andb_true_iff in H as [Hx Hs].
  now rewrite (Himp x Hx), (IH Hs).
Qed.

Lemma substring_prefix (a b : string) : substring 0 (String.length a) (a ++ b) = a.
Proof. induction a as [|x a IH]; simpl; [now destruct b | now rewrite IH]. Qed.

Lemma codes_append (a b : string) : codes (a ++ b) = (codes a ++ codes b)%list.
Proof. induction a as [|x a IH]; simpl; [reflexivity | now rewrite IH]. Qed.

Lemma utf8_append (a b : string) : utf8 (a ++ b) = (utf8 a ++ utf8 b)%list.
Proof. unfold utf8. now rewrite codes_append, flat_map_app. Qed.

Lemma utf8_nonempty (x : ascii) (s : string) : utf8 (String x s) <> [].
Proof.
  unfold utf8. simpl. unfold utf8_unit. destruct (code x <? 128); discriminate.
Qed.

Lemma occurs_in_refl (s : string) : occurs_in s s.
Proof. exists ""%string, ""%string. simpl. now rewrite append_nil_r. Qed.

Lemma occurs_in_append_l (s t pre : string) : occurs_in s t -> occurs_in s (pre ++ t).
Proof.
  intros (p & q & ->). exists (pre ++ p)%string, q. now rewrite append_assoc.
Qed.

Lemma occurs_in_append_r (s t post : string) : occurs_in s t -> occurs_in s (t ++ post).
Proof.
  intros (p & q & ->). exists p, (q ++ post)%string. now rewrite !append_assoc.
Qed.

(** Every character of a substring is a character of the whole. *)
Lemma occurs_in_all_units (p : ascii -> bool) (s t : string) :
  occurs_in s t -> all_units p t = true -> all_units p s = true.
Proof.
  intros (pre & post & ->) H.
  rewrite !all_units_append in H.
  apply andb_true_iff in H as [_ H]. now apply andb_true_iff in H as [H _].
Qed.

Lemma occurs_in_join (sep x : string) (l : list string) :
  In x l -> occurs_in x (join sep l).
Proof.
  unfold join. induction l as [|y l IH]; simpl; [tauto|].
  intros [-> | Hin].
  - destruct l; [apply occurs_in_refl | apply occurs_in_append_r, occurs_in_refl].
  - destruct l as [|z l]; [destruct Hin|].
    apply occurs_in_append_l, occurs_in_append_l, IH, Hin.
Qed.

End TextFacts.

(** ** Calendar *)

Module CalendarFacts.

Import Calendar.

(** The month and the day of the month of any day number are in range. *)
Lemma civil_from_days_range (z : Z) :
  let '(_, m, d) := civil_from_days z in 1 <= m <= 12 /\ 1 <= d <= 31.
Proof.
  unfold civil_from_days.
  set (z' := z + 719468).
  set (era := z' / 146097).
  set (doe := z' - era * 146097).
  assert (Hdoe : 0 <= doe < 146097).
  { subst doe era. pose proof (Z.div_mod z' 146097 ltac:(lia)).
    pose proof (Z.mod_pos_bound z' 146097 ltac:(lia)). lia. }
  clearbody doe. clear z' era z.
  set (yoe := (doe - doe / 1460 + doe / 36524 - doe / 146096) / 365).
  set (doy := doe - (365 * yoe + yoe / 4 - yoe / 100)).
  assert (Hdoy : 0 <= doy <= 365) by (subst doy yoe; Z.div_mod_to_equations; lia).
  clearbody doy.
  set (mp := (5 * doy + 2) / 153).
  assert (Hmp : 0 <= mp <= 11) by (subst mp; Z.div_mod_to_equations; lia).
  assert (Hd : 1 <= doy - (153 * mp + 2) / 5 + 1 <= 31)
    by (subst mp; Z.div_mod_to_equations; lia).
  clearbody mp.
  destruct (mp <? 10) eqn:E; [apply Z.ltb_lt in E | apply Z.ltb_ge in E]; lia.
Qed.

(** Day numbers from 0000-01-01 to 9999-12-31 have a year of four digits. *)
Lemma civil_from_days_year (z : Z) :
  -719528 <= z < 2932897 ->
  let '(y, _, _) := civil_from_days z in 0 <= y <= 9999.
Proof.
  intros Hz. unfold civil_from_days.
  set (z' := z + 719468).
  assert (Hz' : -60 <= z' < 3652365) by (subst z'; lia).
  clearbody z'. clear Hz z.
  set (era := z' / 146097).
  set (doe := z' - era * 146097).
  assert (Hdoe : 0 <= doe < 146097 /\ z' = era * 146097 + doe).
  { subst doe era. pose proof (Z.div_mod z' 146097 ltac:(lia)).
    pose proof (Z.mod_pos_bound z' 146097 ltac:(lia)). lia. }
  clearbody doe. clearbody era.
  set (yoe := (doe - doe / 1460 + doe / 36524 - doe / 146096) / 365).
  set (doy := doe - (365 * yoe + yoe / 4 - yoe / 100)).
  assert (Hy : 0 <= yoe <= 399 /\ 0 <= doy <= 365
               /\ doe = doy + 365 * yoe + yoe / 4 - yoe / 100)
    by (subst doy yoe; Z.div_mod_to_equations; lia).
  clearbody doy. clearbody yoe.
  set (mp := (5 * doy + 2) / 153).
  assert (Hmp : 0 <= mp <= 11 /\ (mp < 10 <-> doy < 306))
    by (subst mp; Z.div_mod_to_equations; lia).
  clearbody mp.
  destruct (mp <? 10) eqn:E; [apply Z.ltb_lt in E | apply Z.ltb_ge in E].
  - replace (mp + 3 <=? 2) with false by (symmetry; apply Z.leb_gt; lia).
    Z.div_mod_to_equations; lia.
  - replace (mp - 9 <=? 2) with true by (symmetry; apply Z.leb_le; lia).
    Z.div_mod_to_equations; lia.
Qed.

(** The UTC fields of a time value are those of a calendar date and a time
    of day. *)
Lemma civil_of_time_range (t : Z) :
  let f := civil_of_time t in
  1 <= month f <= 12 /\ 1 <= day f <= 31 /\ 0 <= hour f <= 23
  /\ 0 <= minute f <= 59 /\ 0 <= second f <= 59 /\ 0 <= milli f <= 999.
Proof.
  unfold civil_of_time, msPerDay.
  pose proof (civil_from_days_range (t / 86400000)) as H.
  destruct (civil_from_days (t / 86400000)) as [[y m] d]. simpl.
  pose proof (Z.mod_pos_bound t 86400000 ltac:(lia)).
  repeat split; try tauto; Z.div_mod_to_equations; lia.
Qed.

Lemma civil_of_time_year (t : Z) :
  Spec.four_digit_year t -> 0 <= year (civil_of_time t) <= 9999.
Proof.
  unfold Spec.four_digit_year, civil_of_time, msPerDay. intros Ht.
  assert (Hd : -719528 <= t / 86400000 < 2932897) by (Z.div_mod_to_equations; lia).
  pose proof (civil_from_days_year _ Hd) as H.
  destruct (civil_from_days (t / 86400000)) as [[y m] d]. exact H.
Qed.

Lemma civil_of_time_fields (t : Z) :
  Spec.four_digit_year t -> Spec.timestamp_fields (civil_of_time t).
Proof.
  intros Ht. pose proof (civil_of_time_year t Ht) as Hy.
  pose proof (civil_of_time_range t) as Hr. cbv zeta in Hr.
  unfold Spec.timestamp_fields. tauto.
Qed.

Lemma strip_digits (s : string) :
  Text.all_units Text.is_digit s = true -> strip_separators s = s.
Proof.
  apply TextFacts.filter_units_all.
  intros a Ha. unfold Text.is_digit in Ha.
  apply andb_true_iff in Ha as [H1 H2]. apply Z.leb_le in H1, H2.
  rewrite <- (TextFacts.chr_code a).
  assert (Hc : List.In (Text.code a) [48; 49; 50; 51; 52; 53; 54; 55; 56; 57])
    by (simpl; lia).
  simpl in Hc.
  repeat (destruct Hc as [<- | Hc]; [reflexivity|]). destruct Hc.
Qed.

Lemma strip_append (a b : string) :
  strip_separators (a ++ b) = (strip_separators a ++ strip_separators b)%string.
Proof. apply TextFacts.filter_units_append. Qed.

(** Inside the four-digit years, the first fourteen characters of the
    stripped ISO text are the compact time stamp. *)
Lemma compact_timestamp (t : Z) :
  Spec.four_digit_year t ->
  Text.slice (strip_separators (toISOString t)) 0 14 = Spec.batch_of t.
Proof.
  intros Ht. pose proof (civil_of_time_year t Ht) as Hy.
  unfold toISOString, Spec.batch_of, iso_year.
  set (f := civil_of_time t) in *.
  replace ((0 <=? year f) && (year f <=? 9999)) with true
    by (symmetry; apply andb_true_iff; split; apply Z.leb_le; lia).
  rewrite !strip_append.
  change (strip_separators "-") with ""%string.
  change (strip_separators "T") with ""%string.
  change (strip_separators ":") with ""%string.
  change (strip_separators ".") with "."%string.
  change (strip_separators "Z") with "Z"%string.
  rewrite !strip_digits by apply TextFacts.pad_digits.
  cbn [append].
  set (b := (Text.pad 4 (year f) ++ Text.pad 2 (month f) ++ Text.pad 2 (day f)
             ++ Text.pad 2 (hour f) ++ Text.pad 2 (minute f) ++ Text.pad 2 (second f))%string).
  assert (Hb : String.length b = 14%nat).
  { subst b. rewrite !TextFacts.length_append, !TextFacts.pad_length. reflexivity. }
  assert (Hs : (Text.pad 4 (year f) ++ Text.pad 2 (month f) ++ Text.pad 2 (day f)
                ++ Text.pad 2 (hour f) ++ Text.pad 2 (minute f) ++ Text.pad 2 (second f)
                ++ String "." (Text.pad 3 (milli f) ++ "Z"))%string
               = (b ++ String "." (Text.pad 3 (milli f) ++ "Z"))%string).
  { subst b. now rewrite !TextFacts.append_assoc. }
  rewrite Hs.
  set (rest := String "." (Text.pad 3 (milli f) ++ "Z")).
  transitivity (substring 0 14 (b ++ rest)).
  - unfold Text.slice. rewrite TextFacts.length_append, Hb. subst rest.
    cbn [String.length]. rewrite TextFacts.length_append, TextFacts.pad_length.
    reflexivity.
  - rewrite <- Hb at 1. apply TextFacts.substring_prefix.
Qed.

Lemma batch_length (t : Z) : String.length (Spec.batch_of t) = 14%nat.
Proof.
  unfold Spec.batch_of.
  rewrite !TextFacts.length_append, !TextFacts.pad_length. reflexivity.
Qed.

Lemma batch_digits (t : Z) : Text.all_units Text.is_digit (Spec.batch_of t) = true.
Proof.
  unfold Spec.batch_of.
  rewrite !TextFacts.all_units_append, !TextFacts.pad_digits. reflexivity.
Qed.

End CalendarFacts.

(** ** Running a call *)

Module Exec.

Import JS Env Uclbrt.
Local Open Scope js_scope.

Lemma requests_eq {A} (m : M A) (w : world) :
  requests m w = sent (snd (m w empty_state)).
Proof. unfold requests, run. now destruct (m w empty_state). Qed.

Lemma outcome_eq {A} (m : M A) (w : world) : outcome m w = fst (m w empty_state).
Proof. unfold outcome, run. now destruct (m w empty_state). Qed.

(** A computation that neither reads nor changes the store and the log. *)
Definition pure {A} (m : M A) : Prop :=
  forall w s, m w s = (fst (m w empty_state), s).

Lemma pure_ret {A} (a : A) : pure (ret a).
Proof. now intros w s. Qed.

Lemma pure_throw {A} k msg : pure (@throw A k msg).
Proof. now intros w s. Qed.

Lemma pure_ask : pure ask.
Proof. now intros w s. Qed.

Lemma pure_bind {A B} (m : M A) (k : A -> M B) :
  pure m -> (forall a, pure (k a)) -> pure (bind m k).
Proof.
  intros Hm Hk w s. unfold bind.
  rewrite (Hm w s), (Hm w empty_state).
  destruct (fst (m w empty_state)) as [a|e]; simpl.
  - now rewrite (Hk a w s), (Hk a w empty_state).
  - reflexivity.
Qed.

Lemma pure_try_catch {A} (m : M A) (h : error -> M A) :
  pure m -> (forall e, pure (h e)) -> pure (try_catch m h).
Proof.
  intros Hm Hh w s. unfold try_catch.
  rewrite (Hm w s), (Hm w empty_state).
  destruct (fst (m w empty_state)) as [a|e]; simpl.
  - reflexivity.
  - now rewrite (Hh e w s), (Hh e w empty_state).
Qed.

Lemma pure_get_field v k : pure (get_field v k).
Proof. destruct v; intros w st; reflexivity. Qed.

Lemma pure_checkCommunityNo c : pure (checkCommunityNo c).
Proof.
  unfold checkCommunityNo. destruct (communityNo c) as [n|];
    [destruct (n =? 0)|]; intros w s; reflexivity.
Qed.

Lemma pure_communityNo_toString c : pure (communityNo_toString c).
Proof.
  unfold communityNo_toString. destruct (communityNo c); intros w s; reflexivity.
Qed.

Lemma pure_new_batch : pure new_batch.
Proof. now intros w s. Qed.

Lemma pure_unix_seconds : pure unix_seconds.
Proof. now intros w s. Qed.

Lemma pure_Date_relocated tz dt : pure (Date_relocated tz dt).
Proof.
  intros w s. unfold Date_relocated, bind, ask.
  destruct (zone_offset w tz); [destruct dt|]; reflexivity.
Qed.

Lemma pure_Date_toISOString dt : pure (Date_toISOString dt).
Proof. destruct dt; intros w s; reflexivity. Qed.

Lemma pure_toCommunityTime c timeStr : pure (toCommunityTime c timeStr).
Proof.
  unfold toCommunityTime.
  destruct (timeStr =? "")%string; [apply pure_ret|].
  destruct (communityTimezone c =? localTimezone c)%string; [apply pure_ret|].
  destruct (negb _); [apply pure_throw|].
  apply pure_bind; [apply pure_ask | intros w].
  apply pure_bind; [apply pure_Date_relocated | intros dt2].
  apply pure_bind; [apply pure_Date_toISOString | intros iso].
  apply pure_ret.
Qed.

Lemma pure_expect_field result field msg : pure (expect_field result field msg).
Proof.
  unfold expect_field. apply pure_bind; [apply pure_get_field | intros v].
  destruct (negb (truthy v)); [apply pure_throw | apply pure_ret].
Qed.

Lemma pure_expect_success result : pure (expect_success result).
Proof.
  unfold expect_success. apply pure_bind; [apply pure_get_field | intros v].
  destruct (_ || _); [apply pure_throw | apply pure_ret].
Qed.

Lemma pure_publicEncrypt c text : pure (publicEncrypt c text).
Proof.
  intros w s. unfold publicEncrypt, bind, ask.
  destruct (rsa_encrypt w (publicKey c) (Text.utf8 text)); reflexivity.
Qed.

(** Running a pure step in front of a continuation. *)
Lemma bind_pure {A B} (m : M A) (k : A -> M B) w s :
  pure m ->
  bind m k w s =
    match outcome m w with
    | Ok a => k a w s
    | Throw e => (Throw e, s)
    end.
Proof.
  intros Hm. unfold bind. rewrite (Hm w s), outcome_eq.
  now destruct (fst (m w empty_state)).
Qed.

(** A pure continuation leaves the store and the log as they are. *)
Lemma bind_pure_tail {A B} (m : M A) (k : A -> M B) w s :
  (forall a, pure (k a)) -> snd (bind m k w s) = snd (m w s).
Proof.
  intros Hk. unfold bind. destruct (m w s) as [[a|e] s']; simpl; [|reflexivity].
  now rewrite (Hk a w s').
Qed.

(** [curlPost] hands exactly one request to axios, built from the object
    as it is in the store at that moment, whatever the reply. *)
Lemma curlPost_state c url auth data ct w s :
  snd (curlPost c url auth data ct w s)
  = mkState (heap s) (sent s ++ [axios_config url auth (nth data (heap s) []) ct]).
Proof.
  unfold curlPost, bind, read_object, try_catch, axios, post, bind.
  set (rq := axios_config url auth (nth data (heap s) []) ct).
  destruct (server w rq) as [reason | status reply]; simpl; [reflexivity|].
  destruct ((200 <=? status) && (status <? 300)); simpl.
  - destruct (negb (status =? 200)); simpl; [reflexivity|].
    destruct (negb (truthy reply) || negb (strict_eq_num (prop reply "status") 200));
      simpl; [|reflexivity].
    unfold bind. now destruct reply.
  - unfold rethrow. now destruct (truthy reply).
Qed.

End Exec.

Create HintDb pure.
#[export] Hint Resolve Exec.pure_ret Exec.pure_throw Exec.pure_ask Exec.pure_get_field
  Exec.pure_checkCommunityNo Exec.pure_communityNo_toString Exec.pure_new_batch
  Exec.pure_unix_seconds Exec.pure_toCommunityTime Exec.pure_expect_field
  Exec.pure_expect_success Exec.pure_publicEncrypt : pure.
#[export] Hint Extern 3 (Exec.pure (Env.bind _ _)) =>
  apply Exec.pure_bind; [|intro] : pure.
#[export] Hint Extern 3 (Exec.pure (Env.try_catch _ _)) =>
  apply Exec.pure_try_catch; [|intro] : pure.
#[export] Hint Extern 3 (Exec.pure (if ?b then _ else _)) => destruct b : pure.

Module Steps.

Import JS Env Uclbrt Exec.

Lemma bind_new_batch {B} (k : string -> M B) w s :
  bind new_batch k w s = k (Spec.batch_now w) w s.
Proof. reflexivity. Qed.

Lemma bind_unix_seconds {B} (k : Z -> M B) w s :
  bind unix_seconds k w s = k (now w / 1000) w s.
Proof. reflexivity. Qed.

Lemma bind_ask {B} (k : world -> M B) w s : bind ask k w s = k w w s.
Proof. reflexivity. Qed.

Lemma bind_ret {A B} (a : A) (k : A -> M B) w s : bind (ret a) k w s = k a w s.
Proof. reflexivity. Qed.

Lemma checkCommunityNo_set c n :
  communityNo c = Some n -> n <> 0 -> checkCommunityNo c = ret tt.
Proof.
  intros Hc Hn. unfold checkCommunityNo. rewrite Hc.
  now rewrite (proj2 (Z.eqb_neq n 0) Hn).
Qed.

Lemma communityNo_toString_set c n :
  communityNo c = Some n -> communityNo_toString c = ret (Text.decimal n).
Proof. intros Hc. unfold communityNo_toString. now rewrite Hc. Qed.

Lemma toCommunityTime_empty c : toCommunityTime c "" = ret ""%string.
Proof. reflexivity. Qed.

Lemma bind_curlPost {B} c url auth data ct (k : value -> M B) w s :
  bind (curlPost c url auth data ct) k w s
  = let s' := mkState (heap s)
                (sent s ++ [axios_config url auth (nth data (heap s) []) ct]) in
    match fst (curlPost c url auth data ct w s) with
    | Ok a => k a w s'
    | Throw e => (Throw e, s')
    end.
Proof.
  unfold bind.
  pose proof (curlPost_state c url auth data ct w s) as H.
  destruct (curlPost c url auth data ct w s) as [[a|e] s']; simpl in *; now subst.
Qed.

Lemma bind_new_object {B} fs (k : ref -> M B) w s :
  bind (new_object fs) k w s
  = k (List.length (heap s)) w (mkState (heap s ++ [literal fs]) (sent s)).
Proof. reflexivity. Qed.

Lemma bind_set_prop {B} r key v (k : unit -> M B) w s :
  bind (set_prop r key v) k w s
  = k tt w (mkState (update (heap s) r (set (nth r (heap s) []) key v)) (sent s)).
Proof. reflexivity. Qed.

Lemma bind_getSig2 {B} c r (k : string -> M B) w s :
  bind (getSig2 c r) k w s
  = k (Text.hex (Digest.md5 (Text.utf8
         (Text.join "" (map join_item (values (nth r (heap s) []))) ++ authToken c)))) w s.
Proof. reflexivity. Qed.

Lemma bind_getSig3 {B} c r (k : string -> M B) w s :
  bind (getSig3 c r) k w s
  = let o := set (nth r (heap s) []) "authToken" (VStr (authToken c)) in
    let s' := mkState (update (heap s) r o) (sent s) in
    k (Text.hex (Digest.sha1 (Text.utf8 (objectToQuery (nth r (heap s') []))))) w s'.
Proof. reflexivity. Qed.

End Steps.

(** One step of a call: a pure step is replaced by its outcome, which is
    then split into its two cases; a step on the store is carried out. *)
Ltac run_pure :=
  match goal with
  | |- context [Env.bind ?m ?k ?w ?s] =>
      rewrite (Exec.bind_pure m k w s) by auto with pure;
      let E := fresh "E" in destruct (Uclbrt.outcome m w) eqn:E
  end.

Ltac run_store :=
  lazymatch goal with
  | |- context [Env.bind Uclbrt.new_batch ?k ?w ?s] =>
      rewrite (Steps.bind_new_batch k w s)
  | |- context [Env.bind Uclbrt.unix_seconds ?k ?w ?s] =>
      rewrite (Steps.bind_unix_seconds k w s)
  | |- context [Env.bind Env.ask ?k ?w ?s] =>
      rewrite (Steps.bind_ask k w s)
  | |- context [Env.bind (Env.ret ?a) ?k ?w ?s] =>
      rewrite (Steps.bind_ret a k w s)
  | |- context [Env.bind (Env.new_object ?f) ?k ?w ?s] =>
      rewrite (Steps.bind_new_object f k w s)
  | |- context [Env.bind (Env.set_prop ?r ?key ?v) ?k ?w ?s] =>
      rewrite (Steps.bind_set_prop r key v k w s)
  | |- context [Env.bind (Uclbrt.getSig2 ?c ?r) ?k ?w ?s] =>
      rewrite (Steps.bind_getSig2 c r k w s)
  | |- context [Env.bind (Uclbrt.getSig3 ?c ?r) ?k ?w ?s] =>
      rewrite (Steps.bind_getSig3 c r k w s)
  end;
  cbv beta zeta;
  cbn [Env.heap Env.sent Env.empty_state List.length app nth Env.update].

(** A whole call, step by step. *)
Ltac exec :=
  repeat first [ run_store
               | rewrite Exec.bind_pure_tail by auto with pure
               | run_pure ].

(** ** Operations without a community id (claim C1) *)

Section UnsetCommunity.

Import JS Env Uclbrt.

(** The scenario of the specification: the client built from
    [{accountSid: "A", authToken: "T"}] has no community id, and its
    create-room-key call stops at [checkCommunityNo] without a request. *)
Example constructed_client :
  constructor (Sample.shanghai (Sample.replies 200 VNull)) Sample.config_AT
  = Ok Sample.client_AT.
Proof. reflexivity. Qed.

Example create_room_key_unset :
  run (createRoomKey Sample.client_AT "138" "86" "101" "" "" "" "" 0 0)
      (Sample.shanghai (Sample.replies 200 VNull))
  = (Throw (mkError ConfigurationError "communityNo cannot be empty."), []).
Proof. reflexivity. Qed.

(** C1.  With [communityNo] unset every operation stops before any
    request is issued, with the error [Spec.unset_error] names: the
    operations that call [checkCommunityNo] with its ConfigurationError
    (after the test of [mobile] in the link operations), whereas
    [getRoomCardInfo], [getRecordsByRoom], [fetchRoomInfo] and [getBoxInfo],
    which have no such call, with the TypeError of
    [this.communityNo.toString()].  In particular, on the client of the
    scenario [fetchRoomInfo()] throws that TypeError and not the
    ConfigurationError of the claim. *)
Theorem unset_community_outcome :
  (forall (c : client) (w : world) (op : operation),
     run (invoke (with_communityNo c None) op) w = (Throw (Spec.unset_error op), []))
  /\ run (fetchRoomInfo Sample.client_AT) (Sample.shanghai (Sample.replies 200 VNull))
     = (Throw (mkError TypeError "Cannot read properties of undefined (reading 'toString')"),
        [])
  /\ Spec.requires_community FetchRoomInfo
  /\ Spec.failure_site
       (outcome (invoke Sample.client_AT FetchRoomInfo)
          (Sample.shanghai (Sample.replies 200 VNull)))
     <> Some ConfigurationError.
Proof.
  split; [|repeat split; discriminate].
  intros c w op. destruct op; try reflexivity.
  all: cbv [invoke getLink getRoomKeyLink getFloorKeyLink getBuildingKeyLink
            Spec.unset_error run];
    destruct (mobile =? "")%string; reflexivity.
Qed.

End UnsetCommunity.

(** ** The batch signature (claim C3) *)

Module BatchFacts.

Import JS Env Uclbrt Exec Steps.

Lemma base64_nonempty (bs : list Z) : bs <> [] -> Digest.base64 bs <> ""%string.
Proof.
  unfold Digest.base64. destruct bs as [|a [|b [|x r]]]; intros H; [congruence| | |];
    cbn [Digest.base64_fuel List.length]; discriminate.
Qed.

Lemma getAuth_nonempty (c : client) (batch : string) :
  (getAuth c batch =? "")%string = false.
Proof.
  apply String.eqb_neq, base64_nonempty.
  rewrite TextFacts.utf8_append. intros H. apply app_eq_nil in H as [_ H].
  now apply (TextFacts.utf8_nonempty ":"%char batch).
Qed.

(** Every request of a batch-family call is the one [curlPost] builds from
    the action's URL, the signature and the auth text of the same batch. *)
Lemma batch_requests (c : client) (w : world) (op : operation) (action : string)
  (rq : request) :
  Spec.batch_action op = Some action ->
  In rq (requests (invoke c op) w) ->
  exists o,
    rq = axios_config
           (apiHost c ++ "?c=Qrcode&a=" ++ action ++ "&sig=" ++ getSig c (Spec.batch_now w))
           (getAuth c (Spec.batch_now w)) o ApplicationJson.
Proof.
  intros Hop. rewrite requests_eq.
  destruct op; try discriminate Hop; injection Hop as <-;
    cbv [invoke createRoomKey createFloorKey createBuildingKey create createRoomLostKey
         generateQRPRoomCipher reportCardLost getRoomKeyImage getFloorKeyImage
         getBuildingKeyImage getRoomKeyString getQRPRoomCipher getShare cancelRoomKey
         cancelFloorKey cancelBuildingKey cancel getRoomCardInfo].
  all: exec.
  all: rewrite ?curlPost_state; cbn [sent snd app heap empty_state]; intros Hin.
  all: try (destruct Hin as [<- | []]; eexists; reflexivity).
  all: destruct Hin.
Qed.

End BatchFacts.

Section BatchSignature.

Import JS Env Uclbrt.



End BatchSignature.

(** ** Response validation (claim C2) *)

Module ReplyFacts.

Import JS Env Uclbrt Exec Steps.

(** What [curlPost] returns or throws, by the answer of the server. *)
Lemma curlPost_outcome c url auth data ct w s :
  fst (curlPost c url auth data ct w s)
  = match server w (axios_config url auth (nth data (heap s) []) ct) with
    | NetworkFailure reason => Throw (mkError TransportError reason)
    | HttpResponse status reply =>
        if negb (status =? 200)
        then Throw (mkError TransportError (Spec.transport_message status reply))
        else if negb (truthy reply) || negb (strict_eq_num (prop reply "status") 200)
        then
          match reply with
          | VUndef =>
              Throw (mkError TypeError "Cannot read properties of undefined (reading 'info')")
          | VNull =>
              Throw (mkError TypeError "Cannot read properties of null (reading 'info')")
          | _ => Throw (mkError ServerError (error_message (prop reply "info")))
          end
        else Ok reply
    end.
Proof.
  unfold curlPost, bind, read_object, try_catch, axios, post, bind, Spec.transport_message.
  set (rq := axios_config url auth (nth data (heap s) []) ct).
  destruct (server w rq) as [reason | status reply]; simpl; [reflexivity|].
  destruct (status =? 200) eqn:E200.
  - apply Z.eqb_eq in E200. subst status. simpl.
    destruct (negb (truthy reply) || negb (strict_eq_num (prop reply "status") 200)) eqn:E;
      simpl; [|reflexivity].
    destruct reply; try reflexivity.
  - simpl. destruct ((200 <=? status) && (status <? 300)); simpl.
    + rewrite E200. reflexivity.
    + unfold rethrow. destruct (truthy reply); reflexivity.
Qed.

Lemma curlPost_run c url auth data ct w s :
  curlPost c url auth data ct w s
  = (fst (curlPost c url auth data ct w s),
     mkState (heap s) (sent s ++ [axios_config url auth (nth data (heap s) []) ct])).
Proof.
  rewrite <- (curlPost_state c url auth data ct w s).
  now destruct (curlPost c url auth data ct w s).
Qed.

Lemma strict_eq_num_iff (v : value) (n : Z) : strict_eq_num v n = true <-> v = VNum n.
Proof.
  destruct v; simpl; try (split; [discriminate | intros H; discriminate H]).
  rewrite Z.eqb_eq. split; [now intros -> | now intros [= ->]].
Qed.

Lemma expect_field_outcome (fields : obj) (field msg : string) (w : world) :
  outcome (expect_field (VObj fields) field msg) w
  = if truthy (get fields field) then Ok (get fields field)
    else Throw (mkError UnexpectedResponseError msg).
Proof.
  rewrite outcome_eq. unfold expect_field, bind, get_field, ret.
  now destruct (truthy (get fields field)).
Qed.


(** A posted object: the single request, and the verdict on the answer. *)
Lemma post_outcome c url auth fields ct w :
  let call := bind (new_object fields) (fun data => curlPost c url auth data ct) in
  let rq := axios_config url auth (literal fields) ct in
  requests call w = [rq]
  /\ outcome call w
     = match server w rq with
       | NetworkFailure reason => Throw (mkError TransportError reason)
       | HttpResponse status reply =>
           if negb (status =? 200)
           then Throw (mkError TransportError (Spec.transport_message status reply))
           else if negb (truthy reply) || negb (strict_eq_num (prop reply "status") 200)
           then
             match reply with
             | VUndef =>
                 Throw (mkError TypeError "Cannot read properties of undefined (reading 'info')")
             | VNull =>
                 Throw (mkError TypeError "Cannot read properties of null (reading 'info')")
             | _ => Throw (mkError ServerError (error_message (prop reply "info")))
             end
           else Ok reply
       end.
Proof.
  intros call rq. subst call. split.
  - rewrite requests_eq, bind_new_object, curlPost_state. reflexivity.
  - rewrite outcome_eq, bind_new_object, curlPost_outcome. reflexivity.
Qed.

(** [create] with the two times left out, against a server that answers
    HTTP 200 with the object [reply]. *)
Lemma create_outcome c w n mobile areaCode roomNo floorNo buildNo sendSms cardType times
  opentype reply :
  communityNo c = Some n -> n <> 0 ->
  (forall rq, server w rq = HttpResponse 200 (VObj reply)) ->
  outcome (create c mobile areaCode roomNo floorNo buildNo "" "" sendSms cardType times
             opentype) w
  = if strict_eq_num (get reply "status") 200
    then if truthy (get reply "cardNo") then Ok (get reply "cardNo")
         else Throw (mkError UnexpectedResponseError cardNo_missing)
    else Throw (mkError ServerError (error_message (get reply "info"))).
Proof.
  intros Hc Hn Hsrv. rewrite outcome_eq. unfold create.
  rewrite (checkCommunityNo_set c n Hc Hn), (communityNo_toString_set c n Hc),
    toCommunityTime_empty.
  repeat run_store.
  rewrite bind_curlPost, curlPost_outcome, Hsrv. cbv zeta.
  cbn [Z.eqb Pos.eqb negb truthy orb prop].
  destruct (strict_eq_num (get reply "status") 200); cbn [negb fst]; [|reflexivity].
  unfold expect_field, bind, get_field, ret.
  destruct (truthy (get reply "cardNo")); reflexivity.
Qed.

End ReplyFacts.

Section ResponseValidation.

Import JS Env Uclbrt.

(** C2, as the claim states it, fails: a reply without a [status] field
    does not pass the check of [curlPost].  The server answers HTTP 200
    with [{cardNo: "X"}]; [create] throws the error of the status check
    instead of returning ["X"]. *)
Lemma reply_without_status_is_rejected :
  let w := Sample.shanghai (Sample.replies 200 (VObj [("cardNo", VStr "X")])) in
  lookup [("cardNo", VStr "X")] "status" = None
  /\ outcome (create Sample.client_AT_set "138" "86" "101" "" "" "" "" 0 0 0 0) w
     = Throw (mkError ServerError "")
  /\ outcome (create Sample.client_AT_set "138" "86" "101" "" "" "" "" 0 0 0 0) w
     <> Ok (VStr "X").
Proof. vm_compute. repeat split; discriminate. Qed.

(** C2, amended.  For every call of [curlPost]: exactly one request goes
    out; without an answer, or with an HTTP status other than 200, the
    call fails with TransportError; with HTTP 200 and a reply whose
    [status] is not the number 200 -- a reply without that field
    included -- it fails with ServerError; with HTTP 200 and [status] 200
    the reply is handed on.  The field an operation expects is returned
    when truthy and is an UnexpectedResponseError otherwise.  For [create]:
    [{status: 200, cardNo: "X"}] gives ["X"], [{status: 500}] a
    ServerError, [{status: 200}] an UnexpectedResponseError. *)
Theorem response_validation :
  (forall c url auth fields ct w,
     let call := bind (new_object fields) (fun data => curlPost c url auth data ct) in
     exists rq,
       requests call w = [rq]
       /\ (forall reason, server w rq = NetworkFailure reason ->
           Spec.failure_site (outcome call w) = Some TransportError)
       /\ (forall status reply, server w rq = HttpResponse status reply -> status <> 200 ->
           Spec.failure_site (outcome call w) = Some TransportError)
       /\ (forall reply, server w rq = HttpResponse 200 (VObj reply) ->
           get reply "status" <> VNum 200 ->
           Spec.failure_site (outcome call w) = Some ServerError)
       /\ (forall reply, server w rq = HttpResponse 200 (VObj reply) ->
           get reply "status" = VNum 200 ->
           outcome call w = Ok (VObj reply)))
  /\ (forall reply field msg w,
        outcome (expect_field (VObj reply) field msg) w
        = if truthy (get reply field) then Ok (get reply field)
          else Throw (mkError UnexpectedResponseError msg))
  /\ (forall c w n mobile areaCode roomNo floorNo buildNo sendSms cardType times opentype reply,
        communityNo c = Some n -> n <> 0 ->
        (forall rq, server w rq = HttpResponse 200 (VObj reply)) ->
        let r := outcome (create c mobile areaCode roomNo floorNo buildNo "" "" sendSms
                            cardType times opentype) w in
        (reply = [("status", VNum 200); ("cardNo", VStr "X")] -> r = Ok (VStr "X"))
        /\ (reply = [("status", VNum 500)] -> Spec.failure_site r = Some ServerError)
        /\ (reply = [("status", VNum 200)] ->
            Spec.failure_site r = Some UnexpectedResponseError)).
Proof.
  split; [|split].
  - intros c url auth fields ct w call.
    destruct (ReplyFacts.post_outcome c url auth fields ct w) as [Hrq Hout].
    fold call in Hrq, Hout.
    exists (axios_config url auth (literal fields) ct).
    split; [exact Hrq|]. rewrite Hout. repeat split.
    + intros reason ->. reflexivity.
    + intros status reply -> Hs.
      now rewrite (proj2 (Z.eqb_neq status 200) Hs).
    + intros reply -> Hs. cbn [Z.eqb Pos.eqb negb truthy orb prop].
      destruct (strict_eq_num (get reply "status") 200) eqn:E; [|reflexivity].
      now apply ReplyFacts.strict_eq_num_iff in E.
    + intros reply -> Hs. cbn [Z.eqb Pos.eqb negb truthy orb prop].
      now rewrite (proj2 (ReplyFacts.strict_eq_num_iff _ _) Hs).
  - intros. apply ReplyFacts.expect_field_outcome.
  - intros c w n mobile areaCode roomNo floorNo buildNo sendSms cardType times opentype
      reply Hc Hn Hsrv r. subst r.
    rewrite (ReplyFacts.create_outcome c w n _ _ _ _ _ _ _ _ _ reply Hc Hn Hsrv).
    repeat split; intros ->; reflexivity.
Qed.

(** The three replies of the claim, given to a client whose community id
    is set. *)
Lemma response_validation_witness :
  let c := Sample.client_AT_set in
  let create_with reply :=
    outcome (create c "138" "86" "101" "" "" "" "" 0 0 0 0)
            (Sample.shanghai (Sample.replies 200 (VObj reply))) in
  create_with [("status", VNum 200); ("cardNo", VStr "X")] = Ok (VStr "X")
  /\ Spec.failure_site (create_with [("status", VNum 500)]) = Some ServerError
  /\ Spec.failure_site (create_with [("status", VNum 200)]) = Some UnexpectedResponseError.
Proof.
  intros c create_with.
  pose proof (proj2 (proj2 response_validation)) as H.
  assert (Hc : communityNo c = Some 123456789) by reflexivity.
  assert (Hn : 123456789 <> 0) by lia.
  split; [|split].
  - apply (H c (Sample.shanghai
                  (Sample.replies 200 (VObj [("status", VNum 200); ("cardNo", VStr "X")])))
             123456789 "138" "86" "101" "" "" 0 0 0 0 _ Hc Hn (fun _ => eq_refl)).
    reflexivity.
  - apply (H c (Sample.shanghai (Sample.replies 200 (VObj [("status", VNum 500)])))
             123456789 "138" "86" "101" "" "" 0 0 0 0 _ Hc Hn (fun _ => eq_refl)).
    reflexivity.
  - apply (H c (Sample.shanghai (Sample.replies 200 (VObj [("status", VNum 200)])))
             123456789 "138" "86" "101" "" "" 0 0 0 0 _ Hc Hn (fun _ => eq_refl)).
    reflexivity.
Defined.

End ResponseValidation.

(** ** Objects and sorted keys *)

Module ObjFacts.

Import JS.

Lemma has_in (o : obj) (k : string) : has o k = true <-> In k (keys o).
Proof.
  unfold has. induction o as [|[k' v'] o IH]; simpl; [split; [discriminate | tauto]|].
  destruct (k' =? k)%string eqn:E.
  - apply String.eqb_eq in E. subst. split; [now left | reflexivity].
  - apply String.eqb_neq in E. rewrite IH. split; [now right | intros [H|H]; tauto].
Qed.

Lemma has_false (o : obj) (k : string) : has o k = false <-> ~ In k (keys o).
Proof.
  rewrite <- has_in. destruct (has o k); split; congruence.
Qed.

Lemma lookup_overwrite_same (o : obj) (k : string) (v : value) :
  In k (keys o) -> lookup (overwrite o k v) k = Some v.
Proof.
  induction o as [|[k' v'] o IH]; simpl; [tauto|].
  intros Hin. destruct (k' =? k)%string eqn:E; simpl; rewrite E; [reflexivity|].
  apply IH. apply String.eqb_neq in E. destruct Hin; [contradiction | assumption].
Qed.

Lemma lookup_overwrite_other (o : obj) (k k' : string) (v : value) :
  k' <> k -> lookup (overwrite o k v) k' = lookup o k'.
Proof.
  intros Hk. induction o as [|[k0 v0] o IH]; simpl; [reflexivity|].
  destruct (k0 =? k)%string eqn:E; simpl.
  - apply String.eqb_eq in E. subst k0.
    now rewrite (proj2 (String.eqb_neq k k') (not_eq_sym Hk)).
  - now rewrite IH.
Qed.

Lemma lookup_insert_same (o : obj) (k : string) (v : value) :
  ~ In k (keys o) -> lookup (insert_index o k v) k = Some v.
Proof.
  induction o as [|[k' v'] o IH]; simpl; intros Hk.
  - now rewrite String.eqb_refl.
  - destruct (Text.is_array_index k' && _); simpl.
    + rewrite (proj2 (String.eqb_neq k' k)) by tauto. apply IH. tauto.
    + now rewrite String.eqb_refl.
Qed.

Lemma lookup_insert_other (o : obj) (k k' : string) (v : value) :
  k' <> k -> lookup (insert_index o k v) k' = lookup o k'.
Proof.
  intros Hk. induction o as [|[k0 v0] o IH]; simpl.
  - now rewrite (proj2 (String.eqb_neq k k') (not_eq_sym Hk)).
  - destruct (Text.is_array_index k0 && _); simpl.
    + now rewrite IH.
    + now rewrite (proj2 (String.eqb_neq k k') (not_eq_sym Hk)).
Qed.

Lemma lookup_app_same (o : obj) (k : string) (v : value) :
  ~ In k (keys o) -> lookup (o ++ [(k, v)])%list k = Some v.
Proof.
  induction o as [|[k' v'] o IH]; simpl; intros Hk.
  - now rewrite String.eqb_refl.
  - rewrite (proj2 (String.eqb_neq k' k)) by tauto. apply IH. tauto.
Qed.

Lemma lookup_app_other (o : obj) (k k' : string) (v : value) :
  k' <> k -> lookup (o ++ [(k, v)])%list k' = lookup o k'.
Proof.
  intros Hk. induction o as [|[k0 v0] o IH]; simpl.
  - now rewrite (proj2 (String.eqb_neq k k') (not_eq_sym Hk)).
  - now rewrite IH.
Qed.

Lemma get_set_same (o : obj) (k : string) (v : value) : get (set o k v) k = v.
Proof.
  unfold get, set. destruct (has o k) eqn:H.
  - apply has_in in H. now rewrite lookup_overwrite_same.
  - apply has_false in H. destruct (Text.is_array_index k).
    + now rewrite lookup_insert_same.
    + now rewrite lookup_app_same.
Qed.

Lemma get_set_other (o : obj) (k k' : string) (v : value) :
  k' <> k -> get (set o k v) k' = get o k'.
Proof.
  intros Hk. unfold get, set. destruct (has o k).
  - now rewrite lookup_overwrite_other.
  - destruct (Text.is_array_index k).
    + now rewrite lookup_insert_other.
    + now rewrite lookup_app_other.
Qed.

Lemma keys_overwrite (o : obj) (k : string) (v : value) : keys (overwrite o k v) = keys o.
Proof.
  induction o as [|[k' v'] o IH]; simpl; [reflexivity|].
  destruct (k' =? k)%string; simpl; [reflexivity | now rewrite IH].
Qed.

Lemma keys_insert_index (o : obj) (k : string) (v : value) :
  Permutation (keys (insert_index o k v)) (k :: keys o).
Proof.
  induction o as [|[k' v'] o IH]; simpl; [reflexivity|].
  destruct (Text.is_array_index k' && _); simpl; [|reflexivity].
  rewrite IH. apply perm_swap.
Qed.

(** Assigning a property adds its key when it is new, and no other. *)
Lemma keys_set (o : obj) (k : string) (v : value) :
  Permutation (keys (set o k v)) (if has o k then keys o else k :: keys o).
Proof.
  unfold set. destruct (has o k).
  - now rewrite keys_overwrite.
  - destruct (Text.is_array_index k).
    + apply keys_insert_index.
    + unfold keys. rewrite map_app. simpl. symmetry. apply Permutation_cons_append.
Qed.

Lemma keys_set_NoDup (o : obj) (k : string) (v : value) :
  NoDup (keys o) -> NoDup (keys (set o k v)).
Proof.
  intros H. eapply Permutation_NoDup; [symmetry; apply keys_set|].
  destruct (has o k) eqn:E; [exact H|].
  constructor; [now apply has_false | exact H].
Qed.

Lemma in_overwrite (o : obj) (k : string) (v : value) :
  In k (keys o) -> In (k, v) (overwrite o k v).
Proof.
  induction o as [|[k' v'] o IH]; simpl; [tauto|].
  intros Hin. destruct (k' =? k)%string eqn:E.
  - apply String.eqb_eq in E. subst. now left.
  - apply String.eqb_neq in E. right. apply IH. tauto.
Qed.

Lemma in_insert_index (o : obj) (k : string) (v : value) : In (k, v) (insert_index o k v).
Proof.
  induction o as [|[k' v'] o IH]; simpl; [now left|].
  destruct (Text.is_array_index k' && _); [now right | now left].
Qed.

Lemma in_set (o : obj) (k : string) (v : value) : In (k, v) (set o k v).
Proof.
  unfold set. destruct (has o k) eqn:H.
  - apply in_overwrite. now apply has_in.
  - destruct (Text.is_array_index k); [apply in_insert_index|].
    apply in_or_app. right. now left.
Qed.

Lemma in_keys_set (o : obj) (k : string) (v : value) : In k (keys (set o k v)).
Proof.
  unfold keys. change k with (fst (k, v)) at 1. apply in_map, in_set.
Qed.

(** A new key that is not an array index goes last. *)
Lemma set_fresh (o : obj) (k : string) (v : value) :
  ~ In k (keys o) -> Text.is_array_index k = false -> set o k v = (o ++ [(k, v)])%list.
Proof.
  intros Hk Hi. unfold set. now rewrite (proj2 (has_false o k) Hk), Hi.
Qed.

Lemma fold_set_fresh (fields acc : obj) :
  NoDup (keys acc ++ keys fields) ->
  Forall (fun k => Text.is_array_index k = false) (keys fields) ->
  fold_left (fun o kv => set o (fst kv) (snd kv)) fields acc = (acc ++ fields)%list.
Proof.
  revert acc. induction fields as [|[k v] fields IH]; intros acc H Hi; simpl.
  - now rewrite app_nil_r.
  - simpl in H, Hi. inversion Hi as [|? ? Hk Hrest]; subst. rewrite set_fresh.
    + rewrite IH; [now rewrite <- app_assoc | | exact Hrest].
      unfold keys in *. rewrite map_app. simpl. now rewrite <- app_assoc.
    + intros Hin. apply NoDup_remove_2 in H. apply H, in_or_app. now left.
    + exact Hk.
Qed.

(** An object literal with pairwise distinct keys, none of them an array
    index, has its properties in the order they are written. *)
Lemma literal_plain (fields : obj) : Spec.plain_keys fields -> literal fields = fields.
Proof. intros [Hnd Hi]. unfold literal. now rewrite fold_set_fresh. Qed.

Lemma fold_set_keys_NoDup (fields acc : obj) :
  NoDup (keys acc) ->
  NoDup (keys (fold_left (fun o kv => set o (fst kv) (snd kv)) fields acc)).
Proof.
  revert acc. induction fields as [|[k v] fields IH]; intros acc H; simpl; [exact H|].
  apply IH, keys_set_NoDup, H.
Qed.

Lemma literal_keys_NoDup (fields : obj) : NoDup (keys (literal fields)).
Proof. apply fold_set_keys_NoDup. constructor. Qed.

(** Array indices are enumerated first, whatever the order of creation. *)
Example array_indices_come_first :
  values (literal [("b", VStr "x"); ("2", VStr "y"); ("1", VStr "z")])
  = [VStr "z"; VStr "y"; VStr "x"].
Proof. reflexivity. Qed.

(** *** [sort] *)

Lemma sort_insert_perm (k : string) (l : list string) :
  Permutation (sort_insert k l) (k :: l).
Proof.
  induction l as [|x l IH]; simpl; [reflexivity|].
  destruct (String.leb k x); [reflexivity|].
  rewrite IH. apply perm_swap.
Qed.

Lemma sort_perm (l : list string) : Permutation (sort l) l.
Proof.
  induction l as [|x l IH]; simpl; [reflexivity|].
  rewrite sort_insert_perm. now constructor.
Qed.

Lemma sort_insert_sorted (k : string) (l : list string) :
  Sorted Spec.key_le l -> Sorted Spec.key_le (sort_insert k l).
Proof.
  induction 1 as [|x l Hs IH Hd]; simpl; [repeat constructor|].
  destruct (String.leb k x) eqn:E.
  - constructor; [now constructor | now constructor].
  - constructor; [exact IH|].
    assert (Hxk : Spec.key_le x k) by (destruct (String.leb_total k x); [congruence | assumption]).
    destruct Hd as [|y l Hxy]; simpl; [now constructor|].
    destruct (String.leb k y); now constructor.
Qed.

Lemma sort_sorted (l : list string) : Sorted Spec.key_le (sort l).
Proof.
  induction l as [|x l IH]; simpl; [constructor | now apply sort_insert_sorted].
Qed.

Lemma le_neq_lt (a b : string) : Spec.key_le a b -> a <> b -> Spec.key_lt a b.
Proof.
  unfold Spec.key_le, Spec.key_lt, String.leb, String.ltb. intros Hle Hne.
  destruct (String.compare a b) eqn:E; try reflexivity; try discriminate.
  now apply String.compare_eq_iff in E.
Qed.

Lemma sorted_strict (l : list string) : NoDup l -> Sorted Spec.key_le l -> Sorted Spec.key_lt l.
Proof.
  intros Hnd Hs. induction Hs as [|x l Hs IH Hd]; [constructor|].
  inversion Hnd as [|? ? Hx Hl]; subst.
  constructor; [now apply IH|].
  destruct Hd as [|y l Hxy]; constructor.
  apply le_neq_lt; [exact Hxy|]. intros ->. apply Hx. now left.
Qed.

(** The keys of an object, sorted: every key once, strictly ascending. *)
Lemma sorted_keys (o : obj) :
  NoDup (keys o) -> Permutation (sort (keys o)) (keys o) /\ Sorted Spec.key_lt (sort (keys o)).
Proof.
  intros H. split; [apply sort_perm|].
  apply sorted_strict; [|apply sort_sorted].
  eapply Permutation_NoDup; [symmetry; apply sort_perm | exact H].
Qed.

End ObjFacts.

(** ** The concatenation signature (claim C4) *)

Section ConcatenationSignature.

Import JS Env Uclbrt.

(** C4, as the claim states it, fails: two insertion orders of one mapping
    need not give two digests.  [{a: "1", b: "1"}] inserted as a, b and as
    b, a are different objects with the same signature. *)
Lemma reordering_may_keep_the_digest :
  let ab := [("a", VStr "1"); ("b", VStr "1")] in
  let ba := [("b", VStr "1"); ("a", VStr "1")] in
  let w := Sample.shanghai (Sample.replies 200 VNull) in
  Permutation ab ba /\ keys (literal ab) <> keys (literal ba)
  /\ Spec.sig2 Sample.client_AT ab w = Spec.sig2 Sample.client_AT ba w.
Proof.
  cbv zeta. split; [apply perm_swap|]. split; [discriminate | reflexivity].
Qed.

(** C4, amended.  For a mapping of field names, the signature is the
    lowercase hexadecimal MD5 digest of the values in insertion order,
    concatenated, followed by the authToken; it depends on the order of insertion through that text
    only: for [{a: "1", b: "2"}] and authToken ["T"] the orders a, b and
    b, a give different digests. *)
Theorem concatenation_signature (c : client) (fields : obj) (w : world) :
  Spec.plain_keys fields ->
  Spec.sig2 c fields w
  = Ok (Text.hex (Digest.md5
          (Text.utf8 (Text.join "" (map (fun kv => join_item (snd kv)) fields)
                      ++ authToken c))))
  /\ Spec.sig2 Sample.client_AT [("a", VStr "1"); ("b", VStr "2")] w
     <> Spec.sig2 Sample.client_AT [("b", VStr "2"); ("a", VStr "1")] w.
Proof.
  intros Hnd. unfold Spec.sig2. split.
  - rewrite Exec.outcome_eq, Steps.bind_new_object.
    unfold getSig2, bind, read_object, ret.
    cbn [heap empty_state List.length app nth fst].
    rewrite (ObjFacts.literal_plain fields Hnd).
    unfold values. now rewrite map_map.
  - vm_compute. discriminate.
Qed.

Lemma concatenation_signature_witness :
  let w := Sample.shanghai (Sample.replies 200 VNull) in
  Spec.sig2 Sample.client_AT [("a", VStr "1"); ("b", VStr "2")] w
  = Ok "ca9061d006be026ab4566599b3326d8f"%string
  /\ Spec.sig2 Sample.client_AT [("b", VStr "2"); ("a", VStr "1")] w
     = Ok "7cefb884a360254b133562c436459ed2"%string.
Proof.
  intros w.
  assert (Hab : Spec.plain_keys [("a", VStr "1"); ("b", VStr "2")]).
  { split; repeat constructor; simpl; intuition discriminate. }
  assert (Hba : Spec.plain_keys [("b", VStr "2"); ("a", VStr "1")]).
  { split; repeat constructor; simpl; intuition discriminate. }
  split.
  - rewrite (proj1 (concatenation_signature Sample.client_AT _ w Hab)).
    vm_compute. reflexivity.
  - rewrite (proj1 (concatenation_signature Sample.client_AT _ w Hba)).
    vm_compute. reflexivity.
Defined.

End ConcatenationSignature.

(** ** The canonical-query signature (claim C5) *)

Section CanonicalSignature.

Import JS Env Uclbrt.

(** C5.  The signature [getSig3] gives for a mapping is the lowercase
    hexadecimal SHA-1 digest of the text [k1=v1&k2=v2&...], values
    unescaped, over the keys of the mapping extended with [authToken] (set
    to the client's authToken), each key once, in strictly ascending
    order. *)
Theorem canonical_query_signature (c : client) (fields : obj) (w : world) :
  let o := set (literal fields) "authToken" (VStr (authToken c)) in
  exists ks,
    outcome (bind (new_object fields) (getSig3 c)) w
    = Ok (Text.hex (Digest.sha1 (Text.utf8
            (Text.join "&" (map (fun k => (k ++ "=" ++ to_str (get o k))%string) ks)))))
    /\ Permutation ks (keys o)
    /\ Sorted Spec.key_lt ks
    /\ In "authToken"%string ks
    /\ get o "authToken" = VStr (authToken c)
    /\ (forall k, k <> "authToken"%string -> get o k = get (literal fields) k).
Proof.
  intros o. exists (sort (keys o)).
  assert (Hnd : NoDup (keys o))
    by apply ObjFacts.keys_set_NoDup, ObjFacts.literal_keys_NoDup.
  destruct (ObjFacts.sorted_keys o Hnd) as [Hperm Hsorted].
  split; [|split; [exact Hperm | split; [exact Hsorted | split; [|split]]]].
  - rewrite Exec.outcome_eq, Steps.bind_new_object. reflexivity.
  - apply (Permutation_in _ (Permutation_sym Hperm)). apply ObjFacts.in_keys_set.
  - apply ObjFacts.get_set_same.
  - intros k Hk. now apply ObjFacts.get_set_other.
Qed.

(** The signature of [fetchRoomInfo]'s mapping, on the sample client. *)
Example canonical_query_signature_sample :
  outcome (bind (new_object [("accountSid", VStr "A"); ("timestamp", VNum 1735732800);
                             ("communityNo", VStr "123456789")])
                (getSig3 Sample.client_AT))
          (Sample.shanghai (Sample.replies 200 VNull))
  = Ok (Text.hex (Digest.sha1 (Text.utf8
          "accountSid=A&authToken=T&communityNo=123456789&timestamp=1735732800"))).
Proof. vm_compute. reflexivity. Qed.

End CanonicalSignature.

(** ** The time normaliser (claims C6 and C7) *)

Module TimeFacts.

Import JS Env Uclbrt.

Lemma match_pairs_step (a b : ascii) (s : string) :
  match_pairs (String a (String b s))
  = if is_line_terminator a || is_line_terminator b then match_pairs (String b s)
    else String a (String b "") :: match_pairs s.
Proof. reflexivity. Qed.

(** [match(/.{2}/g)] finds at most one pair per two characters, and
    exactly that many in a text without line terminators. *)
Lemma match_pairs_bound (s : string) :
  (2 * List.length (match_pairs s) <= String.length s)%nat
  /\ forall a, (2 * List.length (match_pairs (String a s)) <= S (String.length s))%nat.
Proof.
  induction s as [|b s [IH1 IH2]].
  - split; [simpl; lia | intros a; simpl; lia].
  - split; [apply IH2|]. intros a. rewrite match_pairs_step.
    destruct (is_line_terminator a || is_line_terminator b).
    + specialize (IH2 b). cbn [String.length]. lia.
    + cbn [List.length String.length]. lia.
Qed.

Lemma match_pairs_single_line (s : string) :
  (Spec.single_line s = true ->
   List.length (match_pairs s) = Nat.div2 (String.length s))
  /\ forall a, Spec.single_line (String a s) = true ->
       List.length (match_pairs (String a s)) = Nat.div2 (S (String.length s)).
Proof.
  unfold Spec.single_line.
  induction s as [|b s [IH1 IH2]].
  - split; [reflexivity | intros a _; reflexivity].
  - split; [apply IH2|]. intros a H. cbn [Text.all_units] in H.
    apply andb_true_iff in H as [Ha H]. apply andb_true_iff in H as [Hb Hs].
    rewrite match_pairs_step. apply negb_true_iff in Ha, Hb. rewrite Ha, Hb.
    cbn [orb List.length String.length Nat.div2]. now rewrite (IH1 Hs).
Qed.

Lemma div2_large (n : nat) : (11 < n)%nat -> Nat.div2 n <> 5%nat.
Proof.
  intros H. rewrite Nat.div2_div.
  pose proof (Nat.div_mod_eq n 2). pose proof (Nat.mod_upper_bound n 2). lia.
Qed.

(** The two paths that return before any format check. *)
Lemma toCommunityTime_fast_paths (c : client) (w : world) :
  outcome (toCommunityTime c "") w = Ok ""%string
  /\ forall s, communityTimezone c = localTimezone c ->
       outcome (toCommunityTime c s) w = Ok s.
Proof.
  split; [reflexivity|]. intros s Htz.
  rewrite Exec.outcome_eq. unfold toCommunityTime.
  destruct (s =? "")%string eqn:E.
  - apply String.eqb_eq in E. now subst.
  - now rewrite (proj2 (String.eqb_eq _ _) Htz).
Qed.

End TimeFacts.

Section TimeNormaliser.

Import JS Env Uclbrt.

(** C6, as the claim states it, fails: with the community in the zone of
    the operator, which is the case of a client built in Asia/Shanghai,
    [toCommunityTime] returns a three-character text as it is. *)
Lemma same_zone_skips_the_format_check :
  communityTimezone Sample.client_AT = localTimezone Sample.client_AT
  /\ String.length "abc" <> 10%nat
  /\ outcome (toCommunityTime Sample.client_AT "abc")
             (Sample.shanghai (Sample.replies 200 VNull))
     = Ok "abc"%string.
Proof. repeat split. discriminate. Qed.

(** C6, amended.  When the community's zone differs from the operator's,
    [toCommunityTime] fails with FormatError for every non-empty text of
    fewer than 10 characters, and for every text of more than 11
    characters that has no line terminator. *)
Theorem format_error_off_length (c : client) (w : world) (s : string) :
  communityTimezone c <> localTimezone c ->
  s <> ""%string ->
  (String.length s < 10)%nat
  \/ ((11 < String.length s)%nat /\ Spec.single_line s = true) ->
  outcome (toCommunityTime c s) w = Throw (mkError FormatError "time format error.").
Proof.
  intros Htz Hs Hlen. rewrite Exec.outcome_eq. unfold toCommunityTime.
  rewrite (proj2 (String.eqb_neq _ _) Hs), (proj2 (String.eqb_neq _ _) Htz).
  assert (H5 : List.length (match_pairs s) <> 5%nat).
  { destruct Hlen as [Hlt | [Hgt Hline]].
    - pose proof (proj1 (TimeFacts.match_pairs_bound s)). lia.
    - rewrite (proj1 (TimeFacts.match_pairs_single_line s) Hline).
      now apply TimeFacts.div2_large. }
  now rewrite (proj2 (Nat.eqb_neq _ _) H5).
Qed.

Lemma format_error_off_length_witness :
  outcome (toCommunityTime Sample.client_tokyo "250101120")
          (Sample.tokyo (Sample.replies 200 VNull))
  = Throw (mkError FormatError "time format error.")
  /\ outcome (toCommunityTime Sample.client_tokyo "250101120000")
             (Sample.tokyo (Sample.replies 200 VNull))
     = Throw (mkError FormatError "time format error.").
Proof.
  split.
  - apply format_error_off_length; [discriminate | discriminate | left; simpl; lia].
  - apply format_error_off_length;
      [discriminate | discriminate | right; split; [simpl; lia | reflexivity]].
Defined.

(** C7, at the failing input.  The machine runs in Asia/Tokyo (UTC+9), the
    community is in Asia/Shanghai (UTC+8).  12:00 on 2025-01-01 in Tokyo
    is 11:00 in Shanghai; [toCommunityTime] answers 02:00, the Shanghai
    wall clock moved by the nine hours of the machine's zone, because it
    prints the relocated date with [toISOString], which is in UTC. *)
Theorem toCommunityTime_prints_in_utc :
  let c := Sample.client_tokyo in
  let w := Sample.tokyo (Sample.replies 200 VNull) in
  communityTimezone c <> localTimezone c
  /\ zone_offset w (localTimezone c) = Some (local_offset w)
  /\ outcome (toCommunityTime c "2501011200") w = Ok "2501010200"%string
  /\ Spec.community_time_spec 540 480 "2501011200" = Some "2501011100"%string.
Proof. vm_compute. repeat split. discriminate. Qed.

(** On a machine in UTC the same call gives what the specification says. *)
Example toCommunityTime_on_utc_machine :
  let c := with_communityNo (Sample.fresh "A" "T" "UTC") (Some 123456789) in
  let w := Sample.world_of "UTC" 0 (Sample.replies 200 VNull) in
  outcome (toCommunityTime c "2501011200") w = Ok "2501012000"%string
  /\ Spec.community_time_spec 0 480 "2501011200" = Some "2501012000"%string.
Proof. vm_compute. split; reflexivity. Qed.

(** An eleven-character text is not rejected either: its first ten
    characters are converted. *)
Example toCommunityTime_eleven_characters :
  outcome (toCommunityTime Sample.client_tokyo "25010112001")
          (Sample.tokyo (Sample.replies 200 VNull))
  = Ok "2501010200"%string.
Proof. vm_compute. reflexivity. Qed.

End TimeNormaliser.

(** ** The access link (claim C8) *)

Module LinkFacts.

Import JS Env Uclbrt.

Lemma b64_unit_alphabet (i : Z) :
  0 <= i < 64 -> Spec.base64_unit (Digest.b64_unit i) = true.
Proof.
  intros Hi. unfold Digest.b64_unit, Spec.base64_unit.
  destruct (i <? 26) eqn:E1; [apply Z.ltb_lt in E1 | apply Z.ltb_ge in E1].
  { rewrite TextFacts.code_chr by lia.
    replace (65 <=? 65 + i) with true by (symmetry; apply Z.leb_le; lia).
    replace (65 + i <=? 90) with true by (symmetry; apply Z.leb_le; lia). reflexivity. }
  destruct (i <? 52) eqn:E2; [apply Z.ltb_lt in E2 | apply Z.ltb_ge in E2].
  { rewrite TextFacts.code_chr by lia.
    replace (97 <=? 97 + (i - 26)) with true by (symmetry; apply Z.leb_le; lia).
    replace (97 + (i - 26) <=? 122) with true by (symmetry; apply Z.leb_le; lia).
    now rewrite orb_true_r. }
  destruct (i <? 62) eqn:E3; [apply Z.ltb_lt in E3 | apply Z.ltb_ge in E3].
  { rewrite TextFacts.code_chr by lia.
    replace (48 <=? 48 + (i - 52)) with true by (symmetry; apply Z.leb_le; lia).
    replace (48 + (i - 52) <=? 57) with true by (symmetry; apply Z.leb_le; lia).
    now rewrite !orb_true_r. }
  destruct (i =? 62); reflexivity.
Qed.

(** Base64 text is made of the base64 alphabet. *)
Lemma base64_fuel_alphabet (fuel : nat) (bs : list Z) :
  Spec.bytes bs -> Text.all_units Spec.base64_unit (Digest.base64_fuel fuel bs) = true.
Proof.
  revert bs. induction fuel as [|fuel IH]; intros bs Hbs; [reflexivity|].
  destruct bs as [|a [|b [|x r]]]; [reflexivity| | |].
  - inversion Hbs as [|? ? Ha _]; subst.
    cbn [Digest.base64_fuel Text.all_units].
    rewrite !b64_unit_alphabet by (Z.div_mod_to_equations; lia). reflexivity.
  - inversion Hbs as [|? ? Ha Hb']; subst. inversion Hb' as [|? ? Hb _]; subst.
    cbn [Digest.base64_fuel Text.all_units].
    rewrite !b64_unit_alphabet by (Z.div_mod_to_equations; lia). reflexivity.
  - inversion Hbs as [|? ? Ha Hb']; subst. inversion Hb' as [|? ? Hb Hx']; subst.
    inversion Hx' as [|? ? Hx Hr]; subst.
    cbn [Digest.base64_fuel Text.all_units].
    rewrite !b64_unit_alphabet by (Z.div_mod_to_equations; lia).
    rewrite (IH r Hr). reflexivity.
Qed.

(** Percent-encoding keeps the letters and digits of base64 text and
    writes [+], [/] and [=] as [%2B], [%2F] and [%3D]. *)
Lemma percent_unit_cipher (a : ascii) :
  Spec.base64_unit a = true ->
  Text.all_units Spec.cipher_unit (Digest.percent_unit a) = true.
Proof.
  destruct a as [[] [] [] [] [] [] [] []]; vm_compute; intros H;
    try reflexivity; discriminate H.
Qed.

Lemma percent_encode_cipher (s : string) :
  Text.all_units Spec.base64_unit s = true ->
  Text.all_units Spec.cipher_unit (Digest.percent_encode s) = true.
Proof.
  induction s as [|a s IH]; [reflexivity|]. cbn [Text.all_units Digest.percent_encode].
  intros H. apply andb_true_iff in H as [Ha Hs].
  now rewrite TextFacts.all_units_append, (percent_unit_cipher a Ha), (IH Hs).
Qed.

Lemma percent_encode_unreserved (s : string) :
  Text.all_units Digest.unreserved s = true -> Digest.percent_encode s = s.
Proof.
  induction s as [|a s IH]; [reflexivity|]. cbn [Text.all_units Digest.percent_encode].
  intros H. apply andb_true_iff in H as [Ha Hs].
  unfold Digest.percent_unit. rewrite Ha, (IH Hs). reflexivity.
Qed.

(** When the encryption throws, [getLink] reports that it could not make
    the link. *)
Lemma getLink_encryption_failure (c : client) (w : world) (mobile areaCode cardNo : string)
  (cardType n : Z) :
  mobile <> ""%string -> communityNo c = Some n -> n <> 0 ->
  rsa_encrypt w (publicKey c)
    (Text.utf8 (Spec.link_query c n (now w / 1000) mobile areaCode cardNo cardType))
  = None ->
  run (getLink c mobile areaCode cardNo cardType) w
  = (Throw (mkError EncryptionError "failed to generate link."), []).
Proof.
  intros Hm Hc Hn Henc. unfold run, getLink.
  rewrite (proj2 (String.eqb_neq _ _) Hm).
  rewrite (Steps.checkCommunityNo_set c n Hc Hn), (Steps.communityNo_toString_set c n Hc).
  repeat run_store.
  cbv [try_catch bind read_object publicEncrypt ask ret].
  cbn [heap empty_state List.length app nth].
  change (objectToQuery _)
    with (Spec.link_query c n (now w / 1000) mobile areaCode cardNo cardType).
  rewrite Henc. reflexivity.
Qed.

End LinkFacts.

Section AccessLink.

Import JS Env Uclbrt.




End AccessLink.

(** ** The body of the Records requests (claim C9) *)

Module RecordsFacts.

Import JS Env Uclbrt.

(** A property with a string value is one [key=value] pair of the form
    body. *)
Lemma qs_stringify_field (o : obj) (k v : string) :
  In (k, VStr v) o ->
  Text.occurs_in (Digest.qs_escape k ++ "=" ++ Digest.qs_escape v) (qs_stringify o).
Proof.
  intros Hin. unfold qs_stringify. apply TextFacts.occurs_in_join.
  apply in_flat_map. exists (k, VStr v). split; [exact Hin|].
  left. cbn [qs_field fst snd stringifyPrimitive]. apply TextFacts.append_assoc.
Qed.

(** [getSig3] leaves the object it signed with one more property. *)
Lemma getSig3_mutates (c : client) (fields : obj) (w : world) :
  heap (snd (bind (new_object fields) (getSig3 c) w empty_state))
  = [set (literal fields) "authToken" (VStr (authToken c))].
Proof. reflexivity. Qed.

End RecordsFacts.

Section RecordsBody.

Import JS Env Uclbrt.

(** C9.  [getSig3] adds the property [authToken], holding the client's
    authToken, to the object it is given; a Records-family operation then
    posts that same object: its one request has the authToken among its
    data, and its form body, which is [qs.stringify] of the data, contains
    the pair [authToken=] followed by the authToken (percent-escaped,
    which changes nothing in a token of unreserved characters). *)
Theorem records_body_carries_the_token (c : client) (w : world) (op : operation) (n : Z) :
  Spec.records_family op = true ->
  communityNo c = Some n ->
  (forall fields,
     heap (snd (bind (new_object fields) (getSig3 c) w empty_state))
     = [set (literal fields) "authToken" (VStr (authToken c))])
  /\ exists rq,
       requests (invoke c op) w = [rq]
       /\ get (data rq) "authToken" = VStr (authToken c)
       /\ body rq = FormBody (qs_stringify (data rq))
       /\ Text.occurs_in ("authToken=" ++ Digest.qs_escape (authToken c))
            (qs_stringify (data rq))
       /\ (Text.all_units Digest.unreserved (authToken c) = true ->
           Text.occurs_in ("authToken=" ++ authToken c) (qs_stringify (data rq))).
Proof.
  intros Hop Hc. split; [intros fields; apply RecordsFacts.getSig3_mutates|].
  assert (Hq : forall o,
             Text.occurs_in ("authToken=" ++ Digest.qs_escape (authToken c))
               (qs_stringify (set o "authToken" (VStr (authToken c))))).
  { intros o.
    apply (RecordsFacts.qs_stringify_field _ "authToken" (authToken c)), ObjFacts.in_set. }
  destruct op; try discriminate Hop; cbv [invoke getRecordsByRoom fetchRoomInfo getBoxInfo];
    rewrite Exec.requests_eq, (Steps.communityNo_toString_set c n Hc);
    repeat run_store;
    rewrite Exec.bind_pure_tail by auto with pure;
    rewrite Exec.curlPost_state;
    cbn [heap sent empty_state List.length app nth update];
    (eexists; split; [reflexivity|]);
    cbn [data body axios_config];
    (split; [apply ObjFacts.get_set_same|]);
    (split; [reflexivity|]);
    (split; [apply Hq|]);
    intros Hu;
    match goal with
    | |- context [set ?o "authToken" _] => pose proof (Hq o) as Hq'
    end;
    unfold Digest.qs_escape in Hq';
    rewrite (LinkFacts.percent_encode_unreserved _ Hu) in Hq';
    exact Hq'.
Qed.

(** [fetchRoomInfo] on the sample client: the body that goes out. *)
Lemma records_body_carries_the_token_witness :
  let c := Sample.client_AT_set in
  let w := Sample.shanghai (Sample.replies 200 VNull) in
  exists rq,
    requests (invoke c FetchRoomInfo) w = [rq]
    /\ body rq
       = FormBody "accountSid=A&timestamp=1735732800&communityNo=123456789&authToken=T"
    /\ Text.occurs_in "authToken=T" (qs_stringify (data rq)).
Proof.
  intros c w.
  destruct (records_body_carries_the_token c w FetchRoomInfo 123456789 eq_refl eq_refl)
    as (_ & rq & Hrq & _ & Hbody & _ & Hraw).
  exists rq. split; [exact Hrq|]. split.
  - rewrite Hbody. f_equal.
    assert (H : [rq] = requests (invoke c FetchRoomInfo) w) by (symmetry; exact Hrq).
    vm_compute in H. injection H as ->. vm_compute. reflexivity.
  - apply Hraw. reflexivity.
Defined.

End RecordsBody.

(** ** The signature of the Qrm operations (claim C10) *)

Module QrmFacts.

Import JS Env Uclbrt.

Ltac sig_of_request :=
  rewrite ?Exec.bind_pure_tail by auto with pure;
  rewrite ?Exec.curlPost_state;
  cbn [heap sent empty_state List.length app nth update snd Spec.sigs map data axios_config];
  rewrite ?ObjFacts.get_set_other by discriminate;
  rewrite ?ObjFacts.get_set_same.

Ltac sigs_of op :=
  rewrite Exec.requests_eq; unfold op;
  repeat (run_pure; [|reflexivity]);
  repeat run_store;
  sig_of_request;
  reflexivity.

Lemma makeCard_sigs c w issueMac buildNo floorNo roomNo endTime a m p o t g oa om e :
  Spec.sigs (requests (makeCard c issueMac buildNo floorNo roomNo endTime a m p o t g
                         oa om e) w)
  = match outcome (checkCommunityNo c) w, outcome (toCommunityTime c endTime) w,
          outcome (communityNo_toString c) w with
    | Ok _, Ok endTime', Ok communityNo' =>
        [Spec.signed_text c
           [issueMac; endTime'; accountSid c; communityNo'; buildNo; floorNo; roomNo]]
    | _, _, _ => []
    end.
Proof. sigs_of makeCard. Qed.

Lemma makeLostCard_sigs c w issueMac buildNo floorNo roomNo endTime a m p o t g oa om e :
  Spec.sigs (requests (makeLostCard c issueMac buildNo floorNo roomNo endTime a m p o t g
                         oa om e) w)
  = match outcome (checkCommunityNo c) w, outcome (toCommunityTime c endTime) w,
          outcome (communityNo_toString c) w with
    | Ok _, Ok endTime', Ok communityNo' =>
        [Spec.signed_text c
           [issueMac; endTime'; accountSid c; communityNo'; buildNo; floorNo; roomNo]]
    | _, _, _ => []
    end.
Proof. sigs_of makeLostCard. Qed.

Lemma readCard_sigs c w issueMac a m p t e :
  Spec.sigs (requests (readCard c issueMac a m p t e) w)
  = match outcome (checkCommunityNo c) w, outcome (communityNo_toString c) w with
    | Ok _, Ok communityNo' =>
        [Spec.signed_text c
           [accountSid c; communityNo'; issueMac; a; m; password_digest p]]
    | _, _ => []
    end.
Proof. sigs_of readCard. Qed.

Lemma cancelCard_sigs c w issueMac serialNum a m p t e :
  Spec.sigs (requests (cancelCard c issueMac serialNum a m p t e) w)
  = match outcome (checkCommunityNo c) w, outcome (communityNo_toString c) w with
    | Ok _, Ok communityNo' =>
        [Spec.signed_text c
           [accountSid c; communityNo'; issueMac; serialNum; a; m; password_digest p]]
    | _, _ => []
    end.
Proof. sigs_of cancelCard. Qed.

End QrmFacts.

Section QrmSignature.

Import JS Env Uclbrt.



(** In [readCard] the creator's mobile is among the signed fields: another
    mobile, another [sig]. *)
Example readCard_signs_the_creator :
  let c := Sample.client_AT_set in
  let w := Sample.shanghai (Sample.replies 200 VNull) in
  Spec.sigs (requests (readCard c "mac" "86" "138" "pw" 0 "") w)
  <> Spec.sigs (requests (readCard c "mac" "86" "139" "pw" 0 "") w).
Proof. vm_compute. discriminate. Qed.

End QrmSignature.

(* ================================================================== *)
(** * Further properties of the client                                 *)
(* ================================================================== *)

(** ** How many requests a call issues, and how they are encoded *)

Module WireFacts.

Import JS Env Uclbrt Exec Steps.

Ltac unfold_operations :=
  cbv [invoke createRoomKey createFloorKey createBuildingKey create createRoomLostKey
       generateQRPRoomCipher reportCardLost getRoomKeyImage getFloorKeyImage
       getBuildingKeyImage getRoomKeyString getQRPRoomCipher getShare cancelRoomKey
       cancelFloorKey cancelBuildingKey cancel getRoomCardInfo
       getRoomKeyLink getFloorKeyLink getBuildingKeyLink getLink
       getMacList makeCard makeLostCard readCard cancelCard
       getRecordsByRoom fetchRoomInfo getBoxInfo].

(** The [try] block that closes [getLink] leaves the log as it is. *)
Lemma link_tail_sent c (data : ref) w s :
  sent (snd (try_catch
     (bind (read_object data) (fun o =>
        bind (publicEncrypt c (objectToQuery o)) (fun encrypted =>
          ret (VStr (cardHost c ++ "apiLogin/?data="
                     ++ Digest.encodeURIComponent encrypted)%string))))
     (fun _ => throw EncryptionError "failed to generate link.") w s)) = sent s.
Proof.
  cbv [try_catch bind read_object publicEncrypt ask ret throw].
  destruct (rsa_encrypt w _ _); reflexivity.
Qed.

(** A call issues no request, or the one request [curlPost] builds with
    the auth text and the content type of its family. *)
Lemma requests_shape (c : client) (w : world) (op : operation) :
  requests (invoke c op) w = []
  \/ exists url o,
       requests (invoke c op) w
       = [axios_config url (Wire.auth_of c w op) o (Wire.content_type_of op)].
Proof.
  rewrite requests_eq.
  destruct op; unfold_operations; cbv [Wire.auth_of Wire.content_type_of Spec.batch_action].
  all: try (destruct (mobile =? "")%string; [left; reflexivity|]).
  all: exec.
  all: rewrite ?curlPost_state, ?link_tail_sent; cbn [sent snd app heap empty_state].
  all: try (left; reflexivity).
  all: right; eexists; eexists; reflexivity.
Qed.

Lemma link_requests (c : client) (w : world) (op : operation) :
  Wire.link_operation op = true -> requests (invoke c op) w = [].
Proof.
  intros Hop. rewrite requests_eq.
  destruct op; try discriminate Hop; unfold_operations.
  all: destruct (mobile =? "")%string; [reflexivity|].
  all: exec.
  all: rewrite ?link_tail_sent; reflexivity.
Qed.

Lemma header_axios_config url auth o ct :
  Spec.header (axios_config url auth o ct) "Accept" = Some "application/json"%string
  /\ Spec.header (axios_config url auth o ct) "Content-Type" = Some (content_type_name ct)
  /\ Spec.header (axios_config url auth o ct) "User-Agent"
     = Some "uclbrt-nodejs/1.0.7"%string
  /\ Spec.header (axios_config url auth o ct) "Authorization"
     = if (auth =? "")%string then None else Some auth.
Proof.
  unfold Spec.header, axios_config. cbn [headers].
  destruct (auth =? "")%string; repeat split; reflexivity.
Qed.

End WireFacts.

Section Requests.

Import JS Env Uclbrt.



(** X2.  Every request carries the Accept, Content-Type and User-Agent
    headers of [curlPost]; the batch family posts the payload object as
    JSON, every other operation posts it form-encoded by [qs.stringify] and
    sends no Authorization header. *)
Theorem request_encoding (c : client) (w : world) (op : operation) (rq : request) :
  In rq (requests (invoke c op) w) ->
  Spec.header rq "Accept" = Some "application/json"%string
  /\ Spec.header rq "User-Agent" = Some "uclbrt-nodejs/1.0.7"%string
  /\ match Spec.batch_action op with
     | Some _ =>
         Spec.header rq "Content-Type" = Some "application/json"%string
         /\ body rq = JsonBody (data rq)
     | None =>
         Spec.header rq "Content-Type" = Some "application/x-www-form-urlencoded"%string
         /\ body rq = FormBody (qs_stringify (data rq))
         /\ Spec.header rq "Authorization" = None
     end.
Proof.
  intros Hin.
  destruct (WireFacts.requests_shape c w op) as [E | (u & o & E)];
    rewrite E in Hin; [destruct Hin|].
  destruct Hin as [<- | []].
  destruct (WireFacts.header_axios_config u (Wire.auth_of c w op) o
              (Wire.content_type_of op)) as (Ha & Hc & Hu & Hz).
  split; [exact Ha|]. split; [exact Hu|].
  unfold Wire.auth_of, Wire.content_type_of in *.
  destruct (Spec.batch_action op); repeat split; assumption.
Qed.

(** A call of [fetchRoomInfo] and of [cancel], and what they send. *)
Lemma request_encoding_witness :
  let c := Sample.client_AT_set in
  let w := Sample.shanghai (Sample.replies 200 VNull) in
  (exists rq, requests (invoke c FetchRoomInfo) w = [rq]
     /\ body rq = FormBody (qs_stringify (data rq))
     /\ Spec.header rq "Authorization" = None)
  /\ (exists rq, requests (invoke c (Cancel "C1" 0)) w = [rq]
     /\ body rq = JsonBody (data rq)).
Proof.
  intros c w. split.
  - assert (E : exists rq, requests (invoke c FetchRoomInfo) w = [rq])
      by (eexists; vm_compute; reflexivity).
    destruct E as [rq E]. exists rq. split; [exact E|].
    apply (request_encoding c w FetchRoomInfo rq). rewrite E. left. reflexivity.
  - assert (E : exists rq, requests (invoke c (Cancel "C1" 0)) w = [rq])
      by (eexists; vm_compute; reflexivity).
    destruct E as [rq E]. exists rq. split; [exact E|].
    apply (request_encoding c w (Cancel "C1" 0) rq). rewrite E. left. reflexivity.
Defined.

End Requests.

(** ** Configuration *)

Module ConfigFacts.

Import JS Env Uclbrt Exec Steps.

(** A computation that never stops at a ConfigurationError. *)
Definition configured {A} (m : M A) : Prop :=
  forall w s, Spec.failure_site (fst (m w s)) <> Some ConfigurationError.

Lemma configured_bind {A B} (m : M A) (k : A -> M B) :
  configured m -> (forall a, configured (k a)) -> configured (bind m k).
Proof.
  intros Hm Hk w s. unfold bind. specialize (Hm w s).
  destruct (m w s) as [[a|e] s']; [apply Hk | exact Hm].
Qed.

Lemma configured_try_catch {A} (m : M A) (h : error -> M A) :
  (forall e, configured (h e)) -> configured (try_catch m h).
Proof.
  intros Hh w s. unfold try_catch.
  destruct (m w s) as [[a|e] s']; [discriminate | apply Hh].
Qed.

Lemma configured_ret {A} (a : A) : configured (ret a).
Proof. intros w s. discriminate. Qed.

Lemma configured_throw {A} k msg : k <> ConfigurationError -> configured (@throw A k msg).
Proof. intros Hk w s. simpl. congruence. Qed.

Lemma configured_new_object fs : configured (new_object fs).
Proof. intros w s. discriminate. Qed.

Lemma configured_set_prop r k v : configured (set_prop r k v).
Proof. intros w s. discriminate. Qed.

Lemma configured_read_object r : configured (read_object r).
Proof. intros w s. discriminate. Qed.

Lemma configured_getSig2 c r : configured (getSig2 c r).
Proof. intros w s. discriminate. Qed.

Lemma configured_getSig3 c r : configured (getSig3 c r).
Proof. intros w s. discriminate. Qed.

Lemma configured_clock : configured new_batch /\ configured unix_seconds /\ configured ask.
Proof. repeat split; intros w s; discriminate. Qed.

Lemma configured_get_field v k : configured (get_field v k).
Proof. destruct v; intros w st; discriminate. Qed.

Lemma configured_expect_field r f msg : configured (expect_field r f msg).
Proof.
  unfold expect_field. apply configured_bind; [apply configured_get_field | intros v].
  destruct (negb (truthy v)); [now apply configured_throw | apply configured_ret].
Qed.

Lemma configured_expect_success r : configured (expect_success r).
Proof.
  unfold expect_success. apply configured_bind; [apply configured_get_field | intros v].
  destruct (_ || _); [now apply configured_throw | apply configured_ret].
Qed.

Lemma configured_communityNo_toString c : configured (communityNo_toString c).
Proof.
  unfold communityNo_toString.
  destruct (communityNo c); [apply configured_ret | now apply configured_throw].
Qed.

Lemma configured_toCommunityTime c s : configured (toCommunityTime c s).
Proof.
  intros w st. rewrite (pure_toCommunityTime c s w st). cbn [fst].
  unfold toCommunityTime.
  destruct (s =? "")%string; [discriminate|].
  destruct (communityTimezone c =? localTimezone c)%string; [discriminate|].
  destruct (negb _); [discriminate|].
  cbv [bind ask Date_relocated].
  destruct (zone_offset w (communityTimezone c)); [|discriminate].
  destruct (Date_local w _); cbv [ret];
    match goal with |- context [Date_toISOString ?d] => destruct d end; discriminate.
Qed.

Lemma configured_curlPost c url auth data ct : configured (curlPost c url auth data ct).
Proof.
  intros w s. rewrite ReplyFacts.curlPost_outcome.
  destruct (server w _) as [reason | status reply]; [discriminate|].
  destruct (negb (status =? 200)); [discriminate|].
  destruct (_ || _); [|discriminate].
  destruct reply; discriminate.
Qed.

Lemma configured_checkCommunityNo c n :
  communityNo c = Some n -> n <> 0 -> configured (checkCommunityNo c).
Proof.
  intros Hc Hn. rewrite (checkCommunityNo_set c n Hc Hn). apply configured_ret.
Qed.

Lemma configured_publicEncrypt c text : configured (publicEncrypt c text).
Proof.
  intros w s. cbv [publicEncrypt bind ask].
  destruct (rsa_encrypt w _ _); discriminate.
Qed.

Ltac configured_step :=
  lazymatch goal with
  | |- configured (bind _ _) => apply configured_bind; [|intro]
  | |- configured (try_catch _ _) => apply configured_try_catch; intro
  | |- configured (ret _) => apply configured_ret
  | |- configured (throw _ _) => apply configured_throw; discriminate
  | |- configured (expect_field _ _ _) => apply configured_expect_field
  | |- configured (expect_success _) => apply configured_expect_success
  | |- configured (communityNo_toString _) => apply configured_communityNo_toString
  | |- configured (toCommunityTime _ _) => apply configured_toCommunityTime
  | |- configured (curlPost _ _ _ _ _) => apply configured_curlPost
  | |- configured (get_field _ _) => apply configured_get_field
  | |- configured (publicEncrypt _ _) => apply configured_publicEncrypt
  | |- configured (new_object _) => apply configured_new_object
  | |- configured (set_prop _ _ _) => apply configured_set_prop
  | |- configured (read_object _) => apply configured_read_object
  | |- configured (getSig2 _ _) => apply configured_getSig2
  | |- configured (getSig3 _ _) => apply configured_getSig3
  | |- configured new_batch => apply (proj1 configured_clock)
  | |- configured unix_seconds => apply (proj1 (proj2 configured_clock))
  | |- configured ask => apply (proj2 (proj2 configured_clock))
  | |- configured (checkCommunityNo _) => eapply configured_checkCommunityNo; eassumption
  | |- configured (if ?b then _ else _) => destruct b
  end.

Lemma configured_invoke (c : client) (n : Z) (op : operation) :
  communityNo c = Some n -> n <> 0 -> configured (invoke c op).
Proof.
  intros Hc Hn. destruct op; WireFacts.unfold_operations; repeat configured_step.
Qed.

End ConfigFacts.

Section Configuration.

Import JS Env Uclbrt.

(** X3.  A client the constructor returns has a non-empty accountSid and
    authToken, taken from the configuration, non-empty hosts, no community
    id, the community zone Asia/Shanghai and the zone of the process as its
    local zone; an empty accountSid or authToken is refused with a
    ConfigurationError whatever the rest. *)
Theorem constructor_invariant (w : world) (config : UserConfig) :
  (forall c, constructor w config = Ok c ->
     accountSid c = cfg_accountSid config /\ accountSid c <> ""%string
     /\ authToken c = cfg_authToken config /\ authToken c <> ""%string
     /\ apiHost c <> ""%string /\ cardHost c <> ""%string
     /\ communityNo c = None
     /\ communityTimezone c = "Asia/Shanghai"%string
     /\ localTimezone c = resolved_zone w)
  /\ (cfg_accountSid config = ""%string \/ cfg_authToken config = ""%string ->
      Spec.failure_site (constructor w config) = Some ConfigurationError).
Proof.
  split.
  - intros c. unfold constructor.
    destruct (cfg_accountSid config =? "")%string eqn:Ea; [discriminate|].
    destruct (cfg_authToken config =? "")%string eqn:Et; [discriminate|].
    destruct (check_host w _ "apiHost"); [|discriminate].
    destruct (check_host w _ "cardHost"); [|discriminate].
    destruct (public_pem w); [|discriminate].
    intros [= <-]. cbn [accountSid authToken apiHost cardHost communityNo
                        communityTimezone localTimezone].
    apply String.eqb_neq in Ea, Et.
    repeat split; try assumption.
    + unfold or_else. destruct (_ =? "")%string eqn:E; [discriminate|].
      now apply String.eqb_neq.
    + unfold or_else. destruct (_ =? "")%string eqn:E; [discriminate|].
      now apply String.eqb_neq.
  - intros [H | H]; unfold constructor; rewrite H.
    + reflexivity.
    + cbn. destruct (cfg_accountSid config =? "")%string; reflexivity.
Qed.

Lemma constructor_invariant_witness :
  let w := Sample.shanghai (Sample.replies 200 VNull) in
  constructor w Sample.config_AT = Ok Sample.client_AT
  /\ communityNo Sample.client_AT = None
  /\ Spec.failure_site (constructor w (mkUserConfig "" "T" None None None))
     = Some ConfigurationError.
Proof.
  intros w. split; [reflexivity|]. split.
  - apply (proj1 (constructor_invariant w Sample.config_AT) Sample.client_AT). reflexivity.
  - apply (proj2 (constructor_invariant w (mkUserConfig "" "T" None None None))).
    left. reflexivity.
Defined.

(** X4.  [setCommunityNo] refuses 0 and nothing else; once it has
    succeeded, no operation of the client stops at a ConfigurationError
    any more, whatever its arguments and whatever the server answers. *)
Theorem configured_after_setCommunityNo (c c' : client) (n : Z) :
  setCommunityNo c n = Ok c' ->
  n <> 0
  /\ communityNo c' = Some n
  /\ forall (op : operation) (w : world),
       Spec.failure_site (outcome (invoke c' op) w) <> Some ConfigurationError.
Proof.
  unfold setCommunityNo. destruct (n =? 0) eqn:E; [discriminate|].
  intros [= <-]. apply Z.eqb_neq in E.
  split; [exact E|]. split; [reflexivity|].
  intros op w. rewrite Exec.outcome_eq.
  now apply (ConfigFacts.configured_invoke _ n op).
Qed.

Lemma configured_after_setCommunityNo_witness :
  setCommunityNo Sample.client_AT 123456789 = Ok Sample.client_AT_set
  /\ Spec.failure_site
       (outcome (invoke Sample.client_AT_set FetchRoomInfo)
          (Sample.shanghai (Sample.replies 200 VNull)))
     <> Some ConfigurationError.
Proof.
  split; [reflexivity|].
  apply (configured_after_setCommunityNo Sample.client_AT Sample.client_AT_set 123456789).
  reflexivity.
Defined.

End Configuration.

(** ** The shape of the signatures *)

Module DigestFacts.

Import JS Env Uclbrt.

Lemma le_bytes_shape (n : nat) (x : Z) :
  List.length (Digest.le_bytes n x) = n /\ Spec.bytes (Digest.le_bytes n x).
Proof.
  unfold Digest.le_bytes, Spec.bytes. split.
  - now rewrite length_map, length_seq.
  - apply Forall_forall. intros b Hb. apply in_map_iff in Hb as (i & <- & _).
    apply Z.mod_pos_bound. lia.
Qed.

Lemma be_bytes_shape (n : nat) (x : Z) :
  List.length (Digest.be_bytes n x) = n /\ Spec.bytes (Digest.be_bytes n x).
Proof.
  unfold Digest.be_bytes. destruct (le_bytes_shape n x) as [Hl Hb]. split.
  - now rewrite length_rev.
  - now apply Forall_rev.
Qed.

Lemma bytes_app (a b : list Z) : Spec.bytes a -> Spec.bytes b -> Spec.bytes (a ++ b).
Proof. intros Ha Hb. apply Forall_app. now split. Qed.

Lemma md5_shape (msg : list Z) :
  List.length (Digest.md5 msg) = 16%nat /\ Spec.bytes (Digest.md5 msg).
Proof.
  unfold Digest.md5.
  destruct (fold_left _ _ _) as [[[a b] c] d].
  split.
  - rewrite !length_app, !(proj1 (le_bytes_shape _ _)). reflexivity.
  - repeat (apply bytes_app; [apply le_bytes_shape|]). apply le_bytes_shape.
Qed.

Lemma sha1_shape (msg : list Z) :
  List.length (Digest.sha1 msg) = 20%nat /\ Spec.bytes (Digest.sha1 msg).
Proof.
  unfold Digest.sha1.
  destruct (fold_left _ _ _) as [[[[a b] c] d] e].
  split.
  - rewrite !length_app, !(proj1 (be_bytes_shape _ _)). reflexivity.
  - repeat (apply bytes_app; [apply be_bytes_shape|]). apply be_bytes_shape.
Qed.

Lemma hex_cons (b : Z) (bs : list Z) :
  Text.hex (b :: bs) = (Text.hex_byte false b ++ Text.hex bs)%string.
Proof.
  unfold Text.hex. cbn [map String.concat].
  destruct (map (Text.hex_byte false) bs) eqn:E; [|reflexivity].
  cbn [String.concat]. now rewrite TextFacts.append_nil_r.
Qed.

Lemma hex_digit_lower (d : Z) :
  0 <= d < 16 -> Wire.lower_hex (Text.hex_digit false d) = true.
Proof.
  intros Hd. unfold Text.hex_digit, Wire.lower_hex. cbv zeta.
  destruct (d <? 10) eqn:E; [apply Z.ltb_lt in E | apply Z.ltb_ge in E];
    rewrite TextFacts.code_chr by lia.
  - apply orb_true_iff. left. apply andb_true_iff. split; apply Z.leb_le; lia.
  - apply orb_true_iff. right. apply andb_true_iff. split; apply Z.leb_le; lia.
Qed.

(** [digest('hex')] writes two lowercase hexadecimal digits per byte. *)
Lemma hex_shape (bs : list Z) :
  Spec.bytes bs ->
  String.length (Text.hex bs) = (2 * List.length bs)%nat
  /\ Text.all_units Wire.lower_hex (Text.hex bs) = true.
Proof.
  induction 1 as [|b bs Hb _ [IHl IHu]]; [split; reflexivity|].
  rewrite hex_cons. split.
  - rewrite TextFacts.length_append, IHl. cbn [Text.hex_byte String.length List.length]. lia.
  - rewrite TextFacts.all_units_append, IHu, andb_true_r.
    cbn [Text.hex_byte Text.all_units].
    rewrite !hex_digit_lower; [reflexivity | |].
    + apply Z.mod_pos_bound. lia.
    + split; [apply Z.div_pos; lia | apply Z.div_lt_upper_bound; lia].
Qed.

Lemma upper_unit_hex (a : ascii) :
  Wire.lower_hex a = true -> Wire.upper_hex (Text.upper_unit a) = true.
Proof.
  unfold Wire.lower_hex, Wire.upper_hex, Text.upper_unit. cbv zeta. intros H.
  apply orb_true_iff in H as [H | H]; apply andb_true_iff in H as [H1 H2];
    apply Z.leb_le in H1, H2.
  - replace ((97 <=? Text.code a) && (Text.code a <=? 122)) with false
      by (symmetry; apply andb_false_iff; left; apply Z.leb_gt; lia).
    apply orb_true_iff. left. apply andb_true_iff. split; apply Z.leb_le; lia.
  - replace ((97 <=? Text.code a) && (Text.code a <=? 122)) with true
      by (symmetry; apply andb_true_iff; split; apply Z.leb_le; lia).
    rewrite TextFacts.code_chr by lia.
    apply orb_true_iff. right. apply andb_true_iff. split; apply Z.leb_le; lia.
Qed.

Lemma toUpperCase_hex (s : string) :
  Text.all_units Wire.lower_hex s = true ->
  String.length (Text.toUpperCase s) = String.length s
  /\ Text.all_units Wire.upper_hex (Text.toUpperCase s) = true.
Proof.
  induction s as [|a s IH]; [split; reflexivity|].
  cbn [Text.all_units Text.toUpperCase String.length]. intros H.
  apply andb_true_iff in H as [Ha Hs]. destruct (IH Hs) as [IHl IHu].
  now rewrite IHl, IHu, (upper_unit_hex a Ha).
Qed.

Lemma md5_hex (msg : list Z) :
  String.length (Text.hex (Digest.md5 msg)) = 32%nat
  /\ Text.all_units Wire.lower_hex (Text.hex (Digest.md5 msg)) = true.
Proof.
  destruct (md5_shape msg) as [Hl Hb]. destruct (hex_shape _ Hb) as [H1 H2].
  rewrite Hl in H1. now split.
Qed.

Lemma sha1_hex (msg : list Z) :
  String.length (Text.hex (Digest.sha1 msg)) = 40%nat
  /\ Text.all_units Wire.lower_hex (Text.hex (Digest.sha1 msg)) = true.
Proof.
  destruct (sha1_shape msg) as [Hl Hb]. destruct (hex_shape _ Hb) as [H1 H2].
  rewrite Hl in H1. now split.
Qed.

End DigestFacts.

Section SignatureShape.

Import JS Env Uclbrt.

(** X5.  Whatever is signed, [getSig] gives 32 hexadecimal digits in upper
    case, [getSig2] gives 32 in lower case and [getSig3] gives 40 in lower
    case; the two signers that take an object never fail. *)
Theorem signature_shapes (c : client) :
  (forall batch,
     String.length (getSig c batch) = 32%nat
     /\ Text.all_units Wire.upper_hex (getSig c batch) = true)
  /\ (forall fields w, exists sg,
        outcome (bind (new_object fields) (getSig2 c)) w = Ok sg
        /\ String.length sg = 32%nat /\ Text.all_units Wire.lower_hex sg = true)
  /\ (forall fields w, exists sg,
        outcome (bind (new_object fields) (getSig3 c)) w = Ok sg
        /\ String.length sg = 40%nat /\ Text.all_units Wire.lower_hex sg = true).
Proof.
  split; [|split].
  - intros batch. unfold getSig.
    destruct (DigestFacts.md5_hex (Text.utf8 (accountSid c ++ authToken c ++ batch)))
      as [Hl Hu].
    destruct (DigestFacts.toUpperCase_hex _ Hu) as [Hl' Hu'].
    rewrite Hl', Hl. now split.
  - intros fields w. eexists. split; [reflexivity|]. apply DigestFacts.md5_hex.
  - intros fields w. eexists. split; [reflexivity|]. apply DigestFacts.sha1_hex.
Qed.

End SignatureShape.

(** ** The Qrm operations on the wire *)

Module CardFacts.

Import JS Env Uclbrt.

Ltac requests_of op :=
  rewrite Exec.requests_eq; unfold op;
  repeat (run_pure; [|reflexivity]);
  repeat run_store;
  rewrite ?Exec.bind_pure_tail by auto with pure;
  rewrite ?Exec.curlPost_state;
  cbn [heap sent empty_state List.length app nth update snd];
  reflexivity.

Lemma makeCard_requests c w issueMac buildNo floorNo roomNo endTime a m p o t g oa om e :
  requests (makeCard c issueMac buildNo floorNo roomNo endTime a m p o t g oa om e) w
  = match outcome (checkCommunityNo c) w, outcome (toCommunityTime c endTime) w,
          outcome (communityNo_toString c) w with
    | Ok _, Ok endTime', Ok communityNo' =>
        [axios_config (apiHost c ++ "Home/Qrm/makeRoomCard") ""
           (Wire.card_fields c issueMac endTime' communityNo' buildNo floorNo roomNo
              a m p o t g oa om e) FormUrlencoded]
    | _, _, _ => []
    end.
Proof. requests_of makeCard. Qed.

Lemma makeLostCard_requests c w issueMac buildNo floorNo roomNo endTime a m p o t g oa om e :
  requests (makeLostCard c issueMac buildNo floorNo roomNo endTime a m p o t g oa om e) w
  = match outcome (checkCommunityNo c) w, outcome (toCommunityTime c endTime) w,
          outcome (communityNo_toString c) w with
    | Ok _, Ok endTime', Ok communityNo' =>
        [axios_config (apiHost c ++ "Home/Qrm/makeRoomCard") ""
           (Wire.card_fields c issueMac endTime' communityNo' buildNo floorNo roomNo
              a m p o t g oa om e ++ [("isLost", VStr e)])%list FormUrlencoded]
    | _, _, _ => []
    end.
Proof. requests_of makeLostCard. Qed.

Lemma readCard_requests c w issueMac a m p t e :
  requests (readCard c issueMac a m p t e) w
  = match outcome (checkCommunityNo c) w, outcome (communityNo_toString c) w with
    | Ok _, Ok communityNo' =>
        [axios_config (apiHost c ++ "Home/Qrm/readCard") ""
           [("accountSid", VStr (accountSid c)); ("communityNo", VStr communityNo');
            ("issueMac", VStr issueMac); ("creatorAreaCode", VStr a);
            ("creatorMobile", VStr m); ("creatorPassword", VStr (password_digest p));
            ("sig", Spec.signed_text c
                      [accountSid c; communityNo'; issueMac; a; m; password_digest p]);
            ("operateCardType", VNum t); ("creatorEmail", VStr e)] FormUrlencoded]
    | _, _ => []
    end.
Proof. requests_of readCard. Qed.

Lemma cancelCard_requests c w issueMac serialNum a m p t e :
  requests (cancelCard c issueMac serialNum a m p t e) w
  = match outcome (checkCommunityNo c) w, outcome (communityNo_toString c) w with
    | Ok _, Ok communityNo' =>
        [axios_config (apiHost c ++ "Home/Qrm/cancelCard") ""
           [("accountSid", VStr (accountSid c)); ("communityNo", VStr communityNo');
            ("issueMac", VStr issueMac); ("serialNum", VStr serialNum);
            ("creatorAreaCode", VStr a);
            ("creatorMobile", VStr m); ("creatorPassword", VStr (password_digest p));
            ("sig", Spec.signed_text c
                      [accountSid c; communityNo'; issueMac; serialNum; a; m;
                       password_digest p]);
            ("operateCardType", VNum t); ("creatorEmail", VStr e)] FormUrlencoded]
    | _, _ => []
    end.
Proof. requests_of cancelCard. Qed.

Lemma getMacList_requests c w :
  requests (getMacList c) w
  = match outcome (checkCommunityNo c) w, outcome (communityNo_toString c) w with
    | Ok _, Ok communityNo' =>
        [axios_config (apiHost c ++ "Home/Qrm/getMacList") ""
           [("accountSid", VStr (accountSid c)); ("communityNo", VStr communityNo');
            ("sig", Spec.signed_text c [accountSid c; communityNo'])] FormUrlencoded]
    | _, _ => []
    end.
Proof. requests_of getMacList. Qed.

End CardFacts.

Section Cards.

Import JS Env Uclbrt.

(** X6.  [makeLostCard] issues the request of [makeCard] for the same
    arguments with one more property at the end of the payload: [isLost],
    whose value is the [creatorEmail] argument (there is no flag of its
    own); it stops where [makeCard] stops. *)
Theorem makeLostCard_adds_isLost (c : client) (w : world)
  (issueMac buildNo floorNo roomNo endTime creatorAreaCode creatorMobile
   creatorPassword owner : string) (opentype ownerGender : Z)
  (ownerAreaCode ownerMobile creatorEmail : string) :
  requests (invoke c (MakeLostCard issueMac buildNo floorNo roomNo endTime creatorAreaCode
                        creatorMobile creatorPassword owner opentype ownerGender
                        ownerAreaCode ownerMobile creatorEmail)) w
  = map (Wire.with_isLost creatorEmail)
      (requests (invoke c (MakeCard issueMac buildNo floorNo roomNo endTime creatorAreaCode
                             creatorMobile creatorPassword owner opentype ownerGender
                             ownerAreaCode ownerMobile creatorEmail)) w).
Proof.
  cbn [invoke]. rewrite CardFacts.makeLostCard_requests, CardFacts.makeCard_requests.
  destruct (outcome (checkCommunityNo c) w); [|reflexivity].
  destruct (outcome (toCommunityTime c endTime) w); [|reflexivity].
  destruct (outcome (communityNo_toString c) w); reflexivity.
Qed.

(** X7.  In the requests of [makeCard], [makeLostCard], [readCard] and
    [cancelCard] the property [creatorPassword] is the lowercase
    hexadecimal MD5 digest of the password argument, 32 digits long: the
    password itself is not the value that is sent. *)
Theorem card_password_is_digested (c : client) (w : world) (op : operation)
  (password : string) (rq : request) :
  Wire.card_password op = Some password ->
  In rq (requests (invoke c op) w) ->
  exists digest,
    get (data rq) "creatorPassword" = VStr digest
    /\ digest = Text.hex (Digest.md5 (Text.utf8 password))
    /\ String.length digest = 32%nat
    /\ Text.all_units Wire.lower_hex digest = true.
Proof.
  intros Hop Hin. exists (password_digest password).
  split; [|split; [reflexivity | apply DigestFacts.md5_hex]].
  destruct op; try discriminate Hop; injection Hop as ->; cbn [invoke] in Hin;
    [ rewrite CardFacts.makeCard_requests in Hin
    | rewrite CardFacts.makeLostCard_requests in Hin
    | rewrite CardFacts.readCard_requests in Hin
    | rewrite CardFacts.cancelCard_requests in Hin ].
  all: destruct (outcome (checkCommunityNo c) w); [|destruct Hin].
  1-2: destruct (outcome (toCommunityTime c _) w); [|destruct Hin].
  all: destruct (outcome (communityNo_toString c) w); [|destruct Hin].
  all: destruct Hin as [<- | []]; reflexivity.
Qed.

Lemma card_password_is_digested_witness :
  let c := Sample.client_AT_set in
  let w := Sample.shanghai (Sample.replies 200 VNull) in
  let op := ReadCard "M1" "86" "138" "secret" 1 "e@x" in
  exists rq,
    requests (invoke c op) w = [rq]
    /\ get (data rq) "creatorPassword" = VStr "5ebe2294ecd0e0f08eab7690d2a6ee69".
Proof.
  intros c w op.
  assert (E : exists rq, requests (invoke c op) w = [rq])
    by (eexists; vm_compute; reflexivity).
  destruct E as [rq E]. exists rq. split; [exact E|].
  destruct (card_password_is_digested c w op "secret" rq eq_refl) as (d & Hd & -> & _).
  - rewrite E. left. reflexivity.
  - rewrite Hd. vm_compute. reflexivity.
Defined.



End Cards.

(** ** The Records operations on the wire *)

Section RecordsUrl.

Import JS Env Uclbrt.



End RecordsUrl.

(** ** What an operation returns from an accepted reply *)

Module AnswerFacts.

Import JS Env Uclbrt Exec Steps.

Lemma toCommunityTime_same_zone (c : client) (s : string) (w : world) (st : state) :
  communityTimezone c = localTimezone c -> toCommunityTime c s w st = (Ok s, st).
Proof.
  intros Htz. unfold toCommunityTime.
  destruct (s =? "")%string eqn:E.
  - apply String.eqb_eq in E. now subst.
  - now rewrite (proj2 (String.eqb_eq _ _) Htz).
Qed.

Lemma bind_toCommunityTime {B} c s (k : string -> M B) w st :
  communityTimezone c = localTimezone c ->
  bind (toCommunityTime c s) k w st = k s w st.
Proof. intros Htz. unfold bind. now rewrite toCommunityTime_same_zone. Qed.

Section Accepted.

Variables (c : client) (w : world) (n : Z) (reply : obj).
Hypothesis Hc : communityNo c = Some n.
Hypothesis Hn : n <> 0.
Hypothesis Htz : communityTimezone c = localTimezone c.
Hypothesis Hsrv : forall rq, server w rq = HttpResponse 200 (VObj reply).
Hypothesis Hst : get reply "status" = VNum 200.

Lemma curlPost_accepted url auth data ct st :
  fst (curlPost c url auth data ct w st) = Ok (VObj reply).
Proof.
  rewrite ReplyFacts.curlPost_outcome, Hsrv.
  cbn [Z.eqb Pos.eqb negb truthy orb prop]. rewrite Hst. reflexivity.
Qed.

Lemma expect_field_answer field msg st :
  fst (expect_field (VObj reply) field msg w st) = Wire.field_or reply field msg.
Proof.
  unfold expect_field, bind, get_field, ret, Wire.field_or.
  destruct (truthy (get reply field)); reflexivity.
Qed.

Lemma expect_success_answer {A} (k : M A) (v : A) st :
  (forall st', fst (k w st') = Ok v) ->
  fst (bind (expect_success (VObj reply)) (fun _ => k) w st)
  = if truthy (get reply "info") && loose_eq_word (get reply "info") "success" then Ok v
    else Throw (mkError UnexpectedResponseError unexpected_value).
Proof.
  intros Hk. unfold expect_success, bind, get_field, ret.
  destruct (truthy (get reply "info")); [|reflexivity].
  destruct (loose_eq_word (get reply "info") "success"); [|reflexivity].
  cbn [negb orb andb]. apply Hk.
Qed.

Ltac prepare :=
  rewrite ?(checkCommunityNo_set c n Hc Hn), ?(communityNo_toString_set c n Hc);
  repeat first [ run_store | rewrite (bind_toCommunityTime _ _ _ _ _ Htz) ];
  rewrite ?(communityNo_toString_set c n Hc);
  repeat first [ run_store | rewrite (bind_toCommunityTime _ _ _ _ _ Htz) ].

Ltac accept :=
  rewrite bind_curlPost, curlPost_accepted; cbv zeta iota beta.

Lemma getShare_accepted mobile areaCode roomFlag cardType openEndTime lockType resultType :
  exists st,
    getShare c mobile areaCode roomFlag cardType openEndTime lockType resultType
      w empty_state = (Ok (VObj reply), st).
Proof.
  unfold getShare. prepare.
  rewrite ReplyFacts.curlPost_run, curlPost_accepted. eexists. reflexivity.
Qed.

Lemma answer (op : operation) (r : result value) :
  Wire.answer_of op reply = Some r -> outcome (invoke c op) w = r.
Proof.
  intros Hop. rewrite outcome_eq.
  destruct op; cbn [Wire.answer_of] in Hop; try discriminate Hop; injection Hop as <-;
    cbv [invoke createRoomKey createFloorKey createBuildingKey create createRoomLostKey
         generateQRPRoomCipher reportCardLost getRoomKeyImage getFloorKeyImage
         getBuildingKeyImage getRoomKeyString getQRPRoomCipher cancelRoomKey
         cancelFloorKey cancelBuildingKey cancel getRoomCardInfo
         getMacList makeCard makeLostCard readCard cancelCard
         getRecordsByRoom fetchRoomInfo getBoxInfo].
  all: try (match goal with
            | |- context [getShare c ?a ?b ?f ?ct ?en ?lt ?rt] =>
                destruct (getShare_accepted a b f ct en lt rt) as [st Hrun]
            end;
            first [ rewrite Hrun; reflexivity
                  | unfold bind at 1; rewrite Hrun; apply expect_field_answer ]).
  all: prepare; accept.
  all: try apply expect_field_answer.
  all: try (apply expect_success_answer; intros; reflexivity).
  (* reportCardLost: the second test of [status] cannot fail *)
  unfold bind, get_field, ret. rewrite Hst. reflexivity.
Qed.

End Accepted.

End AnswerFacts.

Section Answers.

Import JS Env Uclbrt.

(** X10.  What each operation makes of an accepted reply.  The community
    id is set, the two zones are equal, and the server answers HTTP 200
    with an object whose [status] is 200.  Then [create], its presets,
    [createRoomLostKey] and [generateQRPRoomCipher] return the reply's
    [cardNo], the image, string and cipher getters its [baseImg], [bleStr]
    and [cipher], [getMacList] and the Records operations its [data], each
    failing with an UnexpectedResponseError when the field is missing or
    falsy; [cancel] and its presets, [makeCard] and [makeLostCard] return
    [true], [readCard] and [cancelCard] the reply itself, and
    [getRoomCardInfo] the reply's [data] unchecked, when [info] is
    ['success'], and fail otherwise; [getShare] returns the reply as it
    is; [reportCardLost] returns [true] whatever else the reply holds. *)
Theorem answer_of_accepted_reply (c : client) (w : world) (n : Z) (reply : obj)
  (op : operation) (r : result value) :
  communityNo c = Some n -> n <> 0 ->
  communityTimezone c = localTimezone c ->
  (forall rq, server w rq = HttpResponse 200 (VObj reply)) ->
  get reply "status" = VNum 200 ->
  Wire.answer_of op reply = Some r ->
  outcome (invoke c op) w = r.
Proof. intros Hc Hn Htz Hsrv Hst. now apply (AnswerFacts.answer c w n reply). Qed.

(** [getRoomCardInfo] hands on a missing [data] as [undefined], where
    [getMacList] refuses the same reply. *)
Lemma answer_of_accepted_reply_witness :
  let reply := [("status", VNum 200); ("info", VStr "success")] in
  let w := Sample.shanghai (Sample.replies 200 (VObj reply)) in
  outcome (invoke Sample.client_AT_set (GetRoomCardInfo "C")) w = Ok VUndef
  /\ outcome (invoke Sample.client_AT_set GetMacList) w
     = Throw (mkError UnexpectedResponseError "server returns an unexpected value.").
Proof.
  intros reply w. split.
  - apply (answer_of_accepted_reply Sample.client_AT_set w 123456789 reply
             (GetRoomCardInfo "C")); try reflexivity. lia.
  - apply (answer_of_accepted_reply Sample.client_AT_set w 123456789 reply GetMacList);
      try reflexivity. lia.
Defined.

End Answers.

(** ** More on the time normaliser *)

Module SliceFacts.

Import JS Env Uclbrt.

Lemma substring_length (n m : nat) (s : string) :
  (n + m <= String.length s)%nat -> String.length (substring n m s) = m.
Proof.
  revert n m. induction s as [|a s IH]; intros n m H; cbn [String.length] in H.
  - assert (n = 0%nat /\ m = 0%nat) as [-> ->] by lia. reflexivity.
  - destruct n as [|n]; [destruct m as [|m]|]; cbn [substring String.length].
    + reflexivity.
    + rewrite IH by lia. reflexivity.
    + apply IH. lia.
Qed.

Lemma substring_all_units (p : ascii -> bool) (n m : nat) (s : string) :
  Text.all_units p s = true -> Text.all_units p (substring n m s) = true.
Proof.
  revert n m. induction s as [|a s IH]; intros n m H.
  - destruct n, m; reflexivity.
  - cbn [Text.all_units] in H. apply andb_true_iff in H as [Ha Hs].
    destruct n as [|n]; [destruct m as [|m]|]; cbn [substring Text.all_units].
    + reflexivity.
    + now rewrite Ha, IH.
    + now apply IH.
Qed.

Lemma substring_append (n m : nat) (a b : string) :
  (n + m <= String.length a)%nat -> substring n m (a ++ b) = substring n m a.
Proof.
  revert n m. induction a as [|x a IH]; intros n m H; cbn [String.length] in H.
  - assert (n = 0%nat /\ m = 0%nat) as [-> ->] by lia. now destruct b.
  - destruct n as [|n]; [destruct m as [|m]|]; cbn [append substring].
    + reflexivity.
    + rewrite IH by lia. reflexivity.
    + apply IH. lia.
Qed.

(** [s.slice(2, 12)] of a text of twelve characters or more. *)
Lemma slice_2_12 (s : string) :
  (12 <= String.length s)%nat -> Text.slice s 2 12 = substring 2 10 s.
Proof.
  intros H. unfold Text.slice, Text.rel_index. cbv zeta.
  change (2 <? 0) with false. change (12 <? 0) with false. cbv iota.
  rewrite !Z.min_l by lia. reflexivity.
Qed.

(** [s.slice(0, -2)] drops the last two characters. *)
Lemma slice_but_two (a b : string) :
  String.length b = 2%nat -> Text.slice (a ++ b) 0 (-2) = a.
Proof.
  intros H. unfold Text.slice, Text.rel_index. cbv zeta.
  change (0 <? 0) with false. change (-2 <? 0) with true. cbv iota.
  rewrite TextFacts.length_append, H.
  rewrite Z.min_l by lia.
  replace (Z.to_nat (Z.max (Z.max (Z.of_nat (String.length a + 2) + -2) 0 - 0) 0))
    with (String.length a) by lia.
  apply TextFacts.substring_prefix.
Qed.

Lemma slice_short (s : string) :
  (String.length s <= 2)%nat -> Text.slice s 0 (-2) = ""%string.
Proof.
  intros H. unfold Text.slice, Text.rel_index. cbv zeta.
  change (0 <? 0) with false. change (-2 <? 0) with true. cbv iota.
  rewrite Z.min_l by lia.
  replace (Z.to_nat (Z.max (Z.max (Z.of_nat (String.length s) + -2) 0 - 0) 0))
    with 0%nat by lia.
  now destruct s.
Qed.

(** The digits of a stripped ISO text: characters 2 to 11 are digits,
    whatever the year. *)
Lemma iso_slice (t : Z) :
  Wire.ten_digits (Text.slice (Calendar.strip_separators (Calendar.toISOString t)) 2 12).
Proof.
  unfold Calendar.toISOString. set (f := Calendar.civil_of_time t).
  set (tail := ("." ++ Text.pad 3 (Calendar.milli f) ++ "Z")%string).
  assert (Hshape : exists sign digits,
             Calendar.strip_separators
               (Calendar.iso_year (Calendar.year f) ++ "-" ++ Text.pad 2 (Calendar.month f)
                ++ "-" ++ Text.pad 2 (Calendar.day f) ++ "T" ++ Text.pad 2 (Calendar.hour f)
                ++ ":" ++ Text.pad 2 (Calendar.minute f) ++ ":"
                ++ Text.pad 2 (Calendar.second f) ++ tail)
             = (sign ++ digits ++ tail)%string
             /\ (String.length sign <= 1)%nat
             /\ (14 <= String.length digits)%nat
             /\ Text.all_units Text.is_digit digits = true).
  { assert (Htail : Calendar.strip_separators tail = tail).
    { subst tail. rewrite !CalendarFacts.strip_append.
      rewrite (CalendarFacts.strip_digits _ (TextFacts.pad_digits 3 _)). reflexivity. }
    rewrite !CalendarFacts.strip_append, Htail.
    change (Calendar.strip_separators "-") with ""%string.
    change (Calendar.strip_separators "T") with ""%string.
    change (Calendar.strip_separators ":") with ""%string.
    rewrite !(CalendarFacts.strip_digits _ (TextFacts.pad_digits 2 _)).
    cbn [append].
    set (rest := (Text.pad 2 (Calendar.month f) ++ Text.pad 2 (Calendar.day f)
                  ++ Text.pad 2 (Calendar.hour f) ++ Text.pad 2 (Calendar.minute f)
                  ++ Text.pad 2 (Calendar.second f))%string).
    assert (Hrest : String.length rest = 10%nat
                    /\ Text.all_units Text.is_digit rest = true).
    { subst rest. split.
      - rewrite !TextFacts.length_append, !TextFacts.pad_length. reflexivity.
      - rewrite !TextFacts.all_units_append, !TextFacts.pad_digits. reflexivity. }
    destruct Hrest as [Hl Hd].
    replace (Text.pad 2 (Calendar.month f) ++ Text.pad 2 (Calendar.day f)
             ++ Text.pad 2 (Calendar.hour f) ++ Text.pad 2 (Calendar.minute f)
             ++ Text.pad 2 (Calendar.second f) ++ tail)%string
      with (rest ++ tail)%string
      by (subst rest; now rewrite !TextFacts.append_assoc).
    unfold Calendar.iso_year.
    destruct ((0 <=? Calendar.year f) && (Calendar.year f <=? 9999)).
    - exists ""%string, (Text.pad 4 (Calendar.year f) ++ rest)%string.
      rewrite (CalendarFacts.strip_digits _ (TextFacts.pad_digits 4 _)).
      rewrite TextFacts.append_assoc.
      split; [reflexivity|]. split; [simpl; lia|].
      rewrite TextFacts.length_append, TextFacts.pad_length, Hl.
      rewrite TextFacts.all_units_append, TextFacts.pad_digits, Hd.
      split; [lia | reflexivity].
    - destruct (Calendar.year f <? 0).
      + exists ""%string, (Text.pad 6 (Z.abs (Calendar.year f)) ++ rest)%string.
        change (String "-" ?s) with ("-" ++ s)%string.
        rewrite CalendarFacts.strip_append.
        change (Calendar.strip_separators "-") with ""%string.
        rewrite (CalendarFacts.strip_digits _ (TextFacts.pad_digits 6 _)).
        cbn [append]. rewrite TextFacts.append_assoc.
        split; [reflexivity|]. split; [simpl; lia|].
        rewrite TextFacts.length_append, TextFacts.pad_length, Hl.
        rewrite TextFacts.all_units_append, TextFacts.pad_digits, Hd.
        split; [lia | reflexivity].
      + exists "+"%string, (Text.pad 6 (Z.abs (Calendar.year f)) ++ rest)%string.
        change (String "+" ?s) with ("+" ++ s)%string.
        rewrite CalendarFacts.strip_append.
        change (Calendar.strip_separators "+") with "+"%string.
        rewrite (CalendarFacts.strip_digits _ (TextFacts.pad_digits 6 _)).
        rewrite !TextFacts.append_assoc.
        split; [reflexivity|]. split; [simpl; lia|].
        rewrite TextFacts.length_append, TextFacts.pad_length, Hl.
        rewrite TextFacts.all_units_append, TextFacts.pad_digits, Hd.
        split; [lia | reflexivity]. }
  destruct Hshape as (sign & digits & -> & Hs & Hl & Hd).
  rewrite slice_2_12
    by (rewrite !TextFacts.length_append; lia).
  destruct sign as [|a [|b sign]]; [| |cbn [String.length] in Hs; lia]; cbn [append].
  - rewrite substring_append by lia. split.
    + apply substring_length. lia.
    + now apply substring_all_units.
  - change (substring 2 10 (String a (digits ++ tail)))
      with (substring 1 10 (digits ++ tail)).
    rewrite substring_append by lia. split.
    + apply substring_length. lia.
    + now apply substring_all_units.
Qed.

(** A text too short for five pairs is a format error. *)
Lemma toCommunityTime_too_short (c : client) (w : world) (s : string) (st : state) :
  communityTimezone c <> localTimezone c -> Wire.too_short s ->
  toCommunityTime c s w st = (Throw (mkError FormatError "time format error."), st).
Proof.
  intros Htz [Hs Hl]. unfold toCommunityTime.
  rewrite (proj2 (String.eqb_neq _ _) Hs), (proj2 (String.eqb_neq _ _) Htz).
  destruct (TimeFacts.match_pairs_bound s) as [Hb _].
  replace (Nat.eqb (List.length (match_pairs s)) 5) with false
    by (symmetry; apply Nat.eqb_neq; lia).
  reflexivity.
Qed.

End SliceFacts.

Module ZoneFacts.

Import JS Env Uclbrt Exec Steps.

Lemma bind_too_short {B} c s (k : string -> M B) w st :
  communityTimezone c <> localTimezone c -> Wire.too_short s ->
  bind (toCommunityTime c s) k w st
  = (Throw (mkError FormatError "time format error."), st).
Proof.
  intros Htz Hs. unfold bind. now rewrite SliceFacts.toCommunityTime_too_short.
Qed.

Lemma getShare_too_short c w n mobile areaCode roomFlag cardType t lockType resultType :
  communityNo c = Some n -> n <> 0 ->
  communityTimezone c <> localTimezone c -> Wire.too_short t ->
  getShare c mobile areaCode roomFlag cardType t lockType resultType w empty_state
  = (Throw (mkError FormatError "time format error."), empty_state).
Proof.
  intros Hc Hn Htz Ht. unfold getShare.
  rewrite (checkCommunityNo_set c n Hc Hn), (communityNo_toString_set c n Hc).
  repeat run_store. now apply bind_too_short.
Qed.

(** With five pairs to read and an unknown community zone, the conversion
    stops at [toLocaleString]. *)
Lemma toCommunityTime_unknown_zone (c : client) (w : world) (s : string) :
  communityTimezone c <> localTimezone c ->
  zone_offset w (communityTimezone c) = None ->
  String.length s = 10%nat -> Spec.single_line s = true ->
  outcome (toCommunityTime c s) w
  = Throw (mkError RangeError ("Invalid time zone specified: " ++ communityTimezone c)).
Proof.
  intros Htz Hz Hl Hs. rewrite outcome_eq. unfold toCommunityTime.
  assert (Hne : s <> ""%string) by (intros ->; discriminate Hl).
  rewrite (proj2 (String.eqb_neq _ _) Hne), (proj2 (String.eqb_neq _ _) Htz).
  rewrite (proj1 (TimeFacts.match_pairs_single_line s) Hs), Hl.
  cbn [Nat.div2 Nat.eqb negb]. cbv [bind ask Date_relocated]. rewrite Hz. reflexivity.
Qed.

End ZoneFacts.

Section TimeArguments.

Import JS Env Uclbrt.

(** X11.  Whenever [toCommunityTime] has to convert (the text is not
    empty and the two zones differ) and returns, what it returns is a text
    of exactly ten decimal digits, whatever the input, the zones and the
    clock of the machine. *)
Theorem toCommunityTime_gives_ten_digits (c : client) (w : world) (s r : string) :
  communityTimezone c <> localTimezone c ->
  s <> ""%string ->
  outcome (toCommunityTime c s) w = Ok r ->
  Wire.ten_digits r.
Proof.
  intros Htz Hs. rewrite Exec.outcome_eq. unfold toCommunityTime.
  rewrite (proj2 (String.eqb_neq _ _) Hs), (proj2 (String.eqb_neq _ _) Htz).
  destruct (negb _); [discriminate|].
  cbv [bind ask Date_relocated].
  destruct (zone_offset w (communityTimezone c)); [|discriminate].
  destruct (Date_local w _); cbv [ret];
    match goal with |- context [Date_toISOString ?d] => destruct d end;
    cbn [Date_toISOString ret throw fst]; try discriminate.
  all: intros [= <-]; apply SliceFacts.iso_slice.
Qed.

Lemma toCommunityTime_gives_ten_digits_witness :
  outcome (toCommunityTime Sample.client_tokyo "2501011200")
          (Sample.tokyo (Sample.replies 200 VNull)) = Ok "2501010200"%string
  /\ Wire.ten_digits "2501010200".
Proof.
  assert (E : outcome (toCommunityTime Sample.client_tokyo "2501011200")
                (Sample.tokyo (Sample.replies 200 VNull)) = Ok "2501010200"%string)
    by (vm_compute; reflexivity).
  split; [exact E|].
  apply (toCommunityTime_gives_ten_digits Sample.client_tokyo
           (Sample.tokyo (Sample.replies 200 VNull)) "2501011200" "2501010200").
  - discriminate.
  - discriminate.
  - exact E.
Defined.

(** X12.  A malformed time stops the call before anything is sent: when
    the zones differ and the first time argument of an operation is not
    empty and shorter than ten characters, the operation fails with
    ['time format error.'] and issues no request. *)
Theorem malformed_time_sends_nothing (c : client) (w : world) (n : Z) (op : operation)
  (t : string) :
  communityNo c = Some n -> n <> 0 ->
  communityTimezone c <> localTimezone c ->
  Wire.first_time op = Some t -> Wire.too_short t ->
  run (invoke c op) w = (Throw (mkError FormatError "time format error."), []).
Proof.
  intros Hc Hn Htz Hop Ht. unfold run.
  destruct op; try discriminate Hop; injection Hop as ->;
    cbv [invoke createRoomKey createFloorKey createBuildingKey create createRoomLostKey
         generateQRPRoomCipher getRoomKeyImage getFloorKeyImage getBuildingKeyImage
         makeCard makeLostCard].
  all: try (unfold bind at 1;
            rewrite (ZoneFacts.getShare_too_short c w n _ _ _ _ t _ _ Hc Hn Htz Ht);
            reflexivity).
  all: try (rewrite (ZoneFacts.getShare_too_short c w n _ _ _ _ t _ _ Hc Hn Htz Ht);
            reflexivity).
  all: rewrite (Steps.checkCommunityNo_set c n Hc Hn),
         ?(Steps.communityNo_toString_set c n Hc);
    repeat run_store;
    rewrite (ZoneFacts.bind_too_short c t _ w _ Htz Ht); reflexivity.
Qed.

Lemma malformed_time_sends_nothing_witness :
  run (invoke Sample.client_tokyo
         (MakeCard "M1" "1" "2" "3" "25-01-01" "86" "138" "secret" "Li" 0 1 "86" "139" "e@x"))
      (Sample.tokyo (Sample.replies 200 VNull))
  = (Throw (mkError FormatError "time format error."), []).
Proof.
  apply (malformed_time_sends_nothing Sample.client_tokyo
           (Sample.tokyo (Sample.replies 200 VNull)) 123456789 _ "25-01-01").
  - reflexivity.
  - lia.
  - discriminate.
  - reflexivity.
  - split; [discriminate | simpl; lia].
Defined.



(** X14.  [generateQRPRoomCipher] sends its two times on the hour: the
    last two characters of each converted time are replaced by ["00"], and
    a time that is left out (or has at most two characters) is sent as
    ["00"]. *)
Theorem cipher_times_on_the_hour (c : client) (w : world) (n : Z)
  (mobile areaCode roomNo floorNo buildNo startTime endTime : string) (cipherType : Z)
  (start stop : string) :
  communityNo c = Some n -> n <> 0 ->
  outcome (toCommunityTime c startTime) w = Ok start ->
  outcome (toCommunityTime c endTime) w = Ok stop ->
  exists rq,
    requests (invoke c (GenerateQRPRoomCipher mobile areaCode roomNo floorNo buildNo
                          startTime endTime cipherType)) w = [rq]
    /\ (forall hours minutes, start = (hours ++ minutes)%string ->
          String.length minutes = 2%nat ->
          get (data rq) "startTime" = VStr (hours ++ "00"))
    /\ (forall hours minutes, stop = (hours ++ minutes)%string ->
          String.length minutes = 2%nat ->
          get (data rq) "endTime" = VStr (hours ++ "00"))
    /\ ((String.length start <= 2)%nat -> get (data rq) "startTime" = VStr "00")
    /\ ((String.length stop <= 2)%nat -> get (data rq) "endTime" = VStr "00").
Proof.
  intros Hc Hn Hstart Hstop. cbv [invoke generateQRPRoomCipher].
  rewrite Exec.requests_eq.
  rewrite (Steps.checkCommunityNo_set c n Hc Hn), (Steps.communityNo_toString_set c n Hc).
  repeat run_store.
  rewrite (Exec.bind_pure (toCommunityTime c startTime)) by auto with pure.
  rewrite Hstart.
  rewrite (Exec.bind_pure (toCommunityTime c endTime)) by auto with pure.
  rewrite Hstop.
  repeat run_store.
  rewrite Exec.bind_pure_tail by auto with pure.
  rewrite Exec.curlPost_state.
  cbn [heap sent empty_state List.length app nth update snd].
  eexists. split; [reflexivity|].
  cbn [data axios_config].
  change (get (literal _) "startTime") with (VStr (Text.slice start 0 (-2) ++ "00")).
  change (get (literal _) "endTime") with (VStr (Text.slice stop 0 (-2) ++ "00")).
  split; [|split; [|split]].
  - intros h m -> Hm. now rewrite SliceFacts.slice_but_two.
  - intros h m -> Hm. now rewrite SliceFacts.slice_but_two.
  - intros H. now rewrite SliceFacts.slice_short.
  - intros H. now rewrite SliceFacts.slice_short.
Qed.

Lemma cipher_times_on_the_hour_witness :
  exists rq,
    requests (invoke Sample.client_AT_set
                (GenerateQRPRoomCipher "138" "86" "101" "1" "2" "2501011230" "" 0))
      (Sample.shanghai (Sample.replies 200 VNull)) = [rq]
    /\ get (data rq) "startTime" = VStr "2501011200"
    /\ get (data rq) "endTime" = VStr "00".
Proof.
  destruct (cipher_times_on_the_hour Sample.client_AT_set
              (Sample.shanghai (Sample.replies 200 VNull)) 123456789
              "138" "86" "101" "1" "2" "2501011230" "" 0 "2501011230" "")
    as (rq & Hrq & Hs & _ & _ & He); try reflexivity; [lia|].
  exists rq. split; [exact Hrq|]. split.
  - apply (Hs "25010112" "30"); reflexivity.
  - apply He. simpl. lia.
Defined.

End TimeArguments.

(** ** The canonical encoder does not see the insertion order *)

Module OrderFacts.

Import JS Env Uclbrt.

Lemma ascii_compare_eq (a b : ascii) : Ascii.compare a b = Eq -> a = b.
Proof.
  unfold Ascii.compare. intros H. apply N.compare_eq in H.
  rewrite <- (ascii_N_embedding a), <- (ascii_N_embedding b). now rewrite H.
Qed.

Lemma ascii_compare_lt_trans (a b c : ascii) :
  Ascii.compare a b = Lt -> Ascii.compare b c = Lt -> Ascii.compare a c = Lt.
Proof.
  unfold Ascii.compare. rewrite !N.compare_lt_iff. lia.
Qed.

Lemma compare_lt_trans (a b c : string) :
  String.compare a b = Lt -> String.compare b c = Lt -> String.compare a c = Lt.
Proof.
  revert b c. induction a as [|x a IH]; intros [|y b] [|z c]; simpl;
    try discriminate; try reflexivity.
  destruct (Ascii.compare x y) eqn:Exy; try discriminate.
  - apply ascii_compare_eq in Exy. subst y.
    destruct (Ascii.compare x z) eqn:Exz; try discriminate; [|reflexivity].
    apply IH.
  - intros _. destruct (Ascii.compare y z) eqn:Eyz; try discriminate.
    + apply ascii_compare_eq in Eyz. subst z. now rewrite Exy.
    + now rewrite (ascii_compare_lt_trans x y z Exy Eyz).
Qed.

Lemma key_lt_compare (a b : string) : Spec.key_lt a b <-> String.compare a b = Lt.
Proof.
  unfold Spec.key_lt, String.ltb.
  destruct (String.compare a b); split; congruence.
Qed.

Lemma key_lt_trans (a b c : string) : Spec.key_lt a b -> Spec.key_lt b c -> Spec.key_lt a c.
Proof. rewrite !key_lt_compare. apply compare_lt_trans. Qed.

Lemma compare_refl (a : string) : String.compare a a = Eq.
Proof.
  induction a as [|x a IH]; simpl; [reflexivity|].
  unfold Ascii.compare. now rewrite N.compare_refl.
Qed.

Lemma key_lt_irrefl (a : string) : ~ Spec.key_lt a a.
Proof. rewrite key_lt_compare, compare_refl. discriminate. Qed.

Lemma sorted_strongly (l : list string) :
  Sorted Spec.key_lt l -> StronglySorted Spec.key_lt l.
Proof.
  apply Sorted_StronglySorted. intros a b c. apply key_lt_trans.
Qed.

(** Two strictly ascending lists with the same elements are equal. *)
Lemma ascending_unique (l1 l2 : list string) :
  StronglySorted Spec.key_lt l1 -> StronglySorted Spec.key_lt l2 ->
  (forall k, In k l1 <-> In k l2) -> l1 = l2.
Proof.
  intros H1. revert l2. induction H1 as [|x l1 Hs1 IH Hx]; intros l2 H2 Hin.
  - destruct l2 as [|y l2]; [reflexivity|]. destruct (proj2 (Hin y)). now left.
  - destruct H2 as [|y l2 Hs2 Hy]; [destruct (proj1 (Hin x)); now left|].
    rewrite Forall_forall in Hx, Hy.
    assert (x = y) as <-.
    { destruct (proj1 (Hin x) (or_introl eq_refl)) as [E | Hxl2]; [now symmetry|].
      destruct (proj2 (Hin y) (or_introl eq_refl)) as [E | Hyl1]; [exact E|].
      destruct (key_lt_irrefl x). apply (key_lt_trans x y x); [now apply Hx | now apply Hy]. }
    f_equal. apply IH; [exact Hs2|]. intros k. split; intros Hk.
    + destruct (proj1 (Hin k) (or_intror Hk)) as [E | Hk2]; [|exact Hk2].
      subst k. destruct (key_lt_irrefl x). now apply Hx.
    + destruct (proj2 (Hin k) (or_intror Hk)) as [E | Hk1]; [|exact Hk1].
      subst k. destruct (key_lt_irrefl x). now apply Hy.
Qed.

(** Sorting distinct keys forgets the order they came in. *)
Lemma sort_permutation (l1 l2 : list string) :
  NoDup l1 -> Permutation l1 l2 -> sort l1 = sort l2.
Proof.
  intros Hnd Hp.
  assert (Hnd2 : NoDup l2) by (eapply Permutation_NoDup; eassumption).
  apply ascending_unique.
  - apply sorted_strongly, ObjFacts.sorted_strict; [|apply ObjFacts.sort_sorted].
    eapply Permutation_NoDup; [symmetry; apply ObjFacts.sort_perm | exact Hnd].
  - apply sorted_strongly, ObjFacts.sorted_strict; [|apply ObjFacts.sort_sorted].
    eapply Permutation_NoDup; [symmetry; apply ObjFacts.sort_perm | exact Hnd2].
  - intros k. split; intros Hk.
    + eapply Permutation_in; [symmetry; apply ObjFacts.sort_perm|].
      eapply Permutation_in; [exact Hp|].
      eapply Permutation_in; [apply ObjFacts.sort_perm | exact Hk].
    + eapply Permutation_in; [symmetry; apply ObjFacts.sort_perm|].
      eapply Permutation_in; [symmetry; exact Hp|].
      eapply Permutation_in; [apply ObjFacts.sort_perm | exact Hk].
Qed.

Lemma lookup_in (o : obj) (k : string) (v : value) :
  NoDup (keys o) -> In (k, v) o -> lookup o k = Some v.
Proof.
  induction o as [|[k' v'] o IH]; simpl; [tauto|].
  intros Hnd [H | H]; inversion Hnd as [|? ? Hk' Hnd']; subst.
  - injection H as -> ->. now rewrite String.eqb_refl.
  - destruct (k' =? k)%string eqn:E; [|now apply IH].
    apply String.eqb_eq in E. subst k'. destruct Hk'.
    change k with (fst (k, v)). now apply in_map.
Qed.

Lemma lookup_none (o : obj) (k : string) : ~ In k (keys o) -> lookup o k = None.
Proof.
  intros H. apply ObjFacts.has_false in H. unfold has in H.
  now destruct (lookup o k).
Qed.

Lemma lookup_some_in (o : obj) (k : string) (v : value) :
  lookup o k = Some v -> In (k, v) o.
Proof.
  induction o as [|[k' v'] o IH]; simpl; [discriminate|].
  destruct (k' =? k)%string eqn:E.
  - apply String.eqb_eq in E. intros [= ->]. subst. now left.
  - intros H. right. now apply IH.
Qed.

(** An object with distinct keys is read the same way in any order. *)
Lemma get_permutation (o1 o2 : obj) (k : string) :
  NoDup (keys o1) -> Permutation o1 o2 -> get o1 k = get o2 k.
Proof.
  intros Hnd Hp.
  assert (Hk : Permutation (keys o1) (keys o2)) by now apply Permutation_map.
  assert (Hnd2 : NoDup (keys o2)) by (eapply Permutation_NoDup; eassumption).
  unfold get. destruct (lookup o1 k) as [v|] eqn:E.
  - apply lookup_some_in in E.
    now rewrite (lookup_in o2 k v Hnd2 (Permutation_in _ Hp E)).
  - rewrite lookup_none; [reflexivity|]. intros Hin.
    apply (Permutation_in _ (Permutation_sym Hk)), ObjFacts.has_in in Hin.
    unfold has in Hin. now rewrite E in Hin.
Qed.

(** [objectToQuery] reads an object through its keys and [get] only. *)
Lemma objectToQuery_ext (o1 o2 : obj) :
  NoDup (keys o1) -> Permutation (keys o1) (keys o2) ->
  (forall k, get o1 k = get o2 k) ->
  objectToQuery o1 = objectToQuery o2.
Proof.
  intros Hnd Hk Hget. unfold objectToQuery. cbv zeta.
  rewrite (sort_permutation _ _ Hnd Hk). f_equal.
  apply map_ext. intros k. now rewrite Hget.
Qed.

Lemma set_permutation (o1 o2 : obj) (k : string) (v : value) :
  NoDup (keys o1) -> Permutation (keys o1) (keys o2) ->
  (forall k', get o1 k' = get o2 k') ->
  NoDup (keys (set o1 k v))
  /\ Permutation (keys (set o1 k v)) (keys (set o2 k v))
  /\ forall k', get (set o1 k v) k' = get (set o2 k v) k'.
Proof.
  intros Hnd Hk Hget. split; [now apply ObjFacts.keys_set_NoDup|]. split.
  - rewrite !ObjFacts.keys_set.
    assert (E : has o1 k = has o2 k).
    { destruct (has o1 k) eqn:E1; symmetry.
      - apply ObjFacts.has_in. apply ObjFacts.has_in in E1.
        eapply Permutation_in; eassumption.
      - apply ObjFacts.has_false. apply ObjFacts.has_false in E1. intros Hin.
        apply E1. eapply Permutation_in; [symmetry; exact Hk | exact Hin]. }
    rewrite <- E. destruct (has o1 k); [exact Hk | now constructor].
  - intros k'. destruct (String.eqb k' k) eqn:E.
    + apply String.eqb_eq in E. subst k'. now rewrite !ObjFacts.get_set_same.
    + apply String.eqb_neq in E. now rewrite !ObjFacts.get_set_other.
Qed.

Lemma getSig3_literal (c : client) (fields : obj) (w : world) :
  outcome (bind (new_object fields) (getSig3 c)) w
  = Ok (Text.hex (Digest.sha1 (Text.utf8
          (objectToQuery (set (literal fields) "authToken" (VStr (authToken c))))))).
Proof. reflexivity. Qed.

End OrderFacts.

Section CanonicalOrder.

Import JS Env Uclbrt.

(** X15.  [objectToQuery] gives the same text for two objects that hold
    the same properties in different orders, and so does the signature of
    [getSig3] for two object literals that list the same fields in
    different orders: unlike the concatenation signature of [getSig2], it
    does not depend on the order in which an operation fills its
    payload. *)
Theorem canonical_query_ignores_order :
  (forall o1 o2 : obj,
     NoDup (keys o1) -> Permutation o1 o2 -> objectToQuery o1 = objectToQuery o2)
  /\ (forall (c : client) (fields1 fields2 : obj) (w : world),
        Spec.plain_keys fields1 -> Permutation fields1 fields2 ->
        outcome (bind (new_object fields1) (getSig3 c)) w
        = outcome (bind (new_object fields2) (getSig3 c)) w).
Proof.
  split.
  - intros o1 o2 Hnd Hp. apply OrderFacts.objectToQuery_ext.
    + exact Hnd.
    + now apply Permutation_map.
    + intros k. now apply OrderFacts.get_permutation.
  - intros c f1 f2 w [Hnd Hi] Hp.
    assert (Hk : Permutation (keys f1) (keys f2)) by now apply Permutation_map.
    assert (Hplain2 : Spec.plain_keys f2).
    { split; [eapply Permutation_NoDup; eassumption|].
      eapply Permutation_Forall; eassumption. }
    rewrite !OrderFacts.getSig3_literal.
    rewrite (ObjFacts.literal_plain f1 (conj Hnd Hi)), (ObjFacts.literal_plain f2 Hplain2).
    destruct (OrderFacts.set_permutation f1 f2 "authToken" (VStr (authToken c)) Hnd Hk)
      as (Hnd' & Hk' & Hget').
    { intros k. now apply OrderFacts.get_permutation. }
    now rewrite (OrderFacts.objectToQuery_ext _ _ Hnd' Hk' Hget').
Qed.

Lemma canonical_query_ignores_order_witness :
  let ab := [("a", VStr "1"); ("b", VStr "2")] in
  let ba := [("b", VStr "2"); ("a", VStr "1")] in
  let w := Sample.shanghai (Sample.replies 200 VNull) in
  objectToQuery ab = "a=1&b=2"%string
  /\ objectToQuery ab = objectToQuery ba
  /\ outcome (bind (new_object ab) (getSig3 Sample.client_AT)) w
     = outcome (bind (new_object ba) (getSig3 Sample.client_AT)) w
  /\ Spec.sig2 Sample.client_AT ab w <> Spec.sig2 Sample.client_AT ba w.
Proof.
  intros ab ba w.
  assert (Hnd : NoDup (keys ab)).
  { apply NoDup_cons; [simpl; intros [H | []]; discriminate H|].
    apply NoDup_cons; [intros [] | apply NoDup_nil]. }
  split; [reflexivity|]. split; [|split].
  - apply (proj1 canonical_query_ignores_order ab ba Hnd). apply perm_swap.
  - apply (proj2 canonical_query_ignores_order Sample.client_AT ab ba w).
    + split; [exact Hnd | repeat constructor].
    + apply perm_swap.
  - vm_compute. discriminate.
Defined.

End CanonicalOrder.

(** ** What the payloads hold *)

Module PayloadFacts.

Import JS Env Uclbrt Exec Steps.

(** The data of the one request of a call, once the community id is
    known. *)
Ltac payload c n Hc :=
  rewrite requests_eq;
  WireFacts.unfold_operations;
  rewrite ?(communityNo_toString_set c n Hc);
  try (destruct (_ =? "")%string; [intros []|]);
  exec;
  rewrite ?curlPost_state, ?WireFacts.link_tail_sent;
  cbn [sent snd app heap empty_state];
  intros Hin;
  try (destruct Hin as [<- | []]; cbn [data axios_config]);
  try (destruct Hin).

Lemma community_field (c : client) (w : world) (n : Z) (op : operation) (rq : request) :
  communityNo c = Some n ->
  In rq (requests (invoke c op) w) ->
  get (data rq) "communityNo"
  = if Wire.sends_community op then VStr (Text.decimal n) else VUndef.
Proof.
  intros Hc. destruct op; payload c n Hc; reflexivity.
Qed.

Lemma token_field (c : client) (w : world) (n : Z) (op : operation) (rq : request) :
  communityNo c = Some n ->
  In rq (requests (invoke c op) w) ->
  has (data rq) "authToken" = Spec.records_family op
  /\ has (data rq) "token" = false.
Proof.
  intros Hc. destruct op; payload c n Hc; split; reflexivity.
Qed.

End PayloadFacts.

Section Payloads.

Import JS Env Uclbrt.



(** X17.  Only the Records operations put the authToken in a payload: a
    request has a property [authToken] exactly when it comes from
    [getRecordsByRoom], [fetchRoomInfo] or [getBoxInfo], and no request has
    the property [token] that [getLink] encrypts. *)
Theorem token_property_only_in_records (c : client) (w : world) (n : Z) (op : operation)
  (rq : request) :
  communityNo c = Some n ->
  In rq (requests (invoke c op) w) ->
  has (data rq) "authToken" = Spec.records_family op
  /\ has (data rq) "token" = false.
Proof. apply PayloadFacts.token_field. Qed.

Lemma token_property_only_in_records_witness :
  let w := Sample.shanghai (Sample.replies 200 VNull) in
  exists rq, requests (invoke Sample.client_AT_set GetMacList) w = [rq]
     /\ has (data rq) "authToken" = false.
Proof.
  intros w.
  assert (E : exists rq, requests (invoke Sample.client_AT_set GetMacList) w = [rq])
    by (eexists; vm_compute; reflexivity).
  destruct E as [rq E]. exists rq. split; [exact E|].
  apply (token_property_only_in_records Sample.client_AT_set w 123456789 GetMacList rq
           eq_refl).
  rewrite E. left. reflexivity.
Defined.

(** X18.  A link operation returns a text that starts with the card host
    followed by [apiLogin/?data=], or stops with one of three errors: the
    missing mobile, tested first, the missing community id, or ['failed to
    generate link.'], which replaces whatever the encryption threw. *)
Theorem link_outcomes (c : client) (w : world) (op : operation) :
  Wire.link_operation op = true ->
  match outcome (invoke c op) w with
  | Ok v => exists text, v = VStr (cardHost c ++ "apiLogin/?data=" ++ text)
  | Throw e => In e Wire.link_errors
  end.
Proof.
  intros Hop. rewrite Exec.outcome_eq.
  destruct op; try discriminate Hop;
    cbv [invoke getRoomKeyLink getFloorKeyLink getBuildingKeyLink getLink].
  all: destruct (mobile =? "")%string; [left; reflexivity|].
  all: unfold checkCommunityNo, communityNo_toString;
    destruct (communityNo c) as [n|]; [|right; left; reflexivity];
    destruct (n =? 0); [right; left; reflexivity|].
  all: repeat run_store.
  all: cbv [try_catch bind read_object publicEncrypt ask ret throw];
    destruct (rsa_encrypt w _ _); cbn [fst];
    [eexists; reflexivity | right; right; left; reflexivity].
Qed.

Lemma link_outcomes_witness :
  outcome (invoke Sample.client_AT_set (GetRoomKeyLink "" "86" "C1"))
    (Sample.shanghai (Sample.replies 200 VNull))
  = Throw (mkError MissingArgument "mobile cannot be empty.")
  /\ match outcome (invoke Sample.client_AT_set (GetRoomKeyLink "138" "86" "C1"))
             (Sample.shanghai (Sample.replies 200 VNull)) with
     | Ok v => exists text, v = VStr (cardHost Sample.client_AT_set ++ "apiLogin/?data=" ++ text)
     | Throw e => In e Wire.link_errors
     end.
Proof.
  split; [reflexivity|].
  apply (link_outcomes Sample.client_AT_set (Sample.shanghai (Sample.replies 200 VNull))
           (GetRoomKeyLink "138" "86" "C1")).
  reflexivity.
Defined.

End Payloads.

(** ** The error tells whether a request went out *)

Module PhaseFacts.

Import JS Env Uclbrt Exec Steps.

Lemma checkCommunityNo_site c w e :
  outcome (checkCommunityNo c) w = Throw e -> site e = ConfigurationError.
Proof.
  rewrite outcome_eq. unfold checkCommunityNo.
  destruct (communityNo c) as [n|]; [destruct (n =? 0)|]; intros [= <-]; reflexivity.
Qed.

Lemma communityNo_toString_site c w e :
  outcome (communityNo_toString c) w = Throw e -> site e = TypeError.
Proof.
  rewrite outcome_eq. unfold communityNo_toString.
  destruct (communityNo c); intros [= <-]; reflexivity.
Qed.

Lemma toCommunityTime_site c s w e :
  outcome (toCommunityTime c s) w = Throw e ->
  site e = FormatError \/ site e = RangeError.
Proof.
  rewrite outcome_eq. unfold toCommunityTime.
  destruct (s =? "")%string; [discriminate|].
  destruct (communityTimezone c =? localTimezone c)%string; [discriminate|].
  destruct (negb _); [intros [= <-]; now left|].
  cbv [bind ask Date_relocated].
  destruct (zone_offset w (communityTimezone c)); [|intros [= <-]; now right].
  destruct (Date_local w _); cbv [ret];
    match goal with |- context [Date_toISOString ?d] => destruct d end;
    cbn [Date_toISOString ret throw fst]; try discriminate.
  all: intros [= <-]; now right.
Qed.

(** [curlPost] fails at the transport, at the server's verdict, or on
    reading [info] from a reply that is [undefined] or [null]; what it
    returns is an object. *)
Lemma curlPost_verdict c url auth data ct w st :
  match fst (curlPost c url auth data ct w st) with
  | Ok v => exists reply, v = VObj reply
  | Throw e => Wire.before_request (site e) = false
  end.
Proof.
  rewrite ReplyFacts.curlPost_outcome.
  destruct (server w _) as [reason | status reply]; [reflexivity|].
  destruct (negb (status =? 200)); [reflexivity|].
  destruct (negb (truthy reply) || negb (strict_eq_num (prop reply "status") 200)) eqn:E.
  - destruct reply; reflexivity.
  - destruct reply; cbn [prop strict_eq_num negb] in E; rewrite ?orb_true_r in E;
      try discriminate E.
    eexists; reflexivity.
Qed.

(** The checks that follow [curlPost] leave the log alone and fail, if
    they do, after the request. *)
Definition closing (k : value -> M value) : Prop :=
  forall reply w st,
    snd (k (VObj reply) w st) = st
    /\ match fst (k (VObj reply) w st) with
       | Ok _ => True
       | Throw e => Wire.before_request (site e) = false
       end.

Lemma closing_expect_field field msg : closing (fun result => expect_field result field msg).
Proof.
  intros reply w st. unfold expect_field, bind, get_field, ret, throw.
  destruct (negb (truthy (get reply field))); split; reflexivity.
Qed.

Lemma closing_expect_success (k : value -> M value) :
  (forall v, exists r, k v = ret r) ->
  closing (fun result => bind (expect_success result) (fun _ => k result)).
Proof.
  intros Hk reply w st. unfold expect_success, bind, get_field, ret, throw.
  destruct (negb (truthy (get reply "info")) || _); [split; reflexivity|].
  destruct (Hk (VObj reply)) as [r ->]. split; reflexivity.
Qed.

Lemma closing_getRoomCardInfo :
  closing (fun result => bind (expect_success result) (fun _ => get_field result "data")).
Proof.
  intros reply w st. unfold expect_success, bind, get_field, ret, throw.
  destruct (negb (truthy (get reply "info")) || _); split; reflexivity.
Qed.

Lemma closing_reportCardLost :
  closing (fun result =>
    bind (get_field result "status") (fun status =>
      if negb (truthy status) || negb (loose_eq_num status 200)
      then bind (get_field result "info") (fun info => throw ServerError (error_message info))
      else ret (VBool true))).
Proof.
  intros reply w st. unfold bind, get_field, ret, throw.
  destruct (negb (truthy (get reply "status")) || _); split; reflexivity.
Qed.

Lemma closing_ret : closing (fun result => ret result).
Proof. intros reply w st. split; reflexivity. Qed.

(** The request and what follows it. *)
Lemma in_phase_curlPost c url auth data ct (k : value -> M value) w st :
  sent st = [] -> closing k ->
  Wire.in_phase false (bind (curlPost c url auth data ct) k w st).
Proof.
  intros Hs Hk. rewrite bind_curlPost. cbv zeta.
  pose proof (curlPost_verdict c url auth data ct w st) as Hv.
  destruct (fst (curlPost c url auth data ct w st)) as [v|e].
  - destruct Hv as [reply ->].
    match goal with |- Wire.in_phase _ (k _ w ?s') => destruct (Hk reply w s') as [H1 H2] end.
    unfold Wire.in_phase. rewrite H1. cbn [sent].
    match type of H2 with match ?r with _ => _ end => destruct r as [v|e] end;
      cbv beta iota in *; rewrite Hs; cbn [List.length app]; [reflexivity|].
    split; [rewrite H2; discriminate | reflexivity].
  - unfold Wire.in_phase. cbn [fst snd sent]. rewrite Hs.
    cbv beta iota in Hv. split; [rewrite Hv; discriminate | reflexivity].
Qed.

Lemma in_phase_before link (e : error) :
  Wire.after_request (site e) = false -> Wire.in_phase link (Throw e, empty_state).
Proof.
  intros H. unfold Wire.in_phase. cbn [fst snd sent empty_state].
  split; [reflexivity | rewrite H; discriminate].
Qed.

Ltac early :=
  apply in_phase_before;
  first
    [ match goal with
      | E : outcome (checkCommunityNo _) _ = Throw _ |- _ =>
          rewrite (checkCommunityNo_site _ _ _ E); reflexivity
      end
    | match goal with
      | E : outcome (communityNo_toString _) _ = Throw _ |- _ =>
          rewrite (communityNo_toString_site _ _ _ E); reflexivity
      end
    | match goal with
      | E : outcome (toCommunityTime _ ?s) _ = Throw ?e |- Wire.after_request (site ?e) = _ =>
          destruct (toCommunityTime_site _ _ _ _ E) as [-> | ->]; reflexivity
      end ].

Ltac late :=
  apply in_phase_curlPost;
  [ reflexivity
  | first [ apply closing_expect_field
          | apply closing_getRoomCardInfo
          | apply closing_reportCardLost
          | apply closing_expect_success; intros; eexists; reflexivity ] ].

Ltac step :=
  first [ run_store
        | match goal with
          | |- context [bind ?m ?k ?w ?s] =>
              lazymatch m with
              | curlPost _ _ _ _ _ => fail
              | _ =>
                  rewrite (bind_pure m k w s) by auto with pure;
                  let E := fresh "E" in
                  destruct (outcome m w) eqn:E; [|early]
              end
          end ].

Lemma bind_ret_r {A} (m : M A) w st : bind m (fun x => ret x) w st = m w st.
Proof. unfold bind, ret. now destruct (m w st) as [[a|e] s']. Qed.

Lemma getShare_in_phase c w mobile areaCode roomFlag cardType openEndTime lockType
  resultType (k : value -> M value) :
  closing k ->
  Wire.in_phase false
    (bind (getShare c mobile areaCode roomFlag cardType openEndTime lockType resultType) k
       w empty_state).
Proof.
  intros Hk. unfold getShare.
  assert (Hassoc : forall {A B C} (m : M A) (f : A -> M B) (g : B -> M C) w st,
             bind (bind m f) g w st = bind m (fun x => bind (f x) g) w st).
  { intros A B C m f g w0 st. unfold bind. destruct (m w0 st) as [[a|e] s']; reflexivity. }
  rewrite Hassoc. step. rewrite Hassoc. step.
  rewrite Hassoc. step. rewrite Hassoc. step. rewrite Hassoc. step.
  now apply in_phase_curlPost.
Qed.

Lemma in_phase_invoke (c : client) (w : world) (op : operation) :
  Wire.in_phase (Wire.link_operation op) (invoke c op w empty_state).
Proof.
  destruct op; cbn [Wire.link_operation];
    cbv [invoke createRoomKey createFloorKey createBuildingKey create createRoomLostKey
         generateQRPRoomCipher reportCardLost getRoomKeyImage getFloorKeyImage
         getBuildingKeyImage getRoomKeyString getQRPRoomCipher cancelRoomKey
         cancelFloorKey cancelBuildingKey cancel getRoomCardInfo
         getRoomKeyLink getFloorKeyLink getBuildingKeyLink getLink
         getMacList makeCard makeLostCard readCard cancelCard
         getRecordsByRoom fetchRoomInfo getBoxInfo].
  (* the operations built on [getShare] *)
  all: try (apply getShare_in_phase; apply closing_expect_field).
  all: try (match goal with
            | |- Wire.in_phase _ (getShare ?c ?a ?b ?f ?ct ?en ?lt ?rt ?w ?s) =>
                rewrite <- (bind_ret_r (getShare c a b f ct en lt rt) w s)
            end;
            apply getShare_in_phase; apply closing_ret).
  (* the link operations *)
  all: try (destruct (mobile =? "")%string;
            [apply in_phase_before; reflexivity|];
            repeat step;
            cbv [try_catch bind read_object publicEncrypt ask ret throw];
            destruct (rsa_encrypt w _ _); unfold Wire.in_phase; cbn [fst snd sent];
            [reflexivity | split; [reflexivity | discriminate]]).
  all: repeat step; late.
Qed.

End PhaseFacts.

Section Phases.

Import JS Env Uclbrt.



End Phases.
